(** * node-inertiajs: prop resolution, page object construction, dispatch

    A shallow embedding of the server side of the Inertia protocol as
    implemented by the [Inertia] class and its [HttpAdapter]s, followed by
    the properties of the partial-reload filter, the page object builder,
    the JSON dispatcher and [redirect].

    Conventions of the embedding:
    - a JavaScript object used as a record of props is the list of its own
      enumerable entries, in [Object.entries] order (array indices first,
      in ascending order, then the other keys in the order of their
      creation), with one entry per key; its prototype is
      [Object.prototype], whose members a read of a key that the object
      does not own finds, and whose [__proto__] accessor an assignment
      to that key reaches (the prototype that the accessor installs when
      it is given an object is not tracked);
    - a JavaScript number is an integer ([Z]);
    - a call that can throw, or a promise that can reject, returns an
      [outcome]; code that writes to the HTTP response threads the
      response through a state-and-exception monad [M]. *)

From Stdlib Require Import String Ascii List NArith ZArith Bool Lia DecimalString Sorted.
Import ListNotations.
Open Scope string_scope.
Open Scope list_scope.

Set Implicit Arguments.
Set Warnings "-register-all".

(* ================================================================== *)
(** ** Outcomes of calls that may throw                                  *)
(* ================================================================== *)

Inductive outcome (A : Type) : Type :=
| Returns (a : A)
| Throws (e : string).

Arguments Returns {A} a.
Arguments Throws {A} e.

Definition bind {A B : Type} (m : outcome A) (k : A -> outcome B) : outcome B :=
  match m with
  | Returns a => k a
  | Throws e => Throws e
  end.

Notation "x <- m ;; k" := (bind m (fun x => k))
  (at level 61, m at next level, right associativity).

(** [await Promise.all(entries.map(f))]: every [f] is started; the result
    is the list of the values, or a rejection when one of them rejects.
    Which rejection wins when several reject depends on timing; the model
    reports the first in entry order. *)
Fixpoint promise_all {A B : Type} (f : A -> outcome B) (l : list A) : outcome (list B) :=
  match l with
  | [] => Returns []
  | x :: l' =>
      match f x, promise_all f l' with
      | Returns y, Returns ys => Returns (y :: ys)
      | Throws e, _ => Throws e
      | Returns _, Throws e => Throws e
      end
  end.

(* ================================================================== *)
(** ** Strings                                                           *)
(* ================================================================== *)

(** [s.split(sep)] for a one-character separator. *)
Fixpoint split (sep : ascii) (s : string) : list string :=
  match s with
  | EmptyString => [EmptyString]
  | String c s' =>
      if Ascii.eqb c sep then EmptyString :: split sep s'
      else match split sep s' with
           | tok :: rest => String c tok :: rest
           | [] => [String c EmptyString]
           end
  end.

(** [Boolean(s)] for a string. *)
Definition truthy_string (s : string) : bool := negb (s =? "").

(** [header.split(",").filter(Boolean)] *)
Definition split_filter (s : string) : list string :=
  filter truthy_string (split ","%char s).

(** [new Set(keys).has(key)] *)
Definition set_has (keys : list string) (key : string) : bool :=
  existsb (String.eqb key) keys.

(** Truthiness of what [getHeader] returns: [undefined] and the empty
    string are falsy. *)
Definition truthy_header (h : option string) : bool :=
  match h with
  | Some s => truthy_string s
  | None => false
  end.

Definition lower_char (c : ascii) : ascii :=
  let n := nat_of_ascii c in
  if ((65 <=? n) && (n <=? 90))%nat then ascii_of_nat (n + 32) else c.

(** [s.toLowerCase()] on ASCII letters. *)
Fixpoint toLowerCase (s : string) : string :=
  match s with
  | EmptyString => EmptyString
  | String c s' => String (lower_char c) (toLowerCase s')
  end.

Definition drop (n : nat) (s : string) : string :=
  substring n (String.length s - n) s.

(** [s.includes(pat)] *)
Fixpoint includes (pat s : string) : bool :=
  if prefix pat s then true
  else match s with
       | EmptyString => false
       | String _ s' => includes pat s'
       end.

(** [s.replace(pat, () => rep)]: the first occurrence of the string [pat]
    is replaced; the replacement is taken literally. *)
Fixpoint replace (pat rep s : string) : string :=
  if prefix pat s then (rep ++ drop (String.length pat) s)%string
  else match s with
       | EmptyString => EmptyString
       | String c s' => String c (replace pat rep s')
       end.

Definition Z_to_string (n : Z) : string :=
  NilZero.string_of_int (Z.to_int n).

Definition dquote : ascii := ascii_of_nat 34.

Definition hex_digit (n : nat) : ascii :=
  nth n (list_ascii_of_string "0123456789abcdef") "0"%char.

Definition upper_hex_digit (n : nat) : ascii :=
  nth n (list_ascii_of_string "0123456789ABCDEF") "0"%char.

(* ================================================================== *)
(** ** Property keys                                                     *)
(* ================================================================== *)

Definition digit (c : ascii) : option N :=
  let n := nat_of_ascii c in
  if ((48 <=? n) && (n <=? 57))%nat then Some (N.of_nat (n - 48)) else None.

Fixpoint digits (s : string) (acc : N) : option N :=
  match s with
  | EmptyString => Some acc
  | String c s' =>
      match digit c with
      | Some d => digits s' (10 * acc + d)%N
      | None => None
      end
  end.

(** An array index: the canonical decimal text of an integer from 0 to
    2^32 - 2. *)
Definition array_index (k : string) : option N :=
  match k with
  | EmptyString => None
  | String c rest =>
      if Ascii.eqb c "0" && negb (rest =? "") then None
      else if (10 <? String.length k)%nat then None
      else match digits k 0 with
           | Some n => if (n <? 4294967295)%N then Some n else None
           | None => None
           end
  end.

(** Whether a property [k] that is created is listed before the
    property [k'] that is there: array indices come first, in ascending
    order, and the other keys follow in the order of their creation. *)
Definition key_before (k k' : string) : bool :=
  match array_index k, array_index k' with
  | Some n, Some n' => (n <? n')%N
  | Some _, None => true
  | None, _ => false
  end.

(** A key that is not an array index. *)
Definition named (k : string) : bool :=
  match array_index k with
  | Some _ => false
  | None => true
  end.

(** The names of the members of [Object.prototype]. *)
Definition Object_prototype : list string :=
  ["constructor"; "__defineGetter__"; "__defineSetter__"; "hasOwnProperty";
   "__lookupGetter__"; "__lookupSetter__"; "isPrototypeOf"; "propertyIsEnumerable";
   "toString"; "valueOf"; "__proto__"; "toLocaleString"].

(** Whether an object that has no own property [k] inherits one. *)
Definition inherited (k : string) : bool := existsb (String.eqb k) Object_prototype.

(* ================================================================== *)
(** ** Objects as ordered records of own properties                      *)
(* ================================================================== *)

Section Objects.
Context {V : Type}.

(** The own property [k] of [o]: [None] stands for a missing
    property. *)
Fixpoint obj_get (k : string) (o : list (string * V)) : option V :=
  match o with
  | [] => None
  | (k', v) :: o' => if k' =? k then Some v else obj_get k o'
  end.

(** [Object.prototype.hasOwnProperty.call(o, k)] *)
Definition obj_has (k : string) (o : list (string * V)) : bool :=
  match obj_get k o with
  | Some _ => true
  | None => false
  end.

(** What the expression [o[k]] reads: an own property, else a member of
    [Object.prototype], else [undefined]. *)
Inductive member : Type :=
| Own (v : V)
| Inherited (name : string)
| Missing.

Definition obj_read (k : string) (o : list (string * V)) : member :=
  match obj_get k o with
  | Some v => Own v
  | None => if inherited k then Inherited k else Missing
  end.

(** The own property [k] is given the value [v] and keeps its place. *)
Fixpoint obj_replace (k : string) (v : V) (o : list (string * V)) : list (string * V) :=
  match o with
  | [] => []
  | (k', v') :: o' =>
      if k' =? k then (k', v) :: o' else (k', v') :: obj_replace k v o'
  end.

(** A property [k] is created: it is listed before the first key that
    it precedes. *)
Fixpoint obj_insert (k : string) (v : V) (o : list (string * V)) : list (string * V) :=
  match o with
  | [] => [(k, v)]
  | (k', v') :: o' =>
      if key_before k k' then (k, v) :: (k', v') :: o'
      else (k', v') :: obj_insert k v o'
  end.

(** [CreateDataProperty(o, k, v)], the step of an object spread and of
    [Object.fromEntries]: an existing property keeps its place. *)
Definition obj_set (k : string) (v : V) (o : list (string * V)) : list (string * V) :=
  if obj_has k o then obj_replace k v o else obj_insert k v o.

(** The assignment [o[k] = v]. When [o] has no own [__proto__], that
    name is the accessor of [Object.prototype], whose setter creates no
    property. *)
Definition obj_assign (k : string) (v : V) (o : list (string * V)) : list (string * V) :=
  if (k =? "__proto__") && negb (obj_has k o) then o else obj_set k v o.

(** [delete o[k]] *)
Definition obj_delete (k : string) (o : list (string * V)) : list (string * V) :=
  filter (fun e => negb (fst e =? k)) o.

(** [Object.keys(o)] *)
Definition obj_keys (o : list (string * V)) : list string := map fst o.

(** The entries are in the order an object lists them: no key precedes
    a key that is listed before it. *)
Definition ordered (o : list (string * V)) : Prop :=
  StronglySorted (fun k k' => key_before k' k = false) (obj_keys o).

Definition assign (o : list (string * V)) (e : string * V) : list (string * V) :=
  obj_set (fst e) (snd e) o.

(** [Object.fromEntries(es)] *)
Definition fromEntries (es : list (string * V)) : list (string * V) :=
  fold_left assign es [].

(** [{ ...a, ...b }] *)
Definition spread (a b : list (string * V)) : list (string * V) :=
  fold_left assign b (fold_left assign a []).
End Objects.

Arguments Own {V} v.
Arguments Inherited {V} name.
Arguments Missing {V}.

Definition object (V : Type) : Type := list (string * V).

(* ================================================================== *)
(** ** JSON data and [JSON.stringify]                                    *)
(* ================================================================== *)

(** Plain values as they reach [JSON.stringify]. An object graph with a
    cycle is unfolded up to the reference that closes the cycle, which is
    [DCircular]: a reference to an object or array that encloses it. *)
Inductive data : Type :=
| DUndefined
| DNull
| DBool (b : bool)
| DNumber (n : Z)
| DString (s : string)
| DArray (items : list data)
| DObject (fields : list (string * data))
| DCircular.

Definition escape_char (c : ascii) : string :=
  let n := nat_of_ascii c in
  if (n =? 34)%nat then String "\"%char (String dquote "")
  else if (n =? 92)%nat then "\\"
  else if (n =? 8)%nat then "\b"
  else if (n =? 9)%nat then "\t"
  else if (n =? 10)%nat then "\n"
  else if (n =? 12)%nat then "\f"
  else if (n =? 13)%nat then "\r"
  else if (n <? 32)%nat then
    ("\u00" ++ String (hex_digit (n / 16)) (String (hex_digit (n mod 16)) ""))%string
  else String c "".

Fixpoint escape (s : string) : string :=
  match s with
  | EmptyString => EmptyString
  | String c s' => (escape_char c ++ escape s')%string
  end.

(** The JSON text of a string. *)
Definition quote (s : string) : string :=
  String dquote (escape s ++ String dquote "")%string.

Definition circular_error : string :=
  "TypeError: Converting circular structure to JSON".

(** [JSON.stringify(d)]: [Returns None] is [undefined], the result for a
    value that has no JSON text; a circular structure throws. *)
Fixpoint stringify (d : data) : outcome (option string) :=
  match d with
  | DUndefined => Returns None
  | DNull => Returns (Some "null")
  | DBool b => Returns (Some (if b then "true" else "false"))
  | DNumber n => Returns (Some (Z_to_string n))
  | DString s => Returns (Some (quote s))
  | DArray items =>
      let fix elements (l : list data) : outcome (list string) :=
        match l with
        | [] => Returns []
        | x :: l' =>
            o <- stringify x ;;
            rest <- elements l' ;;
            Returns (match o with Some s => s | None => "null" end :: rest)
        end in
      parts <- elements items ;;
      Returns (Some ("[" ++ String.concat "," parts ++ "]")%string)
  | DObject fields =>
      let fix members (l : list (string * data)) : outcome (list string) :=
        match l with
        | [] => Returns []
        | (k, v) :: l' =>
            o <- stringify v ;;
            rest <- members l' ;;
            Returns (match o with
                     | Some s => (quote k ++ ":" ++ s)%string :: rest
                     | None => rest
                     end)
        end in
      parts <- members fields ;;
      Returns (Some ("{" ++ String.concat "," parts ++ "}")%string)
  | DCircular => Throws circular_error
  end.

(* ================================================================== *)
(** ** HTTP request, response, and the monad of response writers         *)
(* ================================================================== *)

(** The parts of Node's [IncomingMessage] the code reads. Header names
    are stored in lower case, as Node does; [req_data] is the message
    itself as a value, what [JSON.stringify] makes of a prop that is
    bound to it. *)
Record Request : Type := mkRequest {
  req_method : option string;
  req_url : option string;
  req_headers : object string;
  req_data : data
}.

(** The parts of Node's [ServerResponse] the code writes. *)
Record Response : Type := mkResponse {
  statusCode : Z;
  res_headers : object string;
  res_body : option string;
  res_ended : bool
}.

Definition M (A : Type) : Type := Response -> outcome A * Response.

Definition ret {A : Type} (a : A) : M A := fun res => (Returns a, res).

Definition throw {A : Type} (e : string) : M A := fun res => (Throws e, res).

Definition bindM {A B : Type} (m : M A) (k : A -> M B) : M B :=
  fun res =>
    match m res with
    | (Returns a, res') => k a res'
    | (Throws e, res') => (Throws e, res')
    end.

(** A computation that reads the response and may throw. *)
Definition lift {A : Type} (f : Response -> outcome A) : M A :=
  fun res => (f res, res).

(** [try { m } catch { handler }]: what [m] wrote before it threw stays
    written. *)
Definition try_catch {A : Type} (m : M A) (handler : M A) : M A :=
  fun res =>
    match m res with
    | (Returns a, res') => (Returns a, res')
    | (Throws _, res') => handler res'
    end.

Notation "x <~ m ;; k" := (bindM m (fun x => k))
  (at level 61, m at next level, right associativity).
Notation "m ;;; k" := (bindM m (fun _ => k))
  (at level 61, right associativity).

Module ServerResponse.
(** [response.setHeader(name, value)] *)
Definition setHeader (name value : string) : M unit :=
  fun res =>
    (Returns tt,
     mkResponse (statusCode res) (obj_set (toLowerCase name) value (res_headers res))
                (res_body res) (res_ended res)).

(** [response.statusCode = code] *)
Definition setStatusCode (code : Z) : M unit :=
  fun res =>
    (Returns tt, mkResponse code (res_headers res) (res_body res) (res_ended res)).

(** The status codes that [writeHead] accepts. *)
Definition valid_status (code : Z) : bool := ((100 <=? code) && (code <=? 999))%Z.

Definition invalid_status_code (code : Z) : string :=
  ("RangeError [ERR_HTTP_INVALID_STATUS_CODE]: Invalid status code: " ++ Z_to_string code)%string.

(** [response.end(data)]: the head is written with the status code of
    the response, which [writeHead] refuses outside 100..999. *)
Definition end_ (chunk : option string) : M unit :=
  fun res =>
    if valid_status (statusCode res)
    then (Returns tt, mkResponse (statusCode res) (res_headers res) chunk true)
    else (Throws (invalid_status_code (statusCode res)), res).
End ServerResponse.

(** [encodeURI] on a string of UTF-8 bytes. *)
Definition uri_unescaped (c : ascii) : bool :=
  let n := nat_of_ascii c in
  ((65 <=? n) && (n <=? 90) || (97 <=? n) && (n <=? 122) || (48 <=? n) && (n <=? 57))%nat
  || includes (String c "") ";,/?:@&=+$-_.!~*'()#".

Fixpoint encodeURI (s : string) : string :=
  match s with
  | EmptyString => EmptyString
  | String c s' =>
      if uri_unescaped c then String c (encodeURI s')
      else
        let n := nat_of_ascii c in
        String "%"%char
          (String (upper_hex_digit (n / 16))
             (String (upper_hex_digit (n mod 16)) (encodeURI s')))
  end.

(* ================================================================== *)
(** ** Adapter: the interface [Inertia] is written against               *)
(* ================================================================== *)

(** The first argument of [redirect(statusOrUrl, url?)]. *)
Inductive StatusOrUrl : Type :=
| Status (status : Z)
| Url (url : string).

(** The abstract class [Adapter]: one record per request. *)
Record Adapter : Type := mkAdapter {
  getRequest : Request;
  getHeader : string -> option string;
  setHeader : string -> string -> M unit;
  getMethod : string;
  getUrl : string;
  json : data -> M unit;
  html : string -> M unit;
  redirect : StatusOrUrl -> option string -> M unit;
  setStatus : Z -> M unit;
  end_ : option string -> M unit
}.

(** [left || right] on strings. *)
Definition or_else (left right : string) : string :=
  if truthy_string left then left else right.

Definition or_default (left : option string) (right : string) : string :=
  match left with
  | Some s => or_else s right
  | None => right
  end.

(** The HTTP adapter for raw Node.js requests (extends [Adapter]). *)
Module HttpAdapter.
Section WithRequest.
Variable request : Request.

(** [request.headers[name.toLowerCase()]]; the names the class asks for
    are those of [InertiaHeaders], none of which [Object.prototype]
    has. *)
Definition getHeader (name : string) : option string :=
  obj_get (toLowerCase name) (req_headers request).

Definition setHeader (name value : string) : M unit :=
  ServerResponse.setHeader name value.

Definition getMethod : string := or_default (req_method request) "GET".

Definition getUrl : string := or_default (req_url request) "/".

Definition json (d : data) : M unit :=
  ServerResponse.setHeader "Content-Type" "application/json" ;;;
  text <~ lift (fun _ => stringify d) ;;
  ServerResponse.end_ text.

Definition html (content : string) : M unit :=
  ServerResponse.setHeader "Content-Type" "text/html" ;;;
  ServerResponse.end_ (Some content).

Definition redirect_body (status : Z) (encodedLocation : string) : string :=
  match obj_get "accept" (req_headers request) with
  | Some accept =>
      if includes "html" accept then
        ("<p>" ++ Z_to_string status ++ ". Redirecting to <a href=" ++ String dquote ""
           ++ encodedLocation ++ String dquote "" ++ ">" ++ encodedLocation ++ "</a></p>")%string
      else (Z_to_string status ++ ". Redirecting to " ++ encodedLocation)%string
  | None => (Z_to_string status ++ ". Redirecting to " ++ encodedLocation)%string
  end.

Definition redirect (statusOrUrl : StatusOrUrl) (url : option string) : M unit :=
  let '(status, location) :=
    match statusOrUrl, url with
    | Status n, Some u => (n, u)
    | Status _, None => (302%Z, "")
    | Url u, _ => (302%Z, u)
    end in
  let encodedLocation := encodeURI location in
  ServerResponse.setStatusCode status ;;;
  ServerResponse.setHeader "Location" encodedLocation ;;;
  let method := getMethod in
  let body := redirect_body status encodedLocation in
  ServerResponse.setHeader "Content-Length"
    (Z_to_string (Z.of_nat (String.length body))) ;;;
  if method =? "HEAD" then ServerResponse.end_ None
  else ServerResponse.end_ (Some body).

Definition setStatus (code : Z) : M unit := ServerResponse.setStatusCode code.

Definition end_ (chunk : option string) : M unit := ServerResponse.end_ chunk.

(** [new HttpAdapter(request, response)] *)
Definition new : Adapter :=
  mkAdapter request getHeader setHeader getMethod getUrl json html redirect
            setStatus end_.
End WithRequest.
End HttpAdapter.

(** The other [HttpAdapter] of the repository, which extends the
    [Adapter] of [index.js] ([url], [method], [statusCode], [send]), an
    interface [Inertia] is not written against. Its [setHeader]
    lower-cases the name itself. *)
Module HttpAdapterIndex.
Definition setHeader (name value : string) : M unit :=
  ServerResponse.setHeader (toLowerCase name) value.

Definition serialize_failure : data :=
  DObject [("error", DString "Failed to serialize JSON")].

Definition json (d : data) : M unit :=
  try_catch
    (ServerResponse.setHeader "Content-Type" "application/json" ;;;
     text <~ lift (fun _ => stringify d) ;;
     ServerResponse.end_ text)
    (ServerResponse.setStatusCode 500 ;;;
     text <~ lift (fun _ => stringify serialize_failure) ;;
     ServerResponse.end_ text).
End HttpAdapterIndex.

(* ================================================================== *)
(** ** Header names and prop variants                                    *)
(* ================================================================== *)

(** Modelled from the spec: the module [headers.js] that declares
    [InertiaHeaders] is not among the sources. The spec (External
    Interfaces) lists a protocol marker header, a partial-component
    header, a partial-only header, a partial-except header and a reset
    header; the comments of [resolveOnly] and [resolveExcept] name two of
    them, the others carry the names of the Inertia protocol. *)
Module InertiaHeaders.
Definition Inertia : string := "x-inertia".
Definition Reset : string := "x-inertia-reset".
Definition Location : string := "x-inertia-location".
Definition PartialOnly : string := "x-inertia-partial-data".
Definition PartialExcept : string := "x-inertia-partial-except".
Definition PartialComponent : string := "x-inertia-partial-component".
End InertiaHeaders.

(** A zero-argument value-producing function, synchronous or not: what
    calling it and awaiting the result gives. *)
Definition Callback : Type := unit -> outcome data.

(** Modelled from the spec: the module [props.js] that declares the
    wrapper classes is not among the sources. The spec (Prop Variant
    Model) gives four wrappers around a callback: Optional, Deferred with
    a group name, Merge with its merge flag, and Always; an Eager prop is
    a value that is none of them. *)
Inductive PropVariant : Type :=
| OptionalProp (callback : Callback)
| DeferProp (callback : Callback) (group : string)
| MergeProp (callback : Callback) (shouldMerge : bool)
| AlwaysProp (callback : Callback).

(** What a plain function prop may return: data or a wrapper. *)
Inductive result : Type :=
| RData (d : data)
| RProp (p : PropVariant).

(** The value of an entry of [PageProps] or [SharedData]: data, a
    wrapper, a function, or the member [name] of [Object.prototype]. *)
Inductive value : Type :=
| VData (d : data)
| VProp (p : PropVariant)
| VFunction (f : Request -> Response -> outcome result)
| VInherited (name : string).

Definition PageProps : Type := object value.
Definition SharedData : Type := object value.

Module Props.
Definition callback (p : PropVariant) : Callback :=
  match p with
  | OptionalProp cb => cb
  | DeferProp cb _ => cb
  | MergeProp cb _ => cb
  | AlwaysProp cb => cb
  end.

(** Modelled from the spec: [value[ignoreFirstLoadSymbol]], the marker
    carried by the wrappers that are left out of a first load, which
    the spec says are Optional and Deferred. *)
Definition ignoreFirstLoad (v : value) : bool :=
  match v with
  | VProp (OptionalProp _) => true
  | VProp (DeferProp _ _) => true
  | _ => false
  end.

(** [value instanceof AlwaysProp] *)
Definition isAlwaysProp (v : value) : bool :=
  match v with
  | VProp (AlwaysProp _) => true
  | _ => false
  end.

(** [value instanceof DeferProp] *)
Definition isDeferProp (v : value) : bool :=
  match v with
  | VProp (DeferProp _ _) => true
  | _ => false
  end.

(** [(value as DeferProp).getGroup()]; the code calls it on the values
    that passed the [instanceof DeferProp] test only. *)
Definition getGroup (v : value) : string :=
  match v with
  | VProp (DeferProp _ group) => group
  | _ => ""
  end.

(** Modelled from the spec: [value instanceof MergeableProp &&
    value.shouldMerge]; the spec gives the merge flag to the Merge
    variant. *)
Definition shouldMerge (v : value) : bool :=
  match v with
  | VProp (MergeProp _ flag) => flag
  | _ => false
  end.
End Props.

(** [props[key]] as an expression: a key that [props] does not own
    reads the member of [Object.prototype] of that name, or
    [undefined]. *)
Definition read (key : string) (props : PageProps) : value :=
  match obj_read key props with
  | Own v => v
  | Inherited name => VInherited name
  | Missing => VData DUndefined
  end.

Definition undefined_to_object : string :=
  "TypeError: Cannot convert undefined or null to object".

(** [member(request, response)] for a function [member] of
    [Object.prototype], called with no [this]: [toString] names the
    missing receiver, [constructor], which is [Object], returns its first
    argument, and the others throw a [TypeError] when they convert the
    receiver to an object. *)
Definition call_inherited (name : string) (request : Request) : outcome result :=
  if name =? "toString" then Returns (RData (DString "[object Undefined]"))
  else if name =? "constructor" then Returns (RData (req_data request))
  else Throws undefined_to_object.

(* ================================================================== *)
(** ** The page object                                                   *)
(* ================================================================== *)

Record PageObject : Type := mkPageObject {
  ssrHead : option (list string);
  ssrBody : option string;
  component : string;
  url : string;
  version : string;
  props : object data;
  clearHistory : bool;
  encryptHistory : bool;
  mergeProps : option (list string);
  deferredProps : option (object (list string))
}.

Definition optional_field {A : Type} (name : string) (f : A -> data) (o : option A)
  : list (string * data) :=
  match o with
  | Some a => [(name, f a)]
  | None => []
  end.

Definition strings (l : list string) : data := DArray (map DString l).

(** The page object as [JSON.stringify] sees it, fields in the order of
    the object literals that build it. *)
Definition PageObject_data (p : PageObject) : data :=
  DObject
    (optional_field "ssrHead" strings (ssrHead p)
     ++ optional_field "ssrBody" DString (ssrBody p)
     ++ [("component", DString (component p));
         ("url", DString (url p));
         ("version", DString (version p));
         ("props", DObject (props p));
         ("clearHistory", DBool (clearHistory p));
         ("encryptHistory", DBool (encryptHistory p))]
     ++ optional_field "mergeProps" strings (mergeProps p)
     ++ optional_field "deferredProps"
          (fun groups => DObject (map (fun g => (fst g, strings (snd g))) groups))
          (deferredProps p)).

(* ================================================================== *)
(** ** Configuration and collaborators                                   *)
(* ================================================================== *)

(** [string | EntrypointFn] *)
Inductive Entrypoint : Type :=
| EntrypointPath (path : string)
| EntrypointFn (f : Request -> Response -> outcome string).

Record ResolvedConfig : Type := mkConfig {
  rootElementId : string;
  assetsVersion : string;
  cfg_encryptHistory : bool;
  cfg_sharedData : option SharedData;
  indexEntrypoint : Entrypoint;
  indexBuildEntrypoint : Entrypoint;
  ssrEnabled : bool
}.

(** What the class reaches outside the repository's sources: the process
    environment, the file system, the html-entities encoder, the Vite dev
    server and the server renderer. *)
Record Runtime : Type := mkRuntime {
  NODE_ENV : option string;
  readFile : string -> outcome string;
  encode : string -> string;
  transformIndexHtml : option (string -> string -> outcome string);
  serverRender : PageObject -> outcome (list string * string)
}.

(* ================================================================== *)
(** ** The class [Inertia]                                               *)
(* ================================================================== *)

Module Inertia.

(** An instance: the constructor arguments and the private fields. *)
Record t : Type := mk {
  adapter : Adapter;
  config : ResolvedConfig;
  runtime : Runtime;
  sharedData : SharedData;
  shouldClearHistory : bool;
  shouldEncryptHistory : bool
}.

Definition new (adapter : Adapter) (config : ResolvedConfig) (runtime : Runtime) : t :=
  mk adapter config runtime
     (match cfg_sharedData config with Some d => d | None => [] end)
     false
     (cfg_encryptHistory config).

Definition inertiaHeadTag : string := "<!-- @inertiaHead -->".
Definition inertiaBodyTag : string := "<!-- @inertia -->".

(** Check if the current request is a partial request. *)
Definition isPartial (i : t) (component : string) : bool :=
  match getHeader (adapter i) InertiaHeaders.PartialComponent with
  | Some c => c =? component
  | None => false
  end.

Definition split_undefined : string :=
  "TypeError: Cannot read properties of undefined (reading 'split')".

(** Only the props listed in the partial-data header are returned. *)
Definition resolveOnly (i : t) (props : PageProps) : outcome PageProps :=
  match getHeader (adapter i) InertiaHeaders.PartialOnly with
  | None => Throws split_undefined
  | Some partialOnlyHeader =>
      let only := split_filter partialOnlyHeader in
      Returns (fold_left (fun newProps key => obj_assign key (read key props) newProps) only [])
  end.

(** The props listed in the partial-except header are deleted from the
    object that is passed in, which is also the result. *)
Definition resolveExcept (i : t) (props : PageProps) : outcome PageProps :=
  match getHeader (adapter i) InertiaHeaders.PartialExcept with
  | None => Throws split_undefined
  | Some partialExceptHeader =>
      let except := split_filter partialExceptHeader in
      Returns (fold_left (fun props key => obj_delete key props) except props)
  end.

(** The two variables of [pickPropsToResolve]. [let newProps = props]
    makes them two names of one object: [var_newProps = None] is that
    state, and a write through either name is then seen through the
    other; [var_newProps = Some o] is the state after [newProps] was
    assigned a fresh object [o]. *)
Record Vars : Type := mkVars {
  var_props : PageProps;
  var_newProps : option PageProps
}.

Definition get_newProps (s : Vars) : PageProps :=
  match var_newProps s with
  | Some o => o
  | None => var_props s
  end.

(** [newProps = o] for a fresh object [o]. *)
Definition let_newProps (o : PageProps) (s : Vars) : Vars :=
  mkVars (var_props s) (Some o).

(** The object [newProps] refers to is changed in place into [o]. *)
Definition mutate_newProps (o : PageProps) (s : Vars) : Vars :=
  match var_newProps s with
  | Some _ => mkVars (var_props s) (Some o)
  | None => mkVars o None
  end.

(** The body of the loop that puts the [AlwaysProp]s back. *)
Definition keepAlways (s : Vars) (e : string * value) : Vars :=
  let '(key, value) := e in
  if Props.isAlwaysProp value
  then mutate_newProps (obj_assign key (read key (var_props s)) (get_newProps s)) s
  else s.

(** Resolve the props for the current request by filtering out the
    props that are not needed based on the request headers. *)
Definition pickPropsToResolve (i : t) (component : string) (props : PageProps)
  : outcome PageProps :=
  let isPartial := isPartial i component in
  let s := mkVars props None in
  let s :=
    if negb isPartial
    then let_newProps
           (fromEntries (filter (fun e => negb (Props.ignoreFirstLoad (snd e))) (var_props s))) s
    else s in
  let partialOnlyHeader := getHeader (adapter i) InertiaHeaders.PartialOnly in
  s <- (if isPartial && truthy_header partialOnlyHeader
        then o <- resolveOnly i (var_props s) ;; Returns (let_newProps o s)
        else Returns s) ;;
  let partialExceptHeader := getHeader (adapter i) InertiaHeaders.PartialExcept in
  s <- (if isPartial && truthy_header partialExceptHeader
        then o <- resolveExcept i (get_newProps s) ;; Returns (mutate_newProps o s)
        else Returns s) ;;
  let s := fold_left keepAlways (var_props s) s in
  Returns (get_newProps s).

(** Resolve a single prop. *)
Definition resolveProp (key : string) (value : result) : outcome (string * data) :=
  match value with
  | RProp p => d <- Props.callback p tt ;; Returns (key, d)
  | RData d => Returns (key, d)
  end.

(** The body of the [map] of [resolvePageProps]. Of the members of
    [Object.prototype] all are functions but [__proto__], which reads
    the prototype itself, an object without enumerable properties. *)
Definition resolveEntry (i : t) (res : Response) (e : string * value)
  : outcome (string * data) :=
  let '(key, value) := e in
  match value with
  | VFunction f =>
      result <- f (getRequest (adapter i)) res ;;
      resolveProp key result
  | VInherited name =>
      if name =? "__proto__" then resolveProp key (RData (DObject []))
      else
        result <- call_inherited name (getRequest (adapter i)) ;;
        resolveProp key result
  | VData d => resolveProp key (RData d)
  | VProp p => resolveProp key (RProp p)
  end.

(** Resolve the props by calling the callbacks and awaiting the
    promises. *)
Definition resolvePageProps (i : t) (res : Response) (props : PageProps)
  : outcome (object data) :=
  entries <- promise_all (resolveEntry i res) props ;;
  Returns (fromEntries entries).

Definition or_empty (pageProps : option PageProps) : PageProps :=
  match pageProps with
  | Some p => p
  | None => []
  end.

Definition push_not_a_function : string :=
  "TypeError: groups[group].push is not a function".

Definition push_of_undefined : string :=
  "TypeError: Cannot read properties of undefined (reading 'push')".

(** One step of the [reduce] of [resolveDeferredProps]. The accumulator
    starts as [{}]: for a group that has the name of a member of
    [Object.prototype], [groups[group]] reads that member, which is
    truthy and has no [push]. *)
Definition pushGroup (groups : object (list string)) (e : string * string)
  : outcome (object (list string)) :=
  let '(key, group) := e in
  let groups :=
    match obj_read group groups with
    | Missing => obj_assign group [] groups
    | _ => groups
    end in
  match obj_read group groups with
  | Own keys => Returns (obj_assign group (keys ++ [key]) groups)
  | Inherited _ => Throws push_not_a_function
  | Missing => Throws push_of_undefined
  end.

(** The [reduce] from its initial value. *)
Definition reduceGroups (l : list (string * string)) (groups : object (list string))
  : outcome (object (list string)) :=
  fold_left (fun acc e => groups <- acc ;; pushGroup groups e) l (Returns groups).

(** Resolve the deferred props listing: [None] is the empty object
    that adds no field, [Some g] is [{ deferredProps: g }]. *)
Definition resolveDeferredProps (i : t) (component : string) (pageProps : option PageProps)
  : outcome (option (object (list string))) :=
  if isPartial i component then Returns None
  else
    deferredProps <-
      reduceGroups
        (map (fun e => (fst e, Props.getGroup (snd e)))
             (filter (fun e => Props.isDeferProp (snd e)) (or_empty pageProps)))
        [] ;;
    Returns (if (length (obj_keys deferredProps) =? 0)%nat then None else Some deferredProps).

(** Resolve the props that should be merged: [None] adds no field,
    [Some l] is [{ mergeProps: l }]. *)
Definition resolveMergeProps (i : t) (pageProps : option PageProps) : option (list string) :=
  let inertiaResetHeader := or_default (getHeader (adapter i) InertiaHeaders.Reset) "" in
  let resetProps := split_filter inertiaResetHeader in
  let mergeProps :=
    filter (fun key => negb (set_has resetProps key))
      (map fst (filter (fun e => Props.shouldMerge (snd e)) (or_empty pageProps))) in
  if (length mergeProps =? 0)%nat then None else Some mergeProps.

(** Build the page object that will be returned to the client. The
    fields of the object literal are evaluated in their order: the props
    are resolved before the two listings are computed. *)
Definition buildPageObject (i : t) (res : Response) (component : string)
           (pageProps : option PageProps) : outcome PageObject :=
  propsToResolve <-
    pickPropsToResolve i component (spread (sharedData i) (or_empty pageProps)) ;;
  props <- resolvePageProps i res propsToResolve ;;
  let mergeProps := resolveMergeProps i pageProps in
  deferredProps <- resolveDeferredProps i component pageProps ;;
  Returns (mkPageObject None None
             component
             (or_else (getUrl (adapter i)) "/")
             (assetsVersion (config i))
             props
             (shouldClearHistory i)
             (shouldEncryptHistory i)
             mergeProps
             deferredProps).

Definition shouldRenderOnServer (i : t) (_component : string) : bool :=
  ssrEnabled (config i).

(** Resolve the root view. *)
Definition resolveRootView (i : t) (res : Response) : outcome string :=
  let entrypoint :=
    match NODE_ENV (runtime i) with
    | Some env => if env =? "production" then indexBuildEntrypoint (config i)
                  else indexEntrypoint (config i)
    | None => indexEntrypoint (config i)
    end in
  match entrypoint with
  | EntrypointFn f => f (getRequest (adapter i)) res
  | EntrypointPath path => readFile (runtime i) path
  end.

(** Share data for the current request. *)
Definition share (i : t) (data : SharedData) : t :=
  mk (adapter i) (config i) (runtime i) (spread (sharedData i) data)
     (shouldClearHistory i) (shouldEncryptHistory i).

(** Resolve the index page. *)
Definition resolveLayout (i : t) (res : Response) : outcome string :=
  template <- resolveRootView i res ;;
  match transformIndexHtml (runtime i) with
  | Some transform => transform (or_else (getUrl (adapter i)) "/") template
  | None => Returns template
  end.

Definition truthy_option (o : option string) : bool :=
  match o with
  | Some s => truthy_string s
  | None => false
  end.

(** Render the html response. *)
Definition renderView (i : t) (pageObject : PageObject) : M unit :=
  template <~ lift (resolveLayout i) ;;
  if truthy_option (ssrBody pageObject) then
    let head :=
      match ssrHead pageObject with
      | Some fragments => or_else (String.concat (String (ascii_of_nat 10) "") fragments) ""
      | None => ""
      end in
    let html_ :=
      replace inertiaBodyTag (or_default (ssrBody pageObject) "")
              (replace inertiaHeadTag head template) in
    html (adapter i) html_
  else
    let id := or_else (rootElementId (config i)) "app" in
    text <~ lift (fun _ => stringify (PageObject_data pageObject)) ;;
    let dataPage := encode (runtime i) (match text with Some s => s | None => "undefined" end) in
    let html_ :=
      replace inertiaBodyTag
              ("<div id=" ++ String dquote "" ++ id ++ String dquote ""
                 ++ " data-page=" ++ String dquote "" ++ dataPage ++ String dquote ""
                 ++ "></div>")%string
              (replace inertiaHeadTag "" template) in
    html (adapter i) html_.

(** Render the page on the server. *)
Definition renderOnServer (i : t) (pageObject : PageObject) : M unit :=
  rendered <~ lift (fun _ => serverRender (runtime i) pageObject) ;;
  let '(head, body) := rendered in
  renderView i
    (mkPageObject
       (match ssrHead pageObject with Some h => Some h | None => Some head end)
       (match ssrBody pageObject with Some b => Some b | None => Some body end)
       (component pageObject) (url pageObject) (version pageObject) (props pageObject)
       (clearHistory pageObject) (encryptHistory pageObject)
       (mergeProps pageObject) (deferredProps pageObject)).

(** Render a page using Inertia. *)
Definition render (i : t) (component : string) (pageProps : option PageProps) : M unit :=
  pageObject <~ lift (fun res => buildPageObject i res component pageProps) ;;
  let isInertiaRequest := truthy_header (getHeader (adapter i) InertiaHeaders.Inertia) in
  if negb isInertiaRequest then
    if shouldRenderOnServer i component
    then renderOnServer i pageObject
    else renderView i pageObject
  else
    setHeader (adapter i) InertiaHeaders.Inertia "true" ;;;
    json (adapter i) (PageObject_data pageObject).

(** Clear history state. *)
Definition clearHistory (i : t) : t :=
  mk (adapter i) (config i) (runtime i) (sharedData i) true (shouldEncryptHistory i).

(** Encrypt history. *)
Definition encryptHistory (i : t) (encrypt : bool) : t :=
  mk (adapter i) (config i) (runtime i) (sharedData i) (shouldClearHistory i) encrypt.

Definition lazy (callback : Callback) : value := VProp (OptionalProp callback).
Definition optional (callback : Callback) : value := VProp (OptionalProp callback).
Definition merge (callback : Callback) : value := VProp (MergeProp callback true).
Definition always (callback : Callback) : value := VProp (AlwaysProp callback).
Definition defer (callback : Callback) (group : option string) : value :=
  VProp (DeferProp callback (match group with Some g => g | None => "default" end)).

(** Redirect to an external website or a non-inertia route. *)
Definition location (i : t) (url : string) : M unit :=
  let url := encodeURI url in
  setHeader (adapter i) InertiaHeaders.Location url ;;;
  setStatus (adapter i) 409.

Definition url_required : string := "Error: Redirect URL is required".

Definition redirect (i : t) (statusOrUrl : StatusOrUrl) (url : option string) : M unit :=
  let '(status, location) :=
    match statusOrUrl with
    | Status n => (n, match url with Some u => u | None => "" end)
    | Url u => (302%Z, u)
    end in
  if negb (truthy_string location) then throw url_required
  else
    let method := or_else (getMethod (adapter i)) "HEAD" in
    let status :=
      if (status =? 302)%Z && existsb (String.eqb method) ["PUT"; "PATCH"; "DELETE"]
      then 303%Z else status in
    setHeader (adapter i) "Vary" InertiaHeaders.Inertia ;;;
    redirect (adapter i) (Status status) (Some location).

End Inertia.

(* ================================================================== *)
(** ** Sample requests and pages                                         *)
(* ================================================================== *)

Module Samples.
Definition config : ResolvedConfig :=
  mkConfig "app" "1" false None
           (EntrypointPath "index.html") (EntrypointPath "build/index.html") false.

Definition layout : string := "<html><!-- @inertiaHead --><!-- @inertia --></html>".

Definition runtime : Runtime :=
  mkRuntime None (fun _ => Returns layout) (fun s => s) None (fun _ => Returns ([], "")).

(** An [IncomingMessage] as [JSON.stringify] meets it: the message
    holds its socket, whose parser holds the socket again. *)
Definition incoming : data :=
  DObject [("socket", DObject [("parser", DObject [("socket", DCircular)])])].

Definition request (method : string) (headers : object string) : Request :=
  mkRequest (Some method) (Some "/home") headers incoming.

(** An instance serving one request through [HttpAdapter]. *)
Definition inertia (method : string) (headers : object string) : Inertia.t :=
  Inertia.new (HttpAdapter.new (request method headers)) config runtime.

Definition response : Response := mkResponse 200 [] None false.

Definition returns (d : data) : Callback := fun _ => Returns d.

Definition shared : SharedData :=
  [("theme", VData (DString "light")); ("user", Inertia.always (returns (DString "ada")))].

(** One prop of each kind, [theme] colliding with the shared data. *)
Definition home : PageProps :=
  [("title", VData (DString "Home"));
   ("theme", VData (DString "dark"));
   ("visits", VFunction (fun _ _ => Returns (RData (DNumber 3))));
   ("lazy", Inertia.optional (returns (DNumber 1)));
   ("stats", Inertia.defer (returns (DNumber 2)) None);
   ("feed", Inertia.merge (returns (DArray [])));
   ("now", Inertia.always (returns (DNumber 0)))].

Definition first_visit : Inertia.t :=
  Inertia.share (inertia "GET" []) shared.

(** A protocol request that is not a partial reload. *)
Definition protocol_visit : Inertia.t :=
  inertia "GET" [("x-inertia", "true")].

Definition partial_reload (only except : option string) : Inertia.t :=
  Inertia.share
    (inertia "GET"
       ([("x-inertia", "true"); ("x-inertia-partial-component", "Home")]
        ++ match only with Some h => [("x-inertia-partial-data", h)] | None => [] end
        ++ match except with Some h => [("x-inertia-partial-except", h)] | None => [] end))
    shared.

(** A partial reload that names another component than the one that
    is rendered. *)
Definition stale_reload : Inertia.t :=
  Inertia.share
    (inertia "GET"
       [("x-inertia", "true"); ("x-inertia-partial-component", "Dashboard");
        ("x-inertia-partial-data", "lazy"); ("x-inertia-partial-except", "title")])
    shared.

Definition ab : PageProps := [("a", VData (DNumber 1)); ("b", VData (DNumber 2))].

Definition deferred : PageProps :=
  [("x", Inertia.defer (returns DNull) (Some "g1"));
   ("y", Inertia.defer (returns DNull) (Some "g1"));
   ("z", Inertia.defer (returns DNull) (Some "g2"))].

Definition merged_m : PageProps := [("m", Inertia.merge (returns (DArray [])))].

(** [{ self: o }] where [o.me = o]. *)
Definition circular : PageProps := [("self", VData (DObject [("me", DCircular)]))].
End Samples.

(* ================================================================== *)
(** ** Flash messages                                                    *)
(* ================================================================== *)

(** The store is a plain object of messages. The messages are data; an
    object or [null] stored under the name [__proto__] would replace the
    prototype of the store, which the model does not track. *)
Definition FlashStore : Type := object data.

(** What a read of the store gives: data ([undefined] for a missing
    message) or the member [name] of [Object.prototype]. *)
Inductive FlashValue : Type :=
| Plain (d : data)
| Member (name : string).

(** A session as [Flash] sees it: the [flash] store, which may be
    missing, and the other keys of the session. *)
Record FlashSession : Type := mkFlashSession {
  flash : option FlashStore;
  session_keys : object data
}.

(** A request as [Flash] sees it: its session, which may be missing,
    and whether a [Flash] was attached to it as [req.flash]. *)
Record FlashRequest : Type := mkFlashRequest {
  session : option FlashSession;
  flash_attached : bool
}.

Module Flash.
Definition requires_session : string :=
  "Error: Flash requires a session object on the request.".
Definition middleware_requires_session : string :=
  "Error: Flash middleware requires a session object on the request.".
Definition not_initialized : string := "Error: Session not initialized.".

(** [if (!session.flash) session.flash = {}] *)
Definition ensureStore (s : FlashSession) : FlashSession :=
  match flash s with
  | Some _ => s
  | None => mkFlashSession (Some []) (session_keys s)
  end.

Definition setStore (store : FlashStore) (req : FlashRequest) : FlashRequest :=
  match session req with
  | Some s => mkFlashRequest (Some (mkFlashSession (Some store) (session_keys s)))
                             (flash_attached req)
  | None => req
  end.

(** [new Flash(req)]: the request after the constructor ran. *)
Definition new (req : FlashRequest) : outcome FlashRequest :=
  match session req with
  | None => Throws requires_session
  | Some s => Returns (mkFlashRequest (Some (ensureStore s)) (flash_attached req))
  end.

(** [Flash.middleware(req, res, next)] *)
Definition middleware {A : Type} (req : FlashRequest)
           (next : FlashRequest -> outcome A) : outcome A :=
  match session req with
  | None => Throws middleware_requires_session
  | Some s =>
      req <- new (mkFlashRequest (Some (ensureStore s)) (flash_attached req)) ;;
      next (mkFlashRequest (session req) true)
  end.

(** [store[key]] *)
Definition lookup (key : string) (store : FlashStore) : FlashValue :=
  match obj_read key store with
  | Own v => Plain v
  | Inherited name => Member name
  | Missing => Plain DUndefined
  end.

(** [get(key)]: the value and the request after the call. *)
Definition get (key : string) (req : FlashRequest) : FlashValue * FlashRequest :=
  match session req with
  | Some s =>
      match flash s with
      | Some store => (lookup key store, setStore (obj_delete key store) req)
      | None => (Plain DUndefined, req)
      end
  | None => (Plain DUndefined, req)
  end.

(** [set(key, value)]: the request after the call; the result [this]
    is the same [Flash]. *)
Definition set (key : string) (value : data) (req : FlashRequest) : outcome FlashRequest :=
  match session req with
  | None => Throws not_initialized
  | Some s =>
      match flash (ensureStore s) with
      | Some store => Returns (setStore (obj_assign key value store) req)
      | None => Returns req
      end
  end.

(** [has(key)] *)
Definition has (key : string) (req : FlashRequest) : bool :=
  match session req with
  | Some s =>
      match flash s with
      | Some store => obj_has key store
      | None => false
      end
  | None => false
  end.

(** [all()]: the messages and the request after the call. *)
Definition all (req : FlashRequest) : FlashStore * FlashRequest :=
  let messages :=
    match session req with
    | Some s => match flash s with Some store => fromEntries store | None => [] end
    | None => []
    end in
  (messages, setStore [] req).

(** [clear()] *)
Definition clear (req : FlashRequest) : FlashRequest := setStore [] req.

(** [peek(key)] *)
Definition peek (key : string) (req : FlashRequest) : FlashValue :=
  match session req with
  | Some s =>
      match flash s with
      | Some store => lookup key store
      | None => Plain DUndefined
      end
  | None => Plain DUndefined
  end.
End Flash.

(* ================================================================== *)
(** ** More sample requests                                              *)
(* ================================================================== *)

Module MoreSamples.
Definition failing : Callback := fun _ => Throws "Error: database is down".

(** A function prop that returns an [OptionalProp]. *)
Definition wrapped_optional : PageProps :=
  [("late", VFunction (fun _ _ =>
                         Returns (RProp (OptionalProp (Samples.returns (DNumber 7))))))].

Definition broken : PageProps :=
  [("title", VData (DString "Home")); ("rows", Inertia.always failing)].

Definition shared_deferred : SharedData :=
  [("counts", Inertia.defer (Samples.returns (DNumber 9)) None)].


(** Props with a key that is an array index. *)
Definition numbered : PageProps :=
  [("title", VData (DString "Home")); ("10", VData (DString "ten"));
   ("9", VData (DString "nine"))].

Definition session_with (store : FlashStore) : FlashRequest :=
  mkFlashRequest (Some (mkFlashSession (Some store) [("user", DString "ada")])) false.

Definition no_session : FlashRequest := mkFlashRequest None false.

Definition bare_layout : string := "<html><body>nothing to fill</body></html>".

Definition runtime_with (layout : string) (ssr : list string * string) : Runtime :=
  mkRuntime None (fun _ => Returns layout) (fun s => s) None (fun _ => Returns ssr).

Definition config_ssr (ssr : bool) : ResolvedConfig :=
  mkConfig "" "1" false None
           (EntrypointPath "index.html") (EntrypointPath "build/index.html") ssr.

(** An instance whose layout and server renderer are given. *)
Definition visit (headers : object string) (ssr : bool) (layout : string)
           (rendered : list string * string) : Inertia.t :=
  Inertia.new (HttpAdapter.new (Samples.request "GET" headers))
              (config_ssr ssr) (runtime_with layout rendered).
End MoreSamples.

(* ================================================================== *)
(** * Properties                                                         *)
(* ================================================================== *)

(** ** Strings *)

Lemma split_not_nil (sep : ascii) (s : string) : split sep s <> [].
Proof.
  destruct s as [|c s]; simpl; [discriminate|].
  destruct (Ascii.eqb c sep); [discriminate|].
  destruct (split sep s); discriminate.
Qed.

(** Joining the pieces with the separator gives the string back. *)
Lemma concat_split (sep : ascii) (s : string) :
  String.concat (String sep "") (split sep s) = s.
Proof.
  induction s as [|c s IH]; [reflexivity|].
  cbn [split]. destruct (Ascii.eqb_spec c sep) as [->|Hne].
  - pose proof (split_not_nil sep s) as Hnil.
    destruct (split sep s) as [|tok rest]; [congruence|].
    change (String.concat (String sep "") ("" :: tok :: rest))
      with (String sep (String.concat (String sep "") (tok :: rest))).
    now rewrite IH.
  - destruct (split sep s) as [|tok rest] eqn:Hs.
    + exfalso. exact (split_not_nil sep s Hs).
    + destruct rest as [|tok' rest]; simpl in *; now rewrite IH.
Qed.

(** No piece contains the separator. *)
Lemma split_no_separator (sep : ascii) (s tok : string) :
  In tok (split sep s) -> includes (String sep "") tok = false.
Proof.
  revert tok. induction s as [|c s IH]; intros tok; cbn [split].
  - intros [<-|[]]. reflexivity.
  - destruct (Ascii.eqb_spec c sep) as [->|Hne].
    + intros [<-|H]; [reflexivity | now apply IH].
    + destruct (split sep s) as [|tok' rest] eqn:Hs.
      * exfalso. exact (split_not_nil sep s Hs).
      * intros [<-|H].
        -- cbn [includes prefix].
           destruct (ascii_dec sep c) as [E|E]; [congruence|]. apply IH. now left.
        -- apply IH. now right.
Qed.


(** ** Objects *)

Lemma key_before_irrefl (k : string) : key_before k k = false.
Proof.
  unfold key_before. destruct (array_index k); [apply N.ltb_irrefl | reflexivity].
Qed.

Lemma key_before_asym (k k' : string) : key_before k k' = true -> key_before k' k = false.
Proof.
  unfold key_before. destruct (array_index k), (array_index k'); try discriminate; auto.
  rewrite N.ltb_lt, N.ltb_ge. lia.
Qed.

(** A key that does not precede [e] does not precede what precedes
    [e]. *)
Lemma key_before_later (k e y : string) :
  key_before k e = true -> key_before y e = false -> key_before y k = false.
Proof.
  unfold key_before.
  destruct (array_index k), (array_index e), (array_index y); try discriminate; auto.
  rewrite N.ltb_lt, !N.ltb_ge. lia.
Qed.

Lemma key_before_not_index (k k' : string) : array_index k = None -> key_before k k' = false.
Proof. unfold key_before. now intros ->. Qed.

Section ObjectFacts.
Context {V : Type}.
Implicit Types (o : list (string * V)) (k : string) (v : V).

Lemma obj_get_In k v o : obj_get k o = Some v -> In (k, v) o.
Proof.
  induction o as [|[k' v'] o IH]; simpl; [discriminate|].
  destruct (String.eqb_spec k' k) as [->|_].
  - intros [= ->]. now left.
  - intros H. right. auto.
Qed.

Lemma obj_get_None k o : obj_get k o = None <-> ~ In k (obj_keys o).
Proof.
  induction o as [|[k' v'] o IH]; simpl.
  - tauto.
  - destruct (String.eqb_spec k' k) as [->|Hne].
    + split; [discriminate | intros H; exfalso; apply H; now left].
    + rewrite IH. tauto.
Qed.

Lemma obj_get_Some_key k v o : obj_get k o = Some v -> In k (obj_keys o).
Proof.
  intros H. apply obj_get_In in H. apply (in_map fst) in H. exact H.
Qed.

Lemma obj_has_In k o : obj_has k o = true <-> In k (obj_keys o).
Proof.
  unfold obj_has. destruct (obj_get k o) eqn:E.
  - split; [intros _; eapply obj_get_Some_key; eauto | reflexivity].
  - apply obj_get_None in E. split; [discriminate | tauto].
Qed.

Lemma obj_has_false k o : obj_has k o = false <-> ~ In k (obj_keys o).
Proof.
  rewrite <- obj_has_In. destruct (obj_has k o); split; congruence.
Qed.

Lemma In_obj_get k v o : NoDup (obj_keys o) -> In (k, v) o -> obj_get k o = Some v.
Proof.
  induction o as [|[k' v'] o IH]; simpl; [tauto|].
  intros Hnd [H|H].
  - inversion H; subst. now rewrite String.eqb_refl.
  - inversion Hnd as [|? ? Hnotin Hnd']; subst.
    destruct (String.eqb_spec k' k) as [->|_].
    + exfalso. apply Hnotin. apply (in_map fst) in H. exact H.
    + auto.
Qed.

(** *** Replacing and creating a property *)

Lemma obj_keys_replace k v o : obj_keys (obj_replace k v o) = obj_keys o.
Proof.
  induction o as [|[k' v'] o IH]; simpl; [reflexivity|].
  destruct (k' =? k); simpl; [reflexivity | now rewrite IH].
Qed.

Lemma obj_get_replace k k' v o :
  obj_get k' (obj_replace k v o) =
    if (k =? k') && obj_has k o then Some v else obj_get k' o.
Proof.
  unfold obj_has. induction o as [|[k0 v0] o IH]; simpl.
  - now rewrite andb_false_r.
  - destruct (String.eqb_spec k0 k) as [->|Hne]; simpl.
    + rewrite andb_true_r. now destruct (k =? k').
    + rewrite IH. destruct (String.eqb_spec k k') as [->|Hne']; simpl; [|reflexivity].
      destruct (String.eqb_spec k0 k'); [congruence | reflexivity].
Qed.

Lemma obj_get_insert k k' v o :
  obj_get k o = None ->
  obj_get k' (obj_insert k v o) = if k =? k' then Some v else obj_get k' o.
Proof.
  induction o as [|[k0 v0] o IH]; simpl; [reflexivity|].
  destruct (String.eqb_spec k0 k) as [->|Hne]; [discriminate|]. intros Hk.
  destruct (key_before k k0); simpl; [reflexivity|].
  rewrite (IH Hk).
  destruct (String.eqb_spec k0 k') as [->|Hne']; [|reflexivity].
  destruct (String.eqb_spec k k'); [congruence | reflexivity].
Qed.

Lemma obj_keys_insert k k' v o :
  In k' (obj_keys (obj_insert k v o)) <-> k' = k \/ In k' (obj_keys o).
Proof.
  induction o as [|[k0 v0] o IH]; simpl.
  - intuition.
  - destruct (key_before k k0); simpl.
    + intuition.
    + rewrite IH. intuition.
Qed.

Lemma obj_get_set_eq k v o : obj_get k (obj_set k v o) = Some v.
Proof.
  unfold obj_set. destruct (obj_has k o) eqn:Hh.
  - now rewrite obj_get_replace, String.eqb_refl, Hh.
  - rewrite obj_get_insert, String.eqb_refl; [reflexivity|].
    unfold obj_has in Hh. now destruct (obj_get k o).
Qed.

Lemma obj_get_set_neq k k' v o :
  k <> k' -> obj_get k' (obj_set k v o) = obj_get k' o.
Proof.
  intros Hne. apply String.eqb_neq in Hne. unfold obj_set.
  destruct (obj_has k o) eqn:Hh.
  - now rewrite obj_get_replace, Hne.
  - rewrite obj_get_insert, Hne; [reflexivity|].
    unfold obj_has in Hh. now destruct (obj_get k o).
Qed.

Lemma obj_keys_set k k' v o :
  In k' (obj_keys (obj_set k v o)) <-> k' = k \/ In k' (obj_keys o).
Proof.
  unfold obj_set. destruct (obj_has k o) eqn:Hh.
  - rewrite obj_keys_replace. apply obj_has_In in Hh. intuition (subst; auto).
  - apply obj_keys_insert.
Qed.

Lemma obj_insert_last k v o :
  Forall (fun e => key_before k (fst e) = false) o -> obj_insert k v o = o ++ [(k, v)].
Proof.
  induction 1 as [|[k0 v0] o Hk _ IH]; simpl; [reflexivity|].
  simpl in Hk. now rewrite Hk, IH.
Qed.

(** A new key that is not an array index is listed last. *)
Lemma obj_set_fresh k v o :
  ~ In k (obj_keys o) -> array_index k = None -> obj_set k v o = o ++ [(k, v)].
Proof.
  intros Hk Hi. apply obj_has_false in Hk. unfold obj_set. rewrite Hk.
  apply obj_insert_last, Forall_forall. intros e _. now apply key_before_not_index.
Qed.

Lemma obj_replace_same k v o : obj_get k o = Some v -> obj_replace k v o = o.
Proof.
  induction o as [|[k0 v0] o IH]; simpl; [discriminate|].
  destruct (String.eqb_spec k0 k) as [->|Hne].
  - now intros [= ->].
  - intros H. now rewrite IH.
Qed.

Lemma obj_set_same k v o : obj_get k o = Some v -> obj_set k v o = o.
Proof.
  intros H. unfold obj_set, obj_has. rewrite H. now apply obj_replace_same.
Qed.

Lemma obj_insert_NoDup k v o :
  ~ In k (obj_keys o) -> NoDup (obj_keys o) -> NoDup (obj_keys (obj_insert k v o)).
Proof.
  induction o as [|[k0 v0] o IH]; simpl; intros Hk Hnd.
  - constructor; [tauto | constructor].
  - destruct (key_before k k0); simpl.
    + constructor; [exact Hk | exact Hnd].
    + inversion Hnd as [|? ? Hnotin Hnd']; subst.
      constructor; [| apply IH; tauto].
      change (~ In k0 (obj_keys (obj_insert k v o))).
      rewrite obj_keys_insert. intros [H|H]; [subst; tauto | exact (Hnotin H)].
Qed.

Lemma obj_set_NoDup k v o : NoDup (obj_keys o) -> NoDup (obj_keys (obj_set k v o)).
Proof.
  intros Hnd. unfold obj_set. destruct (obj_has k o) eqn:Hh.
  - now rewrite obj_keys_replace.
  - apply obj_insert_NoDup; [now apply obj_has_false | exact Hnd].
Qed.

(** *** The order of the entries *)

Lemma ordered_nil : ordered (@nil (string * V)).
Proof. constructor. Qed.

Lemma obj_insert_ordered k v o : ordered o -> ordered (obj_insert k v o).
Proof.
  unfold ordered. induction o as [|[k0 v0] o IH]; simpl; intros Ho.
  - repeat constructor.
  - inversion Ho as [|? ? Ho' Hall]; subst.
    destruct (key_before k k0) eqn:Hb; simpl.
    + constructor; [exact Ho|]. constructor.
      * now apply key_before_asym.
      * rewrite Forall_forall in *. intros y Hy.
        apply (key_before_later _ _ _ Hb). now apply Hall.
    + constructor; [now apply IH|].
      rewrite Forall_forall in *. intros y Hy.
      change (In y (obj_keys (obj_insert k v o))) in Hy.
      apply obj_keys_insert in Hy. destruct Hy as [->|Hy]; [exact Hb | now apply Hall].
Qed.

Lemma obj_set_ordered k v o : ordered o -> ordered (obj_set k v o).
Proof.
  intros Ho. unfold obj_set. destruct (obj_has k o).
  - unfold ordered. now rewrite obj_keys_replace.
  - now apply obj_insert_ordered.
Qed.

Lemma filter_ordered (f : string * V -> bool) o : ordered o -> ordered (filter f o).
Proof.
  unfold ordered. induction o as [|[k0 v0] o IH]; simpl; intros Ho; [constructor|].
  inversion Ho as [|? ? Ho' Hall]; subst.
  destruct (f (k0, v0)); simpl; [| now apply IH].
  constructor; [now apply IH|].
  rewrite Forall_forall in *. intros y Hy. apply Hall.
  unfold obj_keys in Hy. apply in_map_iff in Hy. destruct Hy as [[k1 v1] [Hk Hy]].
  simpl in Hk. subst k1. apply filter_In in Hy. destruct Hy as [Hy _].
  apply (in_map fst) in Hy. exact Hy.
Qed.

Lemma obj_delete_ordered k o : ordered o -> ordered (obj_delete k o).
Proof. apply filter_ordered. Qed.

(** In an ordered list an entry precedes no entry that is listed
    before it. *)
Lemma ordered_app_before o (e : string * V) (es : list (string * V)) :
  ordered (o ++ e :: es) -> Forall (fun y => key_before (fst e) (fst y) = false) o.
Proof.
  unfold ordered. induction o as [|[k0 v0] o IH]; simpl; intros Ho; [constructor|].
  inversion Ho as [|? ? Ho' Hall]; subst.
  constructor; [| now apply IH].
  rewrite Forall_forall in Hall. simpl. apply Hall.
  unfold obj_keys. rewrite map_app. apply in_or_app. right. now left.
Qed.

(** *** Spreading and [Object.fromEntries] *)

Lemma fold_assign_NoDup (es : list (string * V)) o :
  NoDup (obj_keys o) -> NoDup (obj_keys (fold_left assign es o)).
Proof.
  revert o. induction es as [|e es IH]; simpl; intros o Hnd; [exact Hnd|].
  apply IH. now apply obj_set_NoDup.
Qed.

Lemma fold_assign_ordered (es : list (string * V)) o :
  ordered o -> ordered (fold_left assign es o).
Proof.
  revert o. induction es as [|e es IH]; simpl; intros o Ho; [exact Ho|].
  apply IH. now apply obj_set_ordered.
Qed.

Lemma fold_assign_fresh (es : list (string * V)) o :
  NoDup (obj_keys (o ++ es)) -> ordered (o ++ es) -> fold_left assign es o = o ++ es.
Proof.
  revert o. induction es as [|[k v] es IH]; simpl; intros o Hnd Ho.
  - now rewrite app_nil_r.
  - unfold assign at 2; simpl.
    assert (Hfresh : obj_has k o = false).
    { apply obj_has_false. unfold obj_keys in *. rewrite map_app in Hnd. simpl in Hnd.
      apply NoDup_remove_2 in Hnd. intros H. apply Hnd.
      apply in_or_app. now left. }
    unfold obj_set. rewrite Hfresh.
    rewrite (obj_insert_last _ _ (ordered_app_before _ _ _ Ho)).
    rewrite IH; rewrite <- app_assoc; simpl; [reflexivity | exact Hnd | exact Ho].
Qed.

(** The entries of an object make the same object again. *)
Lemma fromEntries_NoDup (es : list (string * V)) :
  NoDup (obj_keys es) -> ordered es -> fromEntries es = es.
Proof. intros H Ho. unfold fromEntries. now rewrite fold_assign_fresh. Qed.

Lemma fold_assign_get (es : list (string * V)) o k :
  NoDup (obj_keys es) ->
  obj_get k (fold_left assign es o) =
    match obj_get k es with
    | Some v => Some v
    | None => obj_get k o
    end.
Proof.
  revert o. induction es as [|[k0 v0] es IH]; simpl; intros o Hnd; [reflexivity|].
  inversion Hnd as [|? ? Hnotin Hnd']; subst.
  rewrite IH by exact Hnd'. unfold assign; simpl.
  destruct (String.eqb_spec k0 k) as [->|Hne].
  - apply obj_get_None in Hnotin. rewrite Hnotin. apply obj_get_set_eq.
  - destruct (obj_get k es); [reflexivity|]. now apply obj_get_set_neq.
Qed.

Lemma fromEntries_get (es : list (string * V)) k :
  NoDup (obj_keys es) -> obj_get k (fromEntries es) = obj_get k es.
Proof.
  intros Hnd. unfold fromEntries. rewrite fold_assign_get by exact Hnd.
  now destruct (obj_get k es).
Qed.

Lemma spread_NoDup (a b : list (string * V)) : NoDup (obj_keys (spread a b)).
Proof.
  unfold spread. apply fold_assign_NoDup, fold_assign_NoDup. constructor.
Qed.

Lemma spread_ordered (a b : list (string * V)) : ordered (spread a b).
Proof.
  unfold spread. apply fold_assign_ordered, fold_assign_ordered, ordered_nil.
Qed.

(** Per-call entries shadow the entries they are spread over. *)
Lemma spread_get (a b : list (string * V)) k :
  NoDup (obj_keys a) -> NoDup (obj_keys b) ->
  obj_get k (spread a b) =
    match obj_get k b with
    | Some v => Some v
    | None => obj_get k a
    end.
Proof.
  intros Ha Hb. unfold spread.
  rewrite fold_assign_get by exact Hb.
  destruct (obj_get k b); [reflexivity|].
  rewrite fold_assign_get by exact Ha.
  now destruct (obj_get k a).
Qed.

(** *** Assignment *)

Lemma obj_assign_get k k' v o :
  obj_get k' (obj_assign k v o) =
    if (k =? k') && (negb (k =? "__proto__") || obj_has k o) then Some v
    else obj_get k' o.
Proof.
  unfold obj_assign.
  destruct (k =? "__proto__"), (obj_has k o) eqn:Hh; cbn [negb andb orb];
    rewrite ?andb_true_r, ?andb_false_r; try reflexivity;
    destruct (String.eqb_spec k k') as [->|Hne];
    auto using obj_get_set_eq, obj_get_set_neq.
Qed.

Lemma obj_assign_same k v o : obj_get k o = Some v -> obj_assign k v o = o.
Proof.
  intros H. unfold obj_assign, obj_has. rewrite H, andb_false_r. now apply obj_set_same.
Qed.

Lemma obj_assign_NoDup k v o : NoDup (obj_keys o) -> NoDup (obj_keys (obj_assign k v o)).
Proof.
  intros H. unfold obj_assign. destruct (_ && _); [exact H | now apply obj_set_NoDup].
Qed.

Lemma obj_assign_ordered k v o : ordered o -> ordered (obj_assign k v o).
Proof.
  intros H. unfold obj_assign. destruct (_ && _); [exact H | now apply obj_set_ordered].
Qed.

(** An assignment does not create an own [__proto__]. *)
Lemma obj_assign_proto k v o :
  obj_get "__proto__" (obj_assign k v o) = None <-> obj_get "__proto__" o = None.
Proof.
  rewrite obj_assign_get. unfold obj_has.
  destruct (String.eqb_spec k "__proto__") as [->|Hne]; cbn [negb andb orb].
  - destruct (obj_get "__proto__" o); split; congruence.
  - reflexivity.
Qed.

Lemma obj_get_delete k k' o :
  obj_get k' (obj_delete k o) = if k =? k' then None else obj_get k' o.
Proof.
  induction o as [|[k0 v0] o IH]; simpl.
  - now destruct (k =? k').
  - destruct (String.eqb_spec k0 k) as [->|Hne]; simpl.
    + rewrite IH. destruct (String.eqb_spec k k'); reflexivity.
    + rewrite IH. destruct (String.eqb_spec k0 k') as [->|Hne'].
      * destruct (String.eqb_spec k k'); [congruence | reflexivity].
      * reflexivity.
Qed.

Lemma obj_delete_NoDup k o : NoDup (obj_keys o) -> NoDup (obj_keys (obj_delete k o)).
Proof.
  induction o as [|[k0 v0] o IH]; simpl; intros Hnd; [constructor|].
  inversion Hnd as [|? ? Hnotin Hnd']; subst.
  destruct (negb (k0 =? k)); simpl; [| now apply IH].
  constructor; [| now apply IH].
  intros H. apply Hnotin. unfold obj_keys, obj_delete in H.
  apply in_map_iff in H. destruct H as [[k1 v1] [Hk H]]. simpl in Hk. subst k1.
  apply filter_In in H. destruct H as [H _]. apply (in_map fst) in H. exact H.
Qed.

(** Filtering on the value, for an object with one entry per key. *)
Lemma obj_get_filter (f : V -> bool) k o :
  NoDup (obj_keys o) ->
  obj_get k (filter (fun e => f (snd e)) o) =
    match obj_get k o with
    | Some v => if f v then Some v else None
    | None => None
    end.
Proof.
  induction o as [|[k0 v0] o IH]; simpl; intros Hnd; [reflexivity|].
  inversion Hnd as [|? ? Hnotin Hnd']; subst.
  destruct (String.eqb_spec k0 k) as [->|Hne].
  - destruct (f v0) eqn:Ef; simpl.
    + now rewrite String.eqb_refl.
    + rewrite IH by exact Hnd'. apply obj_get_None in Hnotin. now rewrite Hnotin.
  - destruct (f v0); simpl; [|now apply IH].
    apply String.eqb_neq in Hne. rewrite Hne. now apply IH.
Qed.

Lemma filter_NoDup_keys (f : string * V -> bool) o :
  NoDup (obj_keys o) -> NoDup (obj_keys (filter f o)).
Proof.
  induction o as [|[k0 v0] o IH]; simpl; intros Hnd; [constructor|].
  inversion Hnd as [|? ? Hnotin Hnd']; subst.
  destruct (f (k0, v0)); simpl; [| now apply IH].
  constructor; [| now apply IH].
  intros H. apply Hnotin. unfold obj_keys in H.
  apply in_map_iff in H. destruct H as [[k1 v1] [Hk H]]. simpl in Hk. subst k1.
  apply filter_In in H. destruct H as [H _]. apply (in_map fst) in H. exact H.
Qed.
End ObjectFacts.

Lemma set_has_In (keys : list string) (key : string) :
  set_has keys key = true <-> In key keys.
Proof.
  unfold set_has. rewrite existsb_exists. split.
  - intros [x [Hin Heq]]. apply String.eqb_eq in Heq. now subst.
  - intros H. exists key. split; [exact H | apply String.eqb_refl].
Qed.

Lemma set_has_not_In (keys : list string) (key : string) :
  set_has keys key = false <-> ~ In key keys.
Proof.
  rewrite <- set_has_In. destruct (set_has keys key); split; congruence.
Qed.

(** ** Reading props *)

Lemma read_Some key (props : PageProps) v : obj_get key props = Some v -> read key props = v.
Proof. unfold read, obj_read. now intros ->. Qed.



(** ** The partial-reload filter *)

Section PickFacts.
Variable i : Inertia.t.
Variable P : PageProps.

(** The loop of [resolveOnly]. *)
Lemma only_loop_get (only : list string) (acc : PageProps) k :
  obj_get "__proto__" acc = None ->
  obj_get k (fold_left (fun newProps key => obj_assign key (read key P) newProps) only acc) =
    if set_has only k && negb (k =? "__proto__") then Some (read k P) else obj_get k acc.
Proof.
  revert acc. induction only as [|key only IH]; simpl; intros acc Hp; [reflexivity|].
  rewrite IH by (now apply obj_assign_proto). rewrite obj_assign_get.
  unfold set_has; simpl. fold (set_has only k).
  destruct (String.eqb_spec k key) as [->|Hne].
  - rewrite String.eqb_refl. cbn [orb andb].
    destruct (String.eqb_spec key "__proto__") as [->|Hk]; cbn [negb orb].
    + unfold obj_has. rewrite Hp, andb_false_r. reflexivity.
    + now destruct (set_has only key).
  - destruct (String.eqb_spec key k) as [->|_]; [congruence|]. reflexivity.
Qed.

Lemma only_loop_NoDup (only : list string) (acc : PageProps) :
  NoDup (obj_keys acc) ->
  NoDup (obj_keys (fold_left (fun newProps key => obj_assign key (read key P) newProps)
                             only acc)).
Proof.
  revert acc. induction only as [|key only IH]; simpl; intros acc H; [exact H|].
  apply IH. now apply obj_assign_NoDup.
Qed.

(** The loop of [resolveExcept]. *)
Lemma except_loop_get (except : list string) (o : PageProps) k :
  obj_get k (fold_left (fun props key => obj_delete key props) except o) =
    if set_has except k then None else obj_get k o.
Proof.
  revert o. induction except as [|key except IH]; simpl; intros o; [reflexivity|].
  rewrite IH. unfold set_has; simpl. fold (set_has except k).
  destruct (set_has except k).
  - now rewrite orb_true_r.
  - rewrite orb_false_r, obj_get_delete.
    rewrite String.eqb_sym. reflexivity.
Qed.

Lemma except_loop_NoDup (except : list string) (o : PageProps) :
  NoDup (obj_keys o) ->
  NoDup (obj_keys (fold_left (fun props key => obj_delete key props) except o)).
Proof.
  revert o. induction except as [|key except IH]; simpl; intros o H; [exact H|].
  apply IH. now apply obj_delete_NoDup.
Qed.

(** The loop over the [AlwaysProp]s when [newProps] is a fresh
    object: [props] is not written. *)
Lemma keepAlways_fresh (l : list (string * value)) (N : PageProps) :
  obj_get "__proto__" N = None ->
  exists N',
    fold_left Inertia.keepAlways l (Inertia.mkVars P (Some N)) = Inertia.mkVars P (Some N')
    /\ (NoDup (obj_keys N) -> NoDup (obj_keys N'))
    /\ forall k,
        obj_get k N' =
          if existsb (fun e => (fst e =? k) && Props.isAlwaysProp (snd e)) l
             && negb (k =? "__proto__")
          then Some (read k P) else obj_get k N.
Proof.
  revert N. induction l as [|[key v] l IH]; intros N Hp.
  - exists N. simpl. auto.
  - assert (Hstep : Inertia.keepAlways (Inertia.mkVars P (Some N)) (key, v) =
                      if Props.isAlwaysProp v
                      then Inertia.mkVars P (Some (obj_assign key (read key P) N))
                      else Inertia.mkVars P (Some N)) by reflexivity.
    cbn [fold_left]. rewrite Hstep. clear Hstep.
    destruct (Props.isAlwaysProp v) eqn:Ha.
    + destruct (IH (obj_assign key (read key P) N)) as [N' [Hf [Hnd Hget]]];
        [now apply obj_assign_proto|].
      exists N'. split; [exact Hf|]. split.
      * intros H. apply Hnd. now apply obj_assign_NoDup.
      * intros k. rewrite Hget, obj_assign_get. simpl. rewrite Ha, andb_true_r.
        destruct (String.eqb_spec key k) as [->|Hne]; cbn [orb andb]; [|reflexivity].
        destruct (String.eqb_spec k "__proto__") as [->|Hk]; cbn [negb orb].
        -- unfold obj_has. rewrite Hp, andb_false_r. reflexivity.
        -- now destruct (existsb _ l).
    + destruct (IH N Hp) as [N' [Hf [Hnd Hget]]].
      exists N'. split; [exact Hf|]. split; [exact Hnd|].
      intros k. rewrite Hget. simpl. now rewrite Ha, andb_false_r.
Qed.

(** The same loop when [newProps] and [props] are one object [o] with
    one entry per key: every write puts back the value that is read. *)
Lemma keepAlways_alias (o : PageProps) (l : list (string * value)) :
  NoDup (obj_keys o) -> incl l o ->
  fold_left Inertia.keepAlways l (Inertia.mkVars o None) = Inertia.mkVars o None.
Proof.
  intros Hnd. induction l as [|[key v] l IH]; intros Hincl; [reflexivity|].
  assert (Hget : obj_get key o = Some v).
  { apply In_obj_get; [exact Hnd | apply Hincl; now left]. }
  assert (Hl : incl l o) by (intros e He; apply Hincl; now right).
  assert (Hstep : Inertia.keepAlways (Inertia.mkVars o None) (key, v) =
                    Inertia.mkVars o None).
  { unfold Inertia.keepAlways. destruct (Props.isAlwaysProp v); [|reflexivity].
    unfold Inertia.mutate_newProps, Inertia.get_newProps; simpl.
    now rewrite (read_Some _ _ Hget), (obj_assign_same _ _ Hget). }
  cbn [fold_left]. rewrite Hstep. now apply IH.
Qed.

Hypothesis P_NoDup : NoDup (obj_keys P).

(** Whether [k] is bound to an [AlwaysProp] in [P]. *)
Lemma always_entry k :
  existsb (fun e => (fst e =? k) && Props.isAlwaysProp (snd e)) P =
    Props.isAlwaysProp (read k P).
Proof.
  destruct (existsb _ P) eqn:E.
  - apply existsb_exists in E. destruct E as [[k' v] [Hin H]]. simpl in H.
    apply andb_prop in H. destruct H as [Hk Ha]. apply String.eqb_eq in Hk. subst k'.
    now rewrite (read_Some _ _ (In_obj_get _ _ _ P_NoDup Hin)).
  - destruct (obj_get k P) as [v|] eqn:Hget.
    + rewrite (read_Some _ _ Hget).
      destruct (Props.isAlwaysProp v) eqn:Ha; [|reflexivity].
      assert (existsb (fun e => (fst e =? k) && Props.isAlwaysProp (snd e)) P = true).
      { apply existsb_exists. exists (k, v). simpl.
        rewrite String.eqb_refl, Ha. split; [now apply obj_get_In | reflexivity]. }
      congruence.
    + unfold read, obj_read. rewrite Hget. now destruct (inherited k).
Qed.
End PickFacts.

Section PickModes.
Variable i : Inertia.t.
Variable component : string.
Variable P : PageProps.
Hypothesis P_NoDup : NoDup (obj_keys P).
Hypothesis P_ordered : ordered P.

Lemma isPartial_true :
  Inertia.isPartial i component = true <->
  getHeader (Inertia.adapter i) InertiaHeaders.PartialComponent = Some component.
Proof.
  unfold Inertia.isPartial.
  destruct (getHeader _ _) as [c|]; [|split; discriminate].
  destruct (String.eqb_spec c component) as [->|Hne]; split; congruence.
Qed.

Lemma isPartial_false :
  Inertia.isPartial i component = false <->
  getHeader (Inertia.adapter i) InertiaHeaders.PartialComponent <> Some component.
Proof.
  rewrite <- isPartial_true. destruct (Inertia.isPartial i component); split; congruence.
Qed.

Lemma keepAlways_fresh_id (l : list (string * value)) (N : PageProps) :
  (forall key v, In (key, v) l -> Props.isAlwaysProp v = true ->
                 obj_get key N = Some (read key P)) ->
  fold_left Inertia.keepAlways l (Inertia.mkVars P (Some N)) = Inertia.mkVars P (Some N).
Proof.
  induction l as [|[key v] l IH]; intros H; [reflexivity|].
  assert (Hstep : Inertia.keepAlways (Inertia.mkVars P (Some N)) (key, v) =
                    Inertia.mkVars P (Some N)).
  { unfold Inertia.keepAlways. destruct (Props.isAlwaysProp v) eqn:Ha; [|reflexivity].
    unfold Inertia.mutate_newProps, Inertia.get_newProps; simpl.
    rewrite obj_assign_same; [reflexivity|]. apply (H key v); [now left | exact Ha]. }
  cbn [fold_left]. rewrite Hstep. apply IH.
  intros key' v' Hin. apply H. now right.
Qed.

(** First load: the entries that carry the marker are dropped, the
    others are kept as they are. *)
Lemma pick_first_load :
  Inertia.isPartial i component = false ->
  Inertia.pickPropsToResolve i component P =
    Returns (filter (fun e => negb (Props.ignoreFirstLoad (snd e))) P).
Proof.
  intros Hp. unfold Inertia.pickPropsToResolve. rewrite Hp. simpl.
  rewrite fromEntries_NoDup by (now apply filter_NoDup_keys || now apply filter_ordered).
  unfold Inertia.let_newProps; simpl.
  rewrite keepAlways_fresh_id; [reflexivity|].
  intros key v Hin Ha.
  pose proof (In_obj_get _ _ _ P_NoDup Hin) as Hget.
  rewrite (read_Some _ _ Hget).
  rewrite (obj_get_filter (fun v => negb (Props.ignoreFirstLoad v))) by exact P_NoDup.
  rewrite Hget. destruct v as [d|[]|f|n]; try discriminate Ha. reflexivity.
Qed.

(** Partial reload without constraint: every entry is kept. *)
Lemma pick_partial_all :
  Inertia.isPartial i component = true ->
  truthy_header (getHeader (Inertia.adapter i) InertiaHeaders.PartialOnly) = false ->
  truthy_header (getHeader (Inertia.adapter i) InertiaHeaders.PartialExcept) = false ->
  Inertia.pickPropsToResolve i component P = Returns P.
Proof.
  intros Hp Ho He. unfold Inertia.pickPropsToResolve. rewrite Hp, Ho, He. simpl.
  rewrite keepAlways_alias by (auto using incl_refl). reflexivity.
Qed.

(** Partial reload with an except list only: the named entries are
    deleted from the one object both variables name, so that an
    [AlwaysProp] among them is not seen by the final loop. *)
Lemma pick_partial_except (h : string) :
  Inertia.isPartial i component = true ->
  truthy_header (getHeader (Inertia.adapter i) InertiaHeaders.PartialOnly) = false ->
  getHeader (Inertia.adapter i) InertiaHeaders.PartialExcept = Some h ->
  truthy_string h = true ->
  Inertia.pickPropsToResolve i component P =
    Returns (fold_left (fun props key => obj_delete key props) (split_filter h) P).
Proof.
  intros Hp Ho He Ht. unfold Inertia.pickPropsToResolve, Inertia.resolveExcept.
  rewrite Hp, Ho, He. simpl. rewrite Ht. simpl.
  unfold Inertia.mutate_newProps; simpl.
  rewrite keepAlways_alias; [reflexivity | | apply incl_refl].
  now apply except_loop_NoDup.
Qed.

(** Partial reload with an only list: the listed keys, less the
    excepted ones, and the [AlwaysProp]s, each with what [props[key]]
    reads. *)
Lemma pick_partial_only (h : string) :
  Inertia.isPartial i component = true ->
  getHeader (Inertia.adapter i) InertiaHeaders.PartialOnly = Some h ->
  truthy_string h = true ->
  exists N,
    Inertia.pickPropsToResolve i component P = Returns N
    /\ NoDup (obj_keys N)
    /\ forall k,
        obj_get k N =
          if (Props.isAlwaysProp (read k P)
              || set_has (split_filter h) k
                 && negb (set_has
                            (match getHeader (Inertia.adapter i) InertiaHeaders.PartialExcept with
                             | Some e => split_filter e
                             | None => []
                             end) k))
             && negb (k =? "__proto__")
          then Some (read k P) else None.
Proof.
  intros Hp Ho Ht. unfold Inertia.pickPropsToResolve, Inertia.resolveOnly.
  rewrite Hp, Ho. simpl. rewrite Ht. simpl.
  set (O := fold_left (fun newProps key => obj_assign key (read key P) newProps)
                      (split_filter h) []).
  assert (HO : NoDup (obj_keys O)) by (apply only_loop_NoDup; constructor).
  assert (HOget : forall k, obj_get k O =
                    if set_has (split_filter h) k && negb (k =? "__proto__")
                    then Some (read k P) else None).
  { intros k. unfold O. now rewrite only_loop_get. }
  assert (HOp : obj_get "__proto__" O = None).
  { rewrite HOget. now rewrite andb_false_r. }
  unfold Inertia.let_newProps; simpl.
  assert (Hfinal : forall N0 : PageProps,
             NoDup (obj_keys N0) ->
             forall except : list string,
             (forall k, obj_get k N0 =
                          if set_has (split_filter h) k && negb (set_has except k)
                             && negb (k =? "__proto__")
                          then Some (read k P) else None) ->
             exists N,
               fold_left Inertia.keepAlways P (Inertia.mkVars P (Some N0))
               = Inertia.mkVars P (Some N)
               /\ NoDup (obj_keys N)
               /\ forall k,
                   obj_get k N =
                     if (Props.isAlwaysProp (read k P)
                         || set_has (split_filter h) k && negb (set_has except k))
                        && negb (k =? "__proto__")
                     then Some (read k P) else None).
  { intros N0 HN0 except HN0get.
    destruct (keepAlways_fresh P P N0) as [N [Hf [Hnd Hget]]].
    { rewrite HN0get. now rewrite andb_false_r. }
    exists N. split; [exact Hf|]. split; [now apply Hnd|].
    intros k. rewrite Hget, always_entry by exact P_NoDup. rewrite HN0get.
    destruct (Props.isAlwaysProp (read k P)), (negb (k =? "__proto__")),
      (set_has (split_filter h) k), (negb (set_has except k)); reflexivity. }
  destruct (getHeader (Inertia.adapter i) InertiaHeaders.PartialExcept) as [e|] eqn:He;
    simpl.
  - destruct (truthy_string e) eqn:Hte; simpl.
    + unfold Inertia.resolveExcept. rewrite He. simpl.
      unfold Inertia.mutate_newProps, Inertia.get_newProps; simpl.
      destruct (Hfinal (fold_left (fun props key => obj_delete key props) (split_filter e) O)
                       (except_loop_NoDup _ _ HO) (split_filter e))
        as [N [Hf HN]].
      { intros k. rewrite except_loop_get, HOget.
        destruct (set_has (split_filter e) k), (set_has (split_filter h) k),
          (negb (k =? "__proto__")); reflexivity. }
      rewrite Hf. now exists N.
    + assert (e = "") as ->.
      { unfold truthy_string in Hte. apply negb_false_iff in Hte.
        now apply String.eqb_eq in Hte. }
      destruct (Hfinal O HO []) as [N [Hf HN]].
      { intros k. rewrite HOget. cbn [set_has existsb negb]. now rewrite andb_true_r. }
      rewrite Hf. now exists N.
  - destruct (Hfinal O HO []) as [N [Hf HN]].
    { intros k. rewrite HOget. cbn [set_has existsb negb]. now rewrite andb_true_r. }
    rewrite Hf. now exists N.
Qed.

Lemma truthy_header_true (h : option string) :
  truthy_header h = true -> exists s, h = Some s /\ truthy_string s = true.
Proof. destruct h as [s|]; simpl; [eauto | discriminate]. Qed.

(** The result binds a key to nothing but what [props[key]] reads. *)
Ltac reads_props :=
  eexists; split; [reflexivity|]; split;
  [ auto using except_loop_NoDup, filter_NoDup_keys
  | let k := fresh "k" in
    let v := fresh "v" in
    let H := fresh "H" in
    intros k v;
    rewrite ?except_loop_get,
            ?(obj_get_filter (fun v => negb (Props.ignoreFirstLoad v))) by exact P_NoDup;
    try (destruct (set_has _ k); [discriminate|]);
    destruct (obj_get k P) eqn:H; [|discriminate];
    rewrite (read_Some _ _ H);
    try (destruct (negb _); [|discriminate]);
    congruence ].

(** The filter never throws, keeps one entry per key, and binds a key
    to nothing but what [props[key]] reads. *)
Lemma pick_total :
  exists N,
    Inertia.pickPropsToResolve i component P = Returns N
    /\ NoDup (obj_keys N)
    /\ forall k v, obj_get k N = Some v -> v = read k P.
Proof.
  destruct (Inertia.isPartial i component) eqn:Hp;
    [|rewrite (pick_first_load Hp); reads_props].
  destruct (truthy_header (getHeader (Inertia.adapter i) InertiaHeaders.PartialOnly))
    eqn:Ho.
  - apply truthy_header_true in Ho. destruct Ho as [h [Ho Ht]].
    destruct (pick_partial_only Hp Ho Ht) as [N [HN [Hnd Hget]]].
    exists N. split; [exact HN|]. split; [exact Hnd|].
    intros k v. rewrite Hget. destruct (_ && _); congruence.
  - destruct (truthy_header (getHeader (Inertia.adapter i) InertiaHeaders.PartialExcept))
      eqn:He.
    + apply truthy_header_true in He. destruct He as [e [He Hte]].
      rewrite (pick_partial_except Hp Ho He Hte). reads_props.
    + rewrite (pick_partial_all Hp Ho He). reads_props.
Qed.
End PickModes.

(** ** The prop resolver *)

Lemma promise_all_Returns {A B : Type} (f : A -> outcome B) (l : list A) (ys : list B) :
  promise_all f l = Returns ys <-> Forall2 (fun x y => f x = Returns y) l ys.
Proof.
  revert ys. induction l as [|x l IH]; intros ys; simpl.
  - split.
    + intros [= <-]. constructor.
    + intros H. now inversion H.
  - destruct (f x) as [y|e] eqn:Hx.
    + destruct (promise_all f l) as [ys'|e'] eqn:Hl.
      * split.
        -- intros [= <-]. constructor; [exact Hx | now apply IH].
        -- intros H. inversion H as [|? y0 ? ys0 Hy Hys]; subst.
           apply IH in Hys. congruence.
      * split; [discriminate|].
        intros H. inversion H as [|? y0 ? ys0 Hy Hys]; subst.
        apply IH in Hys. discriminate.
    + split; [discriminate|].
      intros H. inversion H; subst. congruence.
Qed.

Lemma promise_all_all {A B : Type} (f : A -> outcome B) (l : list A) :
  (forall x, In x l -> exists y, f x = Returns y) ->
  exists ys, promise_all f l = Returns ys.
Proof.
  induction l as [|x l IH]; intros H; simpl.
  - now exists [].
  - destruct (H x (or_introl eq_refl)) as [y ->].
    destruct IH as [ys ->]; [intros x' Hx'; apply H; now right|].
    now exists (y :: ys).
Qed.

Lemma promise_all_Throws {A B : Type} (f : A -> outcome B) (l : list A) (e : string) :
  promise_all f l = Throws e -> exists x, In x l /\ f x = Throws e.
Proof.
  induction l as [|x l IH]; simpl; [discriminate|].
  destruct (f x) as [y|e'] eqn:Hx.
  - destruct (promise_all f l) as [ys|e''] eqn:Hl; [discriminate|].
    intros [= <-]. destruct (IH eq_refl) as [x' [Hin Hx']].
    exists x'. split; [now right | exact Hx'].
  - intros [= <-]. exists x. split; [now left | exact Hx].
Qed.

Section ResolveFacts.
Variable i : Inertia.t.
Variable res : Response.

Lemma resolveEntry_key k v k' d :
  Inertia.resolveEntry i res (k, v) = Returns (k', d) -> k' = k.
Proof.
  unfold Inertia.resolveEntry, Inertia.resolveProp.
  destruct v as [d0|p|f|n]; simpl.
  - now intros [= <- _].
  - destruct (Props.callback p tt); simpl; [now intros [= <- _] | discriminate].
  - destruct (f _ res) as [[d0|p]|e]; simpl; try discriminate.
    + now intros [= <- _].
    + destruct (Props.callback p tt); simpl; [now intros [= <- _] | discriminate].
  - destruct (n =? "__proto__"); simpl; [now intros [= <- _]|].
    destruct (call_inherited n _) as [[d0|p]|e]; simpl; try discriminate.
    + now intros [= <- _].
    + destruct (Props.callback p tt); simpl; [now intros [= <- _] | discriminate].
Qed.

(** A wrapper resolves to what its callback returns. *)
Lemma resolveEntry_prop k p d :
  Inertia.resolveEntry i res (k, VProp p) = Returns (k, d) <->
  Props.callback p tt = Returns d.
Proof.
  unfold Inertia.resolveEntry, Inertia.resolveProp.
  destruct (Props.callback p tt); simpl; split; congruence.
Qed.

Lemma resolveEntry_data k d d' :
  Inertia.resolveEntry i res (k, VData d) = Returns (k, d') <-> d' = d.
Proof. simpl. split; congruence. Qed.

Lemma resolved_entries (N : PageProps) (es : list (string * data)) :
  Forall2 (fun x y => Inertia.resolveEntry i res x = Returns y) N es ->
  obj_keys es = obj_keys N
  /\ forall k,
      match obj_get k N with
      | Some v => exists d, Inertia.resolveEntry i res (k, v) = Returns (k, d)
                            /\ obj_get k es = Some d
      | None => obj_get k es = None
      end.
Proof.
  induction 1 as [|[k0 v0] [k1 d1] N es Hx _ [IHk IHg]]; simpl.
  - auto.
  - pose proof (resolveEntry_key _ _ Hx) as ->.
    split; [now rewrite IHk|].
    intros k. destruct (String.eqb_spec k0 k) as [->|Hne].
    + exists d1. auto.
    + apply IHg.
Qed.

(** The resolved props have the keys of the props that were picked,
    each bound to the value its entry resolves to. *)
Lemma resolvePageProps_Returns (N : PageProps) (r : object data) :
  NoDup (obj_keys N) ->
  Inertia.resolvePageProps i res N = Returns r ->
  forall k,
    match obj_get k N with
    | Some v => exists d, Inertia.resolveEntry i res (k, v) = Returns (k, d)
                          /\ obj_get k r = Some d
    | None => obj_get k r = None
    end.
Proof.
  intros Hnd. unfold Inertia.resolvePageProps.
  destruct (promise_all _ N) as [es|e] eqn:Hes; simpl; [|discriminate].
  intros [= <-]. apply promise_all_Returns in Hes.
  destruct (resolved_entries Hes) as [Hk Hg].
  intros k. rewrite fromEntries_get by (now rewrite Hk). apply Hg.
Qed.

(** They list their keys in the order of the props that were picked. *)
Lemma resolvePageProps_keys (N : PageProps) (r : object data) :
  NoDup (obj_keys N) -> ordered N ->
  Inertia.resolvePageProps i res N = Returns r ->
  obj_keys r = obj_keys N.
Proof.
  intros Hnd Ho. unfold Inertia.resolvePageProps.
  destruct (promise_all _ N) as [es|e] eqn:Hes; simpl; [|discriminate].
  intros [= <-]. apply promise_all_Returns in Hes.
  destruct (resolved_entries Hes) as [Hk _].
  rewrite fromEntries_NoDup; [exact Hk | now rewrite Hk | unfold ordered; now rewrite Hk].
Qed.

(** The resolver returns as soon as every picked entry resolves. *)
Lemma resolvePageProps_all (N : PageProps) :
  (forall k v, In (k, v) N -> exists d, Inertia.resolveEntry i res (k, v) = Returns (k, d)) ->
  exists r, Inertia.resolvePageProps i res N = Returns r.
Proof.
  intros H. unfold Inertia.resolvePageProps.
  destruct (promise_all_all (Inertia.resolveEntry i res) N) as [es ->].
  - intros [k v] Hin. destruct (H k v Hin) as [d Hd]. eauto.
  - simpl. eauto.
Qed.

Variable component : string.
Variable pageProps : option PageProps.

Lemma buildPageObject_Returns (po : PageObject) :
  Inertia.buildPageObject i res component pageProps = Returns po ->
  exists N,
    Inertia.pickPropsToResolve i component
      (spread (Inertia.sharedData i) (Inertia.or_empty pageProps)) = Returns N
    /\ Inertia.resolvePageProps i res N = Returns (props po)
    /\ mergeProps po = Inertia.resolveMergeProps i pageProps
    /\ Inertia.resolveDeferredProps i component pageProps = Returns (deferredProps po).
Proof.
  unfold Inertia.buildPageObject.
  destruct (Inertia.pickPropsToResolve _ _ _) as [N|e]; simpl; [|discriminate].
  destruct (Inertia.resolvePageProps i res N) as [r|e] eqn:Hr; simpl; [|discriminate].
  destruct (Inertia.resolveDeferredProps i component pageProps) as [g|e]; simpl;
    [|discriminate].
  intros [= <-]. simpl. exists N. auto.
Qed.

Lemma buildPageObject_all (N : PageProps) (r : object data)
      (g : option (object (list string))) :
  Inertia.pickPropsToResolve i component
    (spread (Inertia.sharedData i) (Inertia.or_empty pageProps)) = Returns N ->
  Inertia.resolvePageProps i res N = Returns r ->
  Inertia.resolveDeferredProps i component pageProps = Returns g ->
  exists po, Inertia.buildPageObject i res component pageProps = Returns po
             /\ props po = r.
Proof.
  intros HN Hr Hg. unfold Inertia.buildPageObject. rewrite HN. simpl. rewrite Hr. simpl.
  rewrite Hg. simpl. eexists. split; reflexivity.
Qed.
End ResolveFacts.

(** ** The deferred listing *)

Lemma inherited_proto (g : string) : inherited g = false -> (g =? "__proto__") = false.
Proof.
  intros H. destruct (String.eqb_spec g "__proto__") as [->|]; [discriminate H | reflexivity].
Qed.

(** One step of the [reduce], when it does not throw, appends the key
    to the list of its group. *)
Lemma pushGroup_get (groups groups' : object (list string)) (key group : string) :
  Inertia.pushGroup groups (key, group) = Returns groups' ->
  forall g,
    obj_get g groups' =
      if group =? g
      then Some (match obj_get group groups with Some keys => keys | None => [] end ++ [key])
      else obj_get g groups.
Proof.
  unfold Inertia.pushGroup, obj_read.
  destruct (obj_get group groups) as [keys|] eqn:Hg.
  - rewrite Hg. intros [= <-] g. rewrite obj_assign_get.
    unfold obj_has. rewrite Hg, orb_true_r, andb_true_r. reflexivity.
  - destruct (inherited group) eqn:Hi.
    + rewrite Hg. discriminate.
    + pose proof (inherited_proto _ Hi) as Hp.
      rewrite obj_assign_get, String.eqb_refl, Hp. cbn [negb orb andb].
      intros [= <-] g. rewrite !obj_assign_get, Hp. cbn [negb orb andb].
      rewrite !andb_true_r. now destruct (group =? g).
Qed.

(** The step throws exactly for a group that has the name of a member
    of [Object.prototype] and no list yet. *)
Lemma pushGroup_Returns (groups : object (list string)) (key group : string) :
  (exists groups', Inertia.pushGroup groups (key, group) = Returns groups') <->
  obj_has group groups = true \/ inherited group = false.
Proof.
  unfold Inertia.pushGroup, obj_read, obj_has.
  destruct (obj_get group groups) as [keys|] eqn:Hg.
  - rewrite Hg. split; eauto.
  - destruct (inherited group) eqn:Hi.
    + rewrite Hg. split; [intros [g' H]; discriminate H | intros [H|H]; discriminate H].
    + pose proof (inherited_proto _ Hi) as Hp.
      rewrite obj_assign_get, String.eqb_refl, Hp. cbn [negb orb andb]. split; eauto.
Qed.

Lemma reduceGroups_Throws (l : list (string * string)) (e : string) :
  fold_left (fun acc e => groups <- acc ;; Inertia.pushGroup groups e) l (Throws e) = Throws e.
Proof. induction l as [|x l IH]; [reflexivity | exact IH]. Qed.

Lemma reduceGroups_cons (x : string * string) (l : list (string * string))
      (groups : object (list string)) :
  Inertia.reduceGroups (x :: l) groups =
    (groups' <- Inertia.pushGroup groups x ;; Inertia.reduceGroups l groups').
Proof.
  unfold Inertia.reduceGroups. cbn [fold_left bind].
  destruct (Inertia.pushGroup groups x) as [groups'|e]; [reflexivity|].
  apply reduceGroups_Throws.
Qed.

(** The [reduce], when it does not throw, appends each key to the list
    of its group, in the order of the entries. *)
Lemma reduceGroups_get (l : list (string * string)) (groups groups' : object (list string)) :
  Inertia.reduceGroups l groups = Returns groups' ->
  forall g,
    obj_get g groups' =
      match obj_get g groups, map fst (filter (fun e => snd e =? g) l) with
      | Some old, keys => Some (old ++ keys)
      | None, [] => None
      | None, keys => Some keys
      end.
Proof.
  revert groups. induction l as [|[key group] l IH]; intros groups.
  - intros [= <-] g. simpl. destruct (obj_get g groups); [now rewrite app_nil_r | reflexivity].
  - rewrite reduceGroups_cons.
    destruct (Inertia.pushGroup groups (key, group)) as [groups1|e] eqn:Hp; [|discriminate].
    cbn [bind]. intros Hr g. rewrite (IH _ Hr), (pushGroup_get _ _ _ Hp). cbn [filter snd].
    destruct (String.eqb_spec group g) as [->|Hne]; simpl.
    + destruct (obj_get g groups); [now rewrite <- app_assoc | reflexivity].
    + reflexivity.
Qed.

Lemma reduceGroups_empty (l : list (string * string)) (groups' : object (list string)) :
  Inertia.reduceGroups l [] = Returns groups' -> (obj_keys groups' = [] <-> l = []).
Proof.
  intros Hr. split.
  - destruct l as [|[key group] l]; [reflexivity|]. intros H. exfalso.
    pose proof (reduceGroups_get _ _ Hr group) as Hg.
    cbn [obj_get filter snd] in Hg. rewrite String.eqb_refl in Hg. cbn [map fst] in Hg.
    apply obj_get_Some_key in Hg. rewrite H in Hg. exact Hg.
  - intros ->. now injection Hr as <-.
Qed.

(** The [reduce] returns when no group has the name of a member of
    [Object.prototype]. *)
Lemma reduceGroups_Returns (l : list (string * string)) (groups : object (list string)) :
  (forall e, In e l -> inherited (snd e) = false) ->
  exists groups', Inertia.reduceGroups l groups = Returns groups'.
Proof.
  revert groups. induction l as [|[key group] l IH]; intros groups H.
  - now exists groups.
  - rewrite reduceGroups_cons.
    destruct (proj2 (pushGroup_Returns groups key group)) as [groups1 ->].
    { right. exact (H (key, group) (or_introl eq_refl)). }
    cbn [bind]. apply IH. intros e He. apply H. now right.
Qed.

(** It throws when a group has such a name. *)
Lemma reduceGroups_inherited (l : list (string * string)) (groups : object (list string)) :
  (forall g, inherited g = true -> obj_get g groups = None) ->
  (exists e, In e l /\ inherited (snd e) = true) ->
  exists err, Inertia.reduceGroups l groups = Throws err.
Proof.
  revert groups. induction l as [|[key group] l IH]; intros groups Hinv [e [Hin Hi]].
  - destruct Hin.
  - rewrite reduceGroups_cons.
    destruct (Inertia.pushGroup groups (key, group)) as [groups1|err] eqn:Hp;
      [|cbn [bind]; eauto].
    cbn [bind].
    assert (Hg : inherited group = false).
    { destruct (proj1 (pushGroup_Returns groups key group) (ex_intro _ _ Hp)) as [H|H];
        [|exact H].
      destruct (inherited group) eqn:Hig; [|reflexivity].
      unfold obj_has in H. now rewrite (Hinv _ Hig) in H. }
    apply IH.
    + intros g Hig. rewrite (pushGroup_get _ _ _ Hp).
      destruct (String.eqb_spec group g) as [->|_]; [congruence | now apply Hinv].
    + destruct Hin as [<-|Hin]; [simpl in Hi; congruence | eauto].
Qed.

Lemma deferred_group_keys (entries : PageProps) (g : string) :
  map fst (filter (fun e => snd e =? g)
             (map (fun e => (fst e, Props.getGroup (snd e)))
                  (filter (fun e => Props.isDeferProp (snd e)) entries))) =
  map fst (filter (fun e => match snd e with
                            | VProp (DeferProp _ g') => g' =? g
                            | _ => false
                            end) entries).
Proof.
  induction entries as [|[k v] entries IH]; [reflexivity|].
  destruct v as [d|[cb|cb g'|cb m|cb]|f|n]; simpl; try exact IH.
  destruct (g' =? g); simpl; now rewrite IH.
Qed.

Lemma no_deferred_entry (entries : PageProps) :
  filter (fun e => Props.isDeferProp (snd e)) entries = [] <->
  forall k cb g, ~ In (k, VProp (DeferProp cb g)) entries.
Proof.
  split.
  - intros H k cb g Hin.
    assert (Hf : In (k, VProp (DeferProp cb g))
                    (filter (fun e => Props.isDeferProp (snd e)) entries))
      by (apply filter_In; auto).
    rewrite H in Hf. exact Hf.
  - intros H. induction entries as [|[k v] entries IH]; [reflexivity|].
    simpl. destruct v as [d|[cb|cb g|cb m|cb]|f|n]; simpl;
      try (apply IH; intros k' cb' g' Hin; apply (H k' cb' g'); now right).
    exfalso. apply (H k cb g). now left.
Qed.

Lemma deferred_groups_In (entries : PageProps) (e : string * string) :
  In e (map (fun e => (fst e, Props.getGroup (snd e)))
            (filter (fun e => Props.isDeferProp (snd e)) entries)) <->
  exists cb, In (fst e, VProp (DeferProp cb (snd e))) entries.
Proof.
  rewrite in_map_iff. split.
  - intros [[k v] [<- Hin]]. apply filter_In in Hin. destruct Hin as [Hin Hd].
    simpl in Hd. destruct v as [d|[cb|cb g|cb m|cb]|f|n]; try discriminate Hd.
    exists cb. exact Hin.
  - intros [cb Hin]. exists (fst e, VProp (DeferProp cb (snd e))).
    split; [now destruct e|]. apply filter_In. auto.
Qed.

Section DeferredFacts.
Variable i : Inertia.t.
Variable component : string.
Variable pageProps : option PageProps.

Lemma resolveDeferredProps_partial :
  Inertia.isPartial i component = true ->
  Inertia.resolveDeferredProps i component pageProps = Returns None.
Proof. intros Hp. unfold Inertia.resolveDeferredProps. now rewrite Hp. Qed.

(** The listing is computed when no Deferred entry of the per-call
    props declares a group that has the name of a member of
    [Object.prototype]. *)
Lemma resolveDeferredProps_Returns :
  (forall k cb g, In (k, VProp (DeferProp cb g)) (Inertia.or_empty pageProps) ->
                  inherited g = false) ->
  exists r, Inertia.resolveDeferredProps i component pageProps = Returns r.
Proof.
  intros H. unfold Inertia.resolveDeferredProps.
  destruct (Inertia.isPartial i component); [eauto|].
  destruct (reduceGroups_Returns
              (map (fun e => (fst e, Props.getGroup (snd e)))
                   (filter (fun e => Props.isDeferProp (snd e)) (Inertia.or_empty pageProps)))
              []) as [groups ->].
  - intros e He. apply deferred_groups_In in He. destruct He as [cb He]. eauto.
  - cbn [bind]. eauto.
Qed.

(** On a request that is not partial it throws when one does. *)
Lemma resolveDeferredProps_Throws (k : string) (cb : Callback) (g : string) :
  Inertia.isPartial i component = false ->
  In (k, VProp (DeferProp cb g)) (Inertia.or_empty pageProps) ->
  inherited g = true ->
  exists err, Inertia.resolveDeferredProps i component pageProps = Throws err.
Proof.
  intros Hp Hin Hg. unfold Inertia.resolveDeferredProps. rewrite Hp.
  destruct (reduceGroups_inherited
              (map (fun e => (fst e, Props.getGroup (snd e)))
                   (filter (fun e => Props.isDeferProp (snd e)) (Inertia.or_empty pageProps)))
              []) as [err ->].
  - reflexivity.
  - exists (k, g). split; [|exact Hg]. apply deferred_groups_In. eauto.
  - cbn [bind]. eauto.
Qed.

(** What the listing is, when it is computed. *)
Lemma resolveDeferredProps_listing (r : option (object (list string))) :
  Inertia.resolveDeferredProps i component pageProps = Returns r ->
  match r with
  | Some groups =>
      Inertia.isPartial i component = false
      /\ (exists k cb g, In (k, VProp (DeferProp cb g)) (Inertia.or_empty pageProps))
      /\ forall g,
          obj_get g groups =
            match map fst (filter (fun e => match snd e with
                                            | VProp (DeferProp _ g') => g' =? g
                                            | _ => false
                                            end) (Inertia.or_empty pageProps)) with
            | [] => None
            | keys => Some keys
            end
  | None =>
      Inertia.isPartial i component = true
      \/ forall k cb g, ~ In (k, VProp (DeferProp cb g)) (Inertia.or_empty pageProps)
  end.
Proof.
  unfold Inertia.resolveDeferredProps.
  destruct (Inertia.isPartial i component) eqn:Hp.
  { intros [= <-]. now left. }
  set (l := map (fun e => (fst e, Props.getGroup (snd e)))
                (filter (fun e => Props.isDeferProp (snd e)) (Inertia.or_empty pageProps))).
  destruct (Inertia.reduceGroups l []) as [groups|e] eqn:Hr; cbn [bind]; [|discriminate].
  intros [= <-].
  destruct (Nat.eqb_spec (length (obj_keys groups)) 0) as [Hlen|Hlen].
  - right. apply no_deferred_entry.
    apply length_zero_iff_nil in Hlen. apply (reduceGroups_empty _ Hr) in Hlen.
    unfold l in Hlen. now apply map_eq_nil in Hlen.
  - split; [reflexivity|]. split.
    + destruct l as [|[k g] rest] eqn:Hl.
      { exfalso. apply Hlen. injection Hr as <-. reflexivity. }
      assert (Hin : In (k, g) l) by (rewrite Hl; now left).
      apply deferred_groups_In in Hin. destruct Hin as [cb Hin]. eauto.
    + intros g. rewrite (reduceGroups_get _ _ Hr). cbn [obj_get].
      unfold l. rewrite deferred_group_keys. reflexivity.
Qed.
End DeferredFacts.

(** ** The page object builder *)

Section BuildFacts.
Variable i : Inertia.t.
Variable res : Response.
Variable component : string.
Variable pageProps : option PageProps.

Local Abbreviation merged :=
  (spread (Inertia.sharedData i) (Inertia.or_empty pageProps)).

(** The props of the page object, from the props that were picked. *)
Lemma build_props (N : PageProps) (po : PageObject) :
  Inertia.pickPropsToResolve i component merged = Returns N ->
  NoDup (obj_keys N) ->
  Inertia.buildPageObject i res component pageProps = Returns po ->
  forall k,
    match obj_get k N with
    | Some v => exists d, Inertia.resolveEntry i res (k, v) = Returns (k, d)
                          /\ obj_get k (props po) = Some d
    | None => obj_get k (props po) = None
    end.
Proof.
  intros HN Hnd Hpo. apply buildPageObject_Returns in Hpo.
  destruct Hpo as [N' [HN' [Hr _]]].
  assert (N' = N) as -> by congruence.
  now apply resolvePageProps_Returns.
Qed.

(** A page object is built as soon as the picked entries resolve and
    the deferred listing is computed. *)
Lemma build_exists (N : PageProps) :
  Inertia.pickPropsToResolve i component merged = Returns N ->
  NoDup (obj_keys N) ->
  (forall k v, obj_get k N = Some v ->
               exists d, Inertia.resolveEntry i res (k, v) = Returns (k, d)) ->
  (exists g, Inertia.resolveDeferredProps i component pageProps = Returns g) ->
  exists po, Inertia.buildPageObject i res component pageProps = Returns po.
Proof.
  intros HN Hnd Hall [g Hg].
  destruct (resolvePageProps_all i res N) as [r Hr].
  - intros k v Hin. apply Hall. now apply In_obj_get.
  - destruct (buildPageObject_all i res component pageProps HN Hr Hg) as [po [Hpo _]].
    now exists po.
Qed.

(** On a partial request the deferred listing is not computed. *)
Lemma build_exists_partial (N : PageProps) :
  Inertia.isPartial i component = true ->
  Inertia.pickPropsToResolve i component merged = Returns N ->
  NoDup (obj_keys N) ->
  (forall k v, obj_get k N = Some v ->
               exists d, Inertia.resolveEntry i res (k, v) = Returns (k, d)) ->
  exists po, Inertia.buildPageObject i res component pageProps = Returns po.
Proof.
  intros Hp HN Hnd Hall. apply (build_exists HN Hnd Hall).
  exists None. now apply resolveDeferredProps_partial.
Qed.

(** What a first load keeps and drops, whatever the other headers. *)
Lemma first_load_props (po : PageObject) :
  Inertia.isPartial i component = false ->
  Inertia.buildPageObject i res component pageProps = Returns po ->
  forall k v, obj_get k merged = Some v ->
    if Props.ignoreFirstLoad v then obj_has k (props po) = false
    else exists d, Inertia.resolveEntry i res (k, v) = Returns (k, d)
                   /\ obj_get k (props po) = Some d.
Proof.
  intros Hp Hpo k v Hget.
  pose proof (spread_NoDup (Inertia.sharedData i) (Inertia.or_empty pageProps)) as Hnd.
  pose proof (@pick_first_load i component _ Hnd (spread_ordered _ _) Hp) as HN.
  pose proof (build_props HN (filter_NoDup_keys _ _ Hnd) Hpo k) as H.
  rewrite (obj_get_filter (fun v => negb (Props.ignoreFirstLoad v))) in H by exact Hnd.
  rewrite Hget in H. destruct (Props.ignoreFirstLoad v); simpl in H.
  - unfold obj_has. now rewrite H.
  - exact H.
Qed.

Lemma first_load_exists :
  Inertia.isPartial i component = false ->
  (forall k v, obj_get k merged = Some v -> Props.ignoreFirstLoad v = false ->
               exists d, Inertia.resolveEntry i res (k, v) = Returns (k, d)) ->
  (forall k cb g, In (k, VProp (DeferProp cb g)) (Inertia.or_empty pageProps) ->
                  inherited g = false) ->
  exists po, Inertia.buildPageObject i res component pageProps = Returns po.
Proof.
  intros Hp Hall Hgroups.
  pose proof (spread_NoDup (Inertia.sharedData i) (Inertia.or_empty pageProps)) as Hnd.
  pose proof (@pick_first_load i component _ Hnd (spread_ordered _ _) Hp) as HN.
  apply (build_exists HN (filter_NoDup_keys _ _ Hnd)).
  - intros k v.
    rewrite (obj_get_filter (fun v => negb (Props.ignoreFirstLoad v))) by exact Hnd.
    destruct (obj_get k merged) as [v'|] eqn:Hget; [|discriminate].
    destruct (Props.ignoreFirstLoad v') eqn:Hi; simpl; [discriminate|].
    intros [= <-]. now apply Hall.
  - now apply resolveDeferredProps_Returns.
Qed.
End BuildFacts.

Lemma obj_has_Some {V : Type} (k : string) (o : object V) (v : V) :
  obj_get k o = Some v -> obj_has k o = true.
Proof. unfold obj_has. now intros ->. Qed.

(** C1. On a request that is not a partial reload of the rendered
    component (the partial-component header is absent or names another
    component), a page object is built as soon as the callbacks of the
    entries that are kept return and no Deferred entry of the per-call
    props declares a group that has the name of a member of
    [Object.prototype], and in every page object that is built, an
    Optional or Deferred entry of the merged props is absent from the
    resolved props, and an Always, Merge or plain (eager) entry of the
    merged props is present in them. *)
Theorem first_load_drops_optional_and_deferred
  (i : Inertia.t) (res : Response) (component : string) (pageProps : option PageProps) :
  getHeader (Inertia.adapter i) InertiaHeaders.PartialComponent <> Some component ->
  let merged := spread (Inertia.sharedData i) (Inertia.or_empty pageProps) in
  ((forall k v, obj_get k merged = Some v -> Props.ignoreFirstLoad v = false ->
                exists d, Inertia.resolveEntry i res (k, v) = Returns (k, d)) ->
   (forall k cb g, In (k, VProp (DeferProp cb g)) (Inertia.or_empty pageProps) ->
                   inherited g = false) ->
   exists po, Inertia.buildPageObject i res component pageProps = Returns po)
  /\ forall po,
      Inertia.buildPageObject i res component pageProps = Returns po ->
      forall k v, obj_get k merged = Some v ->
        match v with
        | VProp (OptionalProp _) | VProp (DeferProp _ _) => obj_has k (props po) = false
        | VProp (AlwaysProp _) | VProp (MergeProp _ _) | VData _ | VFunction _
        | VInherited _ =>
            obj_has k (props po) = true
        end.
Proof.
  intros Hh merged. apply isPartial_false in Hh. split.
  - now apply first_load_exists.
  - intros po Hpo k v Hget.
    pose proof (first_load_props i res component pageProps Hh Hpo k Hget) as H.
    destruct v as [d|[cb|cb g|cb m|cb]|f|n]; simpl in H; try exact H;
      destruct H as [d' [_ H]]; exact (obj_has_Some _ _ H).
Qed.

(** C3. When the partial-component header is present and names another
    component than the one being rendered, the request is not a partial
    request: the filter returns the merged props less the entries marked
    for exclusion from a first load, a result in which the "only" and
    "except" headers play no part (any other non-partial request gives
    the same), and a page object that is built has no Optional or
    Deferred entry of the merged props and has all the others. *)
Theorem other_component_is_not_partial
  (i : Inertia.t) (res : Response) (component other : string)
  (pageProps : option PageProps) :
  getHeader (Inertia.adapter i) InertiaHeaders.PartialComponent = Some other ->
  other <> component ->
  let merged := spread (Inertia.sharedData i) (Inertia.or_empty pageProps) in
  Inertia.isPartial i component = false
  /\ Inertia.pickPropsToResolve i component merged =
       Returns (filter (fun e => negb (Props.ignoreFirstLoad (snd e))) merged)
  /\ (forall i' : Inertia.t,
        Inertia.isPartial i' component = false ->
        Inertia.pickPropsToResolve i' component merged =
          Inertia.pickPropsToResolve i component merged)
  /\ forall po,
      Inertia.buildPageObject i res component pageProps = Returns po ->
      forall k v, obj_get k merged = Some v ->
        match v with
        | VProp (OptionalProp _) | VProp (DeferProp _ _) => obj_has k (props po) = false
        | _ => obj_has k (props po) = true
        end.
Proof.
  intros Hh Hne merged.
  assert (Hp : Inertia.isPartial i component = false).
  { apply isPartial_false. rewrite Hh. congruence. }
  pose proof (spread_NoDup (Inertia.sharedData i) (Inertia.or_empty pageProps)) as Hnd.
  fold merged in Hnd.
  pose proof (spread_ordered (Inertia.sharedData i) (Inertia.or_empty pageProps)) as Hord.
  fold merged in Hord.
  split; [exact Hp|]. split; [now apply pick_first_load|]. split.
  - intros i' Hp'. now rewrite !pick_first_load.
  - intros po Hpo k v Hget.
    pose proof (first_load_props i res component pageProps Hp Hpo k Hget) as H.
    destruct v as [d|[cb|cb g|cb m|cb]|f|n]; simpl in H; try exact H;
      destruct H as [d' [_ H]]; exact (obj_has_Some _ _ H).
Qed.

(** C9. On a partial request for the rendered component that carries
    neither an "only" nor an "except" header, the filter keeps every
    entry of the merged props; a page object is built as soon as the
    callbacks return, and in it every Optional and Deferred entry is
    bound to what its callback returned. *)
Theorem unconstrained_partial_resolves_optional_and_deferred
  (i : Inertia.t) (res : Response) (component : string) (pageProps : option PageProps) :
  getHeader (Inertia.adapter i) InertiaHeaders.PartialComponent = Some component ->
  getHeader (Inertia.adapter i) InertiaHeaders.PartialOnly = None ->
  getHeader (Inertia.adapter i) InertiaHeaders.PartialExcept = None ->
  let merged := spread (Inertia.sharedData i) (Inertia.or_empty pageProps) in
  Inertia.pickPropsToResolve i component merged = Returns merged
  /\ ((forall k v, obj_get k merged = Some v ->
                   exists d, Inertia.resolveEntry i res (k, v) = Returns (k, d)) ->
      exists po, Inertia.buildPageObject i res component pageProps = Returns po)
  /\ forall po,
      Inertia.buildPageObject i res component pageProps = Returns po ->
      forall k cb,
        (obj_get k merged = Some (VProp (OptionalProp cb))
         \/ exists group, obj_get k merged = Some (VProp (DeferProp cb group))) ->
        exists d, cb tt = Returns d /\ obj_get k (props po) = Some d.
Proof.
  intros Hc Ho He merged.
  pose proof (spread_NoDup (Inertia.sharedData i) (Inertia.or_empty pageProps)) as Hnd.
  fold merged in Hnd.
  assert (HN : Inertia.pickPropsToResolve i component merged = Returns merged).
  { apply pick_partial_all; [exact Hnd | now apply isPartial_true | now rewrite Ho
                            | now rewrite He]. }
  split; [exact HN|]. split.
  - intros Hall. apply (build_exists_partial i res component pageProps
                          (proj2 (isPartial_true i component) Hc) HN Hnd Hall).
  - intros po Hpo k cb Hk.
    pose proof (build_props i res component pageProps HN Hnd Hpo k) as H.
    fold merged in H.
    destruct Hk as [Hk|[group Hk]]; rewrite Hk in H; destruct H as [d [Hd Hr]];
      exists d; (split; [|exact Hr]); now apply resolveEntry_prop in Hd.
Qed.






(** The page object builder throws only what the resolution of a
    picked entry throws, or what the deferred listing throws. *)
Lemma buildPageObject_Throws
      (i : Inertia.t) (res : Response) (component : string)
      (pageProps : option PageProps) (e : string) :
  Inertia.buildPageObject i res component pageProps = Throws e ->
  (exists N k v,
     Inertia.pickPropsToResolve i component
       (spread (Inertia.sharedData i) (Inertia.or_empty pageProps)) = Returns N
     /\ In (k, v) N
     /\ Inertia.resolveEntry i res (k, v) = Throws e)
  \/ Inertia.resolveDeferredProps i component pageProps = Throws e.
Proof.
  destruct (@pick_total i component _
              (spread_NoDup (Inertia.sharedData i) (Inertia.or_empty pageProps))
              (spread_ordered _ _))
    as [N [HN _]].
  unfold Inertia.buildPageObject. rewrite HN. simpl.
  unfold Inertia.resolvePageProps.
  destruct (promise_all (Inertia.resolveEntry i res) N) as [es|e'] eqn:Hes; simpl.
  - destruct (Inertia.resolveDeferredProps i component pageProps) as [g|e'']; simpl;
      [discriminate|].
    intros [= ->]. now right.
  - intros [= ->]. apply promise_all_Throws in Hes. destruct Hes as [[k v] [Hin Hx]].
    left. exists N, k, v. auto.
Qed.

(** The aliasing of [newProps] and [props]: on a partial reload with an
    "except" header and no "only" header, an Always entry that the
    header names is deleted from the one object both variables name, and
    the final loop does not see it. *)
Example always_prop_excepted :
  Inertia.pickPropsToResolve (Samples.partial_reload None (Some "user")) "Home"
    (spread Samples.shared Samples.ab)
  = Returns [("theme", VData (DString "light"));
             ("a", VData (DNumber 1)); ("b", VData (DNumber 2))].
Proof. reflexivity. Qed.

(** The names that are not plain keys: a listed [__proto__] creates no
    property, a listed [constructor] is bound to [Object], and a listed
    array index is put before the keys that were created earlier. *)
Example listed_names_of_object_members :
  Inertia.pickPropsToResolve
    (Samples.partial_reload (Some "__proto__,a,constructor,7") None) "Home"
    (spread Samples.shared Samples.ab)
  = Returns [("7", VData DUndefined);
             ("a", VData (DNumber 1));
             ("constructor", VInherited "constructor");
             ("user", Inertia.always (Samples.returns (DString "ada")))].
Proof. reflexivity. Qed.

(** ** The deferred and merge listings *)

(** C5. In every page object that is built, the deferred listing is
    present only when the request is not a partial request for the
    rendered component and the per-call props have a Deferred entry; it
    then maps each group to the keys of the Deferred entries of the
    per-call props that declare that group, in the order of the
    entries, and has no other group. It is absent when the request is
    partial or the per-call props have no Deferred entry. *)
Theorem deferred_props_listing
  (i : Inertia.t) (res : Response) (component : string) (pageProps : option PageProps)
  (po : PageObject) :
  Inertia.buildPageObject i res component pageProps = Returns po ->
  let entries := match pageProps with Some p => p | None => [] end in
  let declared (g : string) (e : string * value) :=
    match snd e with
    | VProp (DeferProp _ g') => g' =? g
    | _ => false
    end in
  match deferredProps po with
  | Some groups =>
      getHeader (Inertia.adapter i) InertiaHeaders.PartialComponent <> Some component
      /\ (exists k cb g, In (k, VProp (DeferProp cb g)) entries)
      /\ forall g, obj_get g groups =
                     match map fst (filter (declared g) entries) with
                     | [] => None
                     | keys => Some keys
                     end
  | None =>
      getHeader (Inertia.adapter i) InertiaHeaders.PartialComponent = Some component
      \/ forall k cb g, ~ In (k, VProp (DeferProp cb g)) entries
  end.
Proof.
  intros Hpo entries declared. apply buildPageObject_Returns in Hpo.
  destruct Hpo as [N [_ [_ [_ Hdef]]]].
  apply resolveDeferredProps_listing in Hdef.
  change (Inertia.or_empty pageProps) with entries in Hdef.
  destruct (deferredProps po) as [groups|].
  - destruct Hdef as [Hp [Hex Hg]]. split; [now apply isPartial_false|]. split; assumption.
  - destruct Hdef as [Hp|Hno]; [left; now apply isPartial_true | now right].
Qed.

(** The example of the specification: [x] and [y] deferred in [g1] and
    [z] in [g2] are listed as [g1: x, y] and [g2: z]. *)
Example deferred_props_g1_g2 :
  Inertia.resolveDeferredProps Samples.first_visit "Home" (Some Samples.deferred) =
    Returns (Some [("g1", ["x"; "y"]); ("g2", ["z"])]).
Proof. reflexivity. Qed.

(** No page object is built on a first load when a Deferred entry of the
    per-call props declares a group that has the name of a member of
    [Object.prototype]: the listing cannot be computed. *)
Lemma deferred_group_named_after_a_member
      (i : Inertia.t) (res : Response) (component : string) (pageProps : PageProps)
      (k : string) (cb : Callback) (g : string) :
  getHeader (Inertia.adapter i) InertiaHeaders.PartialComponent <> Some component ->
  In (k, VProp (DeferProp cb g)) pageProps ->
  inherited g = true ->
  exists e, Inertia.buildPageObject i res component (Some pageProps) = Throws e.
Proof.
  intros Hh Hin Hg. apply isPartial_false in Hh.
  destruct (resolveDeferredProps_Throws i component (Some pageProps) k cb g Hh Hin Hg)
    as [err Herr].
  unfold Inertia.buildPageObject.
  destruct (Inertia.pickPropsToResolve _ _ _) as [N|e]; simpl; [|eauto].
  destruct (Inertia.resolvePageProps i res N) as [r|e]; simpl; [|eauto].
  rewrite Herr. simpl. eauto.
Qed.









(** The example of the specification: one Merge prop [m] and the reset
    header [m] give no merge listing. *)
Example merge_props_reset_m :
  Inertia.resolveMergeProps
    (Samples.inertia "GET" [("x-inertia", "true"); ("x-inertia-reset", "m")])
    (Some Samples.merged_m) = None
  /\ Inertia.resolveMergeProps (Samples.inertia "GET" [("x-inertia", "true")])
       (Some Samples.merged_m) = Some ["m"].
Proof. split; reflexivity. Qed.

(** ** Redirects *)

Lemma truthy_string_true (s : string) : truthy_string s = true <-> s <> "".
Proof. unfold truthy_string. rewrite negb_true_iff. apply String.eqb_neq. Qed.

Lemma unsafe_method (method : string) :
  In method ["PUT"; "PATCH"; "DELETE"] ->
  existsb (String.eqb (or_else method "HEAD")) ["PUT"; "PATCH"; "DELETE"] = true.
Proof.
  intros [<-|[<-|[<-|[]]]]; reflexivity.
Qed.

(** C7. A call [redirect(url)] with a non-empty URL sets the [Vary]
    header and asks the adapter to redirect with status 302 when the
    request method is GET, and with status 303 when it is PUT, PATCH or
    DELETE. A call in which no URL is resolvable (an empty URL, or a
    status with no URL or an empty one) throws and leaves the response as
    it was. *)
Theorem redirect_default_status (i : Inertia.t) (url : string) (unused : option string) :
  url <> "" ->
  (getMethod (Inertia.adapter i) = "GET" ->
   Inertia.redirect i (Url url) unused =
     (setHeader (Inertia.adapter i) "Vary" InertiaHeaders.Inertia ;;;
      redirect (Inertia.adapter i) (Status 302) (Some url)))
  /\ (In (getMethod (Inertia.adapter i)) ["PUT"; "PATCH"; "DELETE"] ->
      Inertia.redirect i (Url url) unused =
        (setHeader (Inertia.adapter i) "Vary" InertiaHeaders.Inertia ;;;
         redirect (Inertia.adapter i) (Status 303) (Some url)))
  /\ forall (status : Z) (res : Response),
      Inertia.redirect i (Url "") unused res = (Throws Inertia.url_required, res)
      /\ Inertia.redirect i (Status status) None res = (Throws Inertia.url_required, res)
      /\ Inertia.redirect i (Status status) (Some "") res
         = (Throws Inertia.url_required, res).
Proof.
  intros Hurl. apply truthy_string_true in Hurl.
  split; [|split].
  - intros Hm. unfold Inertia.redirect. rewrite Hurl, Hm. reflexivity.
  - intros Hm. unfold Inertia.redirect. rewrite Hurl. cbn [negb].
    rewrite (unsafe_method Hm). reflexivity.
  - intros status res. repeat split.
Qed.

(** C10. A call [redirect(302, url)] with a non-empty URL, on a PUT,
    PATCH or DELETE request, asks the adapter to redirect with status
    303, exactly as the call [redirect(url)] does; a caller-supplied
    status other than 302 is passed on as it is. *)
Theorem redirect_explicit_302_upgraded (i : Inertia.t) (url : string) :
  url <> "" ->
  In (getMethod (Inertia.adapter i)) ["PUT"; "PATCH"; "DELETE"] ->
  Inertia.redirect i (Status 302) (Some url) =
    (setHeader (Inertia.adapter i) "Vary" InertiaHeaders.Inertia ;;;
     redirect (Inertia.adapter i) (Status 303) (Some url))
  /\ Inertia.redirect i (Status 302) (Some url) = Inertia.redirect i (Url url) None
  /\ forall status : Z,
      status <> 302%Z ->
      Inertia.redirect i (Status status) (Some url) =
        (setHeader (Inertia.adapter i) "Vary" InertiaHeaders.Inertia ;;;
         redirect (Inertia.adapter i) (Status status) (Some url)).
Proof.
  intros Hurl Hm. apply truthy_string_true in Hurl.
  split; [|split].
  - unfold Inertia.redirect. rewrite Hurl. cbn [negb].
    rewrite (unsafe_method Hm). reflexivity.
  - reflexivity.
  - intros status Hs. unfold Inertia.redirect. rewrite Hurl. cbn [negb].
    apply Z.eqb_neq in Hs. rewrite Hs. reflexivity.
Qed.

(** What [HttpAdapter.redirect] writes as the status of the response. *)
Lemma http_redirect_status (request : Request) (status : Z) (location : string)
      (res : Response) :
  ServerResponse.valid_status status = true ->
  let '(result, res') := HttpAdapter.redirect request (Status status) (Some location) res in
  result = Returns tt /\ statusCode res' = status /\ res_ended res' = true.
Proof.
  intros Hv. unfold HttpAdapter.redirect, bindM, ServerResponse.end_. simpl.
  destruct (HttpAdapter.getMethod request =? "HEAD"); simpl; rewrite Hv; auto.
Qed.

Example redirect_put_then_get :
  statusCode (snd (Inertia.redirect (Samples.inertia "PUT" []) (Url "/next") None
                     Samples.response)) = 303%Z
  /\ statusCode (snd (Inertia.redirect (Samples.inertia "GET" []) (Url "/next") None
                        Samples.response)) = 302%Z.
Proof. split; reflexivity. Qed.

(** ** JSON dispatch *)

(** [HttpAdapter.json] has no handler: when the data cannot be encoded
    the exception leaves [json], after the content type was set and
    before anything else is written. *)
Lemma http_json_throws (d : data) (e : string) (res : Response) :
  stringify d = Throws e ->
  HttpAdapter.json d res =
    (Throws e,
     mkResponse (statusCode res)
                (obj_set "content-type" "application/json" (res_headers res))
                (res_body res) (res_ended res)).
Proof.
  intros H. unfold HttpAdapter.json, bindM, lift, ServerResponse.setHeader. simpl.
  now rewrite H.
Qed.


(** On a protocol request served through [HttpAdapter], a page object
    that cannot be encoded makes [render] throw. *)
Lemma render_json_propagates
      (request : Request) (config : ResolvedConfig) (runtime : Runtime)
      (shared : SharedData) (clear encrypt : bool)
      (component : string) (pageProps : option PageProps)
      (res : Response) (po : PageObject) (e : string) :
  let i := Inertia.mk (HttpAdapter.new request) config runtime shared clear encrypt in
  truthy_header (HttpAdapter.getHeader request InertiaHeaders.Inertia) = true ->
  Inertia.buildPageObject i res component pageProps = Returns po ->
  stringify (PageObject_data po) = Throws e ->
  Inertia.render i component pageProps res =
    (Throws e,
     mkResponse (statusCode res)
                (obj_set "content-type" "application/json"
                   (obj_set "x-inertia" "true" (res_headers res)))
                (res_body res) (res_ended res)).
Proof.
  intros i Hx Hpo He. unfold Inertia.render, bindM, lift. rewrite Hpo.
  unfold i at 1; cbn [Inertia.adapter HttpAdapter.new getHeader]. rewrite Hx.
  cbn [negb]. unfold i; cbn [Inertia.adapter HttpAdapter.new setHeader json].
  unfold HttpAdapter.setHeader, ServerResponse.setHeader at 1.
  rewrite (http_json_throws _ _ He). reflexivity.
Qed.

(** C8, at the failing input. A protocol request served through the
    [HttpAdapter] of the current [Adapter] interface renders a page
    whose prop [self] refers to itself: [JSON.stringify] throws inside
    [json], nothing catches it, and [render] throws with the status still
    200 and no body written. The [json] of the other adapter, given the
    same page object, answers 500 with the JSON error body. *)
Theorem circular_page_object_is_not_caught :
  Inertia.render Samples.protocol_visit "Home" (Some Samples.circular) Samples.response =
    (Throws circular_error,
     mkResponse 200 [("x-inertia", "true"); ("content-type", "application/json")] None false)
  /\ exists po,
      Inertia.buildPageObject Samples.protocol_visit Samples.response "Home"
        (Some Samples.circular) = Returns po
      /\ stringify (PageObject_data po) = Throws circular_error
      /\ HttpAdapterIndex.json (PageObject_data po) Samples.response =
           (Returns tt,
            mkResponse 500 [("content-type", "application/json")]
                       (Some ("{" ++ quote "error" ++ ":"
                                  ++ quote "Failed to serialize JSON" ++ "}")%string)
                       true).
Proof.
  split; [reflexivity|].
  eexists. split; [reflexivity|]. split; reflexivity.
Qed.

(** ** The theorems at the sample requests *)

Lemma first_load_witness :
  getHeader (Inertia.adapter Samples.first_visit) InertiaHeaders.PartialComponent
    <> Some "Home"
  /\ exists po,
      Inertia.buildPageObject Samples.first_visit Samples.response "Home"
        (Some Samples.home) = Returns po
      /\ obj_has "lazy" (props po) = false
      /\ obj_has "stats" (props po) = false
      /\ obj_has "title" (props po) = true
      /\ obj_has "visits" (props po) = true
      /\ obj_has "feed" (props po) = true
      /\ obj_has "now" (props po) = true
      /\ obj_has "user" (props po) = true.
Proof.
  assert (H : getHeader (Inertia.adapter Samples.first_visit)
                InertiaHeaders.PartialComponent <> Some "Home")
    by (vm_compute; discriminate).
  split; [exact H|].
  destruct (first_load_drops_optional_and_deferred
              Samples.first_visit Samples.response (Some Samples.home) H) as [_ Hk].
  destruct (Inertia.buildPageObject Samples.first_visit Samples.response "Home"
              (Some Samples.home)) as [po|e] eqn:Hpo;
    [|vm_compute in Hpo; discriminate Hpo].
  exists po. split; [reflexivity|].
  repeat split.
  - exact (Hk po eq_refl "lazy" _ eq_refl).
  - exact (Hk po eq_refl "stats" _ eq_refl).
  - exact (Hk po eq_refl "title" _ eq_refl).
  - exact (Hk po eq_refl "visits" _ eq_refl).
  - exact (Hk po eq_refl "feed" _ eq_refl).
  - exact (Hk po eq_refl "now" _ eq_refl).
  - exact (Hk po eq_refl "user" _ eq_refl).
Defined.


Lemma other_component_witness :
  getHeader (Inertia.adapter Samples.stale_reload) InertiaHeaders.PartialComponent
    = Some "Dashboard"
  /\ "Dashboard" <> "Home"
  /\ Inertia.isPartial Samples.stale_reload "Home" = false
  /\ exists po,
      Inertia.buildPageObject Samples.stale_reload Samples.response "Home"
        (Some Samples.home) = Returns po
      /\ obj_has "lazy" (props po) = false
      /\ obj_has "title" (props po) = true.
Proof.
  assert (Hh : getHeader (Inertia.adapter Samples.stale_reload)
                 InertiaHeaders.PartialComponent = Some "Dashboard") by reflexivity.
  assert (Hne : "Dashboard" <> "Home") by discriminate.
  split; [exact Hh|]. split; [exact Hne|].
  destruct (other_component_is_not_partial
              Samples.stale_reload Samples.response (Some Samples.home) Hh Hne)
    as [Hp [_ [_ Hk]]].
  split; [exact Hp|].
  destruct (Inertia.buildPageObject Samples.stale_reload Samples.response "Home"
              (Some Samples.home)) as [po|e] eqn:Hpo;
    [|vm_compute in Hpo; discriminate Hpo].
  exists po. split; [reflexivity|]. split.
  - exact (Hk po eq_refl "lazy" _ eq_refl).
  - exact (Hk po eq_refl "title" _ eq_refl).
Defined.


Lemma deferred_props_witness :
  exists po,
    Inertia.buildPageObject Samples.first_visit Samples.response "Home"
      (Some Samples.deferred) = Returns po
    /\ exists groups,
        deferredProps po = Some groups
        /\ obj_get "g1" groups = Some ["x"; "y"]
        /\ obj_get "g2" groups = Some ["z"]
        /\ obj_get "g3" groups = None.
Proof.
  destruct (Inertia.buildPageObject Samples.first_visit Samples.response "Home"
              (Some Samples.deferred)) as [po|e] eqn:Hb;
    [|vm_compute in Hb; discriminate Hb].
  exists po. split; [reflexivity|].
  pose proof (@deferred_props_listing Samples.first_visit Samples.response "Home"
                (Some Samples.deferred) po Hb) as H.
  cbv zeta in H. destruct (deferredProps po) as [groups|].
  - destruct H as [_ [_ Hg]]. exists groups. split; [reflexivity|].
    rewrite !Hg. repeat split.
  - exfalso. destruct H as [H|H].
    + vm_compute in H. discriminate H.
    + apply (H "x" (Samples.returns DNull) "g1"). left. reflexivity.
Defined.


Lemma redirect_default_witness :
  "/next" <> ""
  /\ getMethod (Inertia.adapter (Samples.inertia "GET" [])) = "GET"
  /\ Inertia.redirect (Samples.inertia "GET" []) (Url "/next") None =
       (setHeader (Inertia.adapter (Samples.inertia "GET" [])) "Vary" InertiaHeaders.Inertia ;;;
        redirect (Inertia.adapter (Samples.inertia "GET" [])) (Status 302) (Some "/next"))
  /\ In (getMethod (Inertia.adapter (Samples.inertia "PUT" []))) ["PUT"; "PATCH"; "DELETE"]
  /\ Inertia.redirect (Samples.inertia "PUT" []) (Url "/next") None =
       (setHeader (Inertia.adapter (Samples.inertia "PUT" [])) "Vary" InertiaHeaders.Inertia ;;;
        redirect (Inertia.adapter (Samples.inertia "PUT" [])) (Status 303) (Some "/next")).
Proof.
  assert (Hurl : "/next" <> "") by discriminate.
  assert (Hput : In (getMethod (Inertia.adapter (Samples.inertia "PUT" [])))
                    ["PUT"; "PATCH"; "DELETE"]) by (simpl; auto).
  split; [exact Hurl|]. split; [reflexivity|]. split; [|split; [exact Hput|]].
  - exact (proj1 (redirect_default_status (Samples.inertia "GET" []) None Hurl) eq_refl).
  - exact (proj1 (proj2 (redirect_default_status (Samples.inertia "PUT" []) None Hurl)) Hput).
Defined.

Lemma unconstrained_partial_witness :
  let i := Samples.partial_reload None None in
  getHeader (Inertia.adapter i) InertiaHeaders.PartialComponent = Some "Home"
  /\ getHeader (Inertia.adapter i) InertiaHeaders.PartialOnly = None
  /\ getHeader (Inertia.adapter i) InertiaHeaders.PartialExcept = None
  /\ exists po,
      Inertia.buildPageObject i Samples.response "Home" (Some Samples.home) = Returns po
      /\ obj_get "lazy" (props po) = Some (DNumber 1)
      /\ obj_get "stats" (props po) = Some (DNumber 2).
Proof.
  intros i.
  assert (Hc : getHeader (Inertia.adapter i) InertiaHeaders.PartialComponent = Some "Home")
    by reflexivity.
  assert (Ho : getHeader (Inertia.adapter i) InertiaHeaders.PartialOnly = None)
    by reflexivity.
  assert (He : getHeader (Inertia.adapter i) InertiaHeaders.PartialExcept = None)
    by reflexivity.
  split; [exact Hc|]. split; [exact Ho|]. split; [exact He|].
  destruct (unconstrained_partial_resolves_optional_and_deferred
              i Samples.response (Some Samples.home) Hc Ho He) as [_ [_ Hk]].
  destruct (Inertia.buildPageObject i Samples.response "Home" (Some Samples.home))
    as [po|e] eqn:Hpo; [|vm_compute in Hpo; discriminate Hpo].
  exists po. split; [reflexivity|]. split.
  - destruct (Hk po eq_refl "lazy" (Samples.returns (DNumber 1)) (or_introl eq_refl))
      as [d [Hd Hr]].
    unfold Samples.returns in Hd. congruence.
  - destruct (Hk po eq_refl "stats" (Samples.returns (DNumber 2))
                 (or_intror (ex_intro _ "default" eq_refl))) as [d [Hd Hr]].
    unfold Samples.returns in Hd. congruence.
Defined.

Lemma redirect_explicit_witness :
  "/next" <> ""
  /\ In (getMethod (Inertia.adapter (Samples.inertia "DELETE" []))) ["PUT"; "PATCH"; "DELETE"]
  /\ Inertia.redirect (Samples.inertia "DELETE" []) (Status 302) (Some "/next") =
       (setHeader (Inertia.adapter (Samples.inertia "DELETE" [])) "Vary"
                  InertiaHeaders.Inertia ;;;
        redirect (Inertia.adapter (Samples.inertia "DELETE" [])) (Status 303) (Some "/next")).
Proof.
  assert (Hurl : "/next" <> "") by discriminate.
  assert (Hm : In (getMethod (Inertia.adapter (Samples.inertia "DELETE" [])))
                  ["PUT"; "PATCH"; "DELETE"]) by (simpl; auto).
  split; [exact Hurl|]. split; [exact Hm|].
  exact (proj1 (redirect_explicit_302_upgraded (Samples.inertia "DELETE" []) Hurl Hm)).
Defined.

(* ================================================================== *)
(** * Further properties of the filter and the builder                   *)
(* ================================================================== *)

Lemma falsy_header (h : option string) :
  h = None \/ h = Some "" -> truthy_header h = false.
Proof. intros [->| ->]; reflexivity. Qed.

(** X1. On a partial request for the rendered component that has a
    non-empty "except" header and no (or an empty) "only" header, the
    resolved props are the merged props less the keys the header names:
    a named key is absent, whatever its entry is (an Always entry
    included), and every other entry is resolved and present. A page
    object is built as soon as the entries that are not named resolve. *)
Theorem except_header_drops_named_keys
  (i : Inertia.t) (res : Response) (component : string) (pageProps : option PageProps)
  (h : string) :
  getHeader (Inertia.adapter i) InertiaHeaders.PartialComponent = Some component ->
  (getHeader (Inertia.adapter i) InertiaHeaders.PartialOnly = None
   \/ getHeader (Inertia.adapter i) InertiaHeaders.PartialOnly = Some "") ->
  getHeader (Inertia.adapter i) InertiaHeaders.PartialExcept = Some h ->
  h <> "" ->
  let merged := spread (Inertia.sharedData i) (Inertia.or_empty pageProps) in
  ((forall k v, obj_get k merged = Some v -> ~ In k (split_filter h) ->
                exists d, Inertia.resolveEntry i res (k, v) = Returns (k, d)) ->
   exists po, Inertia.buildPageObject i res component pageProps = Returns po)
  /\ forall po,
      Inertia.buildPageObject i res component pageProps = Returns po ->
      forall k,
        (In k (split_filter h) -> obj_has k (props po) = false)
        /\ (obj_get k merged = None -> obj_has k (props po) = false)
        /\ (~ In k (split_filter h) ->
            forall v, obj_get k merged = Some v ->
              exists d, Inertia.resolveEntry i res (k, v) = Returns (k, d)
                        /\ obj_get k (props po) = Some d).
Proof.
  intros Hc Ho He Hne merged.
  pose proof (spread_NoDup (Inertia.sharedData i) (Inertia.or_empty pageProps)) as Hnd.
  fold merged in Hnd.
  pose proof (@pick_partial_except i component merged Hnd h
                (proj2 (isPartial_true i component) Hc) (falsy_header Ho) He
                (proj2 (truthy_string_true h) Hne)) as HN.
  set (N := fold_left (fun props key => obj_delete key props) (split_filter h) merged) in HN.
  assert (HNnd : NoDup (obj_keys N)) by (now apply except_loop_NoDup).
  assert (Hget : forall k, obj_get k N =
                   if set_has (split_filter h) k then None else obj_get k merged)
    by (intros k; apply except_loop_get).
  split.
  - intros Hall.
    apply (build_exists_partial i res component pageProps
             (proj2 (isPartial_true i component) Hc) HN HNnd).
    intros k v. rewrite Hget. destruct (set_has (split_filter h) k) eqn:Hs; [discriminate|].
    intros Hv. apply Hall; [exact Hv | now apply set_has_not_In].
  - intros po Hpo k.
    pose proof (build_props i res component pageProps HN HNnd Hpo k) as H.
    rewrite Hget in H. split; [|split].
    + intros Hin. apply set_has_In in Hin. rewrite Hin in H.
      unfold obj_has. now rewrite H.
    + intros Hnone. fold merged in H. rewrite Hnone in H.
      destruct (set_has (split_filter h) k); unfold obj_has; now rewrite H.
    + intros Hin v Hv. apply set_has_not_In in Hin. rewrite Hin in H.
      fold merged in H. now rewrite Hv in H.
Qed.

(** X2. An Always entry of the merged props is resolved and present in
    the page object on every request that is not a partial reload with
    an "except" header and no "only" header: on first loads, on partial
    reloads with an "only" header (listed or not, excepted or not), and
    on partial reloads without a non-empty "except" header. The key
    [__proto__] is set apart: the loop that puts the Always entries back
    assigns to it, which creates no property. *)
Theorem always_props_are_kept
  (i : Inertia.t) (res : Response) (component : string) (pageProps : option PageProps) :
  (getHeader (Inertia.adapter i) InertiaHeaders.PartialComponent <> Some component
   \/ (exists h, getHeader (Inertia.adapter i) InertiaHeaders.PartialOnly = Some h
                 /\ h <> "")
   \/ getHeader (Inertia.adapter i) InertiaHeaders.PartialExcept = None
   \/ getHeader (Inertia.adapter i) InertiaHeaders.PartialExcept = Some "") ->
  let merged := spread (Inertia.sharedData i) (Inertia.or_empty pageProps) in
  forall po,
    Inertia.buildPageObject i res component pageProps = Returns po ->
    forall k cb,
      k <> "__proto__" ->
      obj_get k merged = Some (VProp (AlwaysProp cb)) ->
      exists d, cb tt = Returns d /\ obj_get k (props po) = Some d.
Proof.
  intros Hmode merged po Hpo k cb Hproto Hk. apply String.eqb_neq in Hproto.
  pose proof (spread_NoDup (Inertia.sharedData i) (Inertia.or_empty pageProps)) as Hnd.
  fold merged in Hnd.
  assert (Hgoal : forall N,
             Inertia.pickPropsToResolve i component merged = Returns N ->
             NoDup (obj_keys N) ->
             obj_get k N = Some (VProp (AlwaysProp cb)) ->
             exists d, cb tt = Returns d /\ obj_get k (props po) = Some d).
  { intros N HN HNnd HkN.
    pose proof (build_props i res component pageProps HN HNnd Hpo k) as H.
    rewrite HkN in H. destruct H as [d [Hd Hr]]. exists d.
    split; [now apply resolveEntry_prop in Hd | exact Hr]. }
  destruct (Inertia.isPartial i component) eqn:Hp.
  - destruct (truthy_header (getHeader (Inertia.adapter i) InertiaHeaders.PartialOnly))
      eqn:Ho.
    + apply truthy_header_true in Ho. destruct Ho as [h [Ho Ht]].
      destruct (@pick_partial_only i component merged Hnd h Hp Ho Ht)
        as [N [HN [HNnd Hget]]].
      apply (Hgoal N HN HNnd). rewrite Hget, (read_Some _ _ Hk), Hproto. reflexivity.
    + assert (He : truthy_header
                     (getHeader (Inertia.adapter i) InertiaHeaders.PartialExcept) = false).
      { destruct Hmode as [H|[[h [H Hne]]|H]].
        - apply isPartial_false in H. congruence.
        - rewrite H in Ho. simpl in Ho. apply truthy_string_true in Hne. congruence.
        - now apply falsy_header. }
      apply (Hgoal merged); [now apply pick_partial_all | exact Hnd | exact Hk].
  - pose proof (first_load_props i res component pageProps Hp Hpo k Hk) as H.
    cbn [Props.ignoreFirstLoad] in H. destruct H as [d [Hd Hr]]. exists d.
    split; [now apply resolveEntry_prop in Hd | exact Hr].
Qed.

(** X3. A partial request whose "only" and "except" headers are empty
    strings is filtered like one that has neither: every entry of the
    merged props is kept. *)
Theorem empty_headers_are_no_constraint
  (i : Inertia.t) (component : string) (pageProps : option PageProps) :
  getHeader (Inertia.adapter i) InertiaHeaders.PartialComponent = Some component ->
  (getHeader (Inertia.adapter i) InertiaHeaders.PartialOnly = None
   \/ getHeader (Inertia.adapter i) InertiaHeaders.PartialOnly = Some "") ->
  (getHeader (Inertia.adapter i) InertiaHeaders.PartialExcept = None
   \/ getHeader (Inertia.adapter i) InertiaHeaders.PartialExcept = Some "") ->
  let merged := spread (Inertia.sharedData i) (Inertia.or_empty pageProps) in
  Inertia.pickPropsToResolve i component merged = Returns merged.
Proof.
  intros Hc Ho He merged. apply pick_partial_all.
  - apply spread_NoDup.
  - now apply isPartial_true.
  - now apply falsy_header.
  - now apply falsy_header.
Qed.

(** X4. A function prop is never left out of a first load, whatever it
    returns: when it returns a wrapper (an Optional or Deferred one
    included), the callback of the wrapper is invoked and what it
    returns is in the resolved props. *)
Theorem function_prop_is_resolved_on_first_load
  (i : Inertia.t) (res : Response) (component : string) (pageProps : option PageProps)
  (k : string) (f : Request -> Response -> outcome result) (p : PropVariant) :
  getHeader (Inertia.adapter i) InertiaHeaders.PartialComponent <> Some component ->
  let merged := spread (Inertia.sharedData i) (Inertia.or_empty pageProps) in
  obj_get k merged = Some (VFunction f) ->
  f (getRequest (Inertia.adapter i)) res = Returns (RProp p) ->
  forall po,
    Inertia.buildPageObject i res component pageProps = Returns po ->
    exists d, Props.callback p tt = Returns d /\ obj_get k (props po) = Some d.
Proof.
  intros Hh merged Hk Hf po Hpo. apply isPartial_false in Hh.
  pose proof (first_load_props i res component pageProps Hh Hpo k Hk) as H.
  cbn [Props.ignoreFirstLoad] in H. destruct H as [d [Hd Hr]].
  exists d. split; [|exact Hr].
  unfold Inertia.resolveEntry in Hd. rewrite Hf in Hd. simpl in Hd.
  destruct (Props.callback p tt); simpl in Hd; congruence.
Qed.

Lemma deferred_listing_keys
      (i : Inertia.t) (component : string) (pageProps : option PageProps)
      (groups : object (list string)) (g : string) (keys : list string) :
  Inertia.resolveDeferredProps i component pageProps = Returns (Some groups) ->
  obj_get g groups = Some keys ->
  Inertia.isPartial i component = false
  /\ keys = map fst (filter (fun e => match snd e with
                                      | VProp (DeferProp _ g') => g' =? g
                                      | _ => false
                                      end) (Inertia.or_empty pageProps)).
Proof.
  intros Hr Hg. apply resolveDeferredProps_listing in Hr. destruct Hr as [Hp [_ Hget]].
  split; [exact Hp|]. rewrite Hget in Hg.
  destruct (map fst _) eqn:E; [discriminate|]. now injection Hg as <-.
Qed.

Lemma deferred_listing_has
      (i : Inertia.t) (component : string) (pageProps : option PageProps)
      (k : string) (cb : Callback) (g : string) (r : option (object (list string))) :
  Inertia.isPartial i component = false ->
  In (k, VProp (DeferProp cb g)) (Inertia.or_empty pageProps) ->
  Inertia.resolveDeferredProps i component pageProps = Returns r ->
  exists groups keys,
    r = Some groups /\ obj_get g groups = Some keys /\ In k keys.
Proof.
  intros Hp Hin Hr. apply resolveDeferredProps_listing in Hr.
  destruct r as [groups|].
  - destruct Hr as [_ [_ Hget]]. exists groups.
    assert (Hk : In k (map fst (filter (fun e => match snd e with
                                                 | VProp (DeferProp _ g') => g' =? g
                                                 | _ => false
                                                 end) (Inertia.or_empty pageProps)))).
    { apply in_map_iff. exists (k, VProp (DeferProp cb g)). split; [reflexivity|].
      apply filter_In. split; [exact Hin|]. simpl. apply String.eqb_refl. }
    specialize (Hget g). destruct (map fst _) as [|k0 keys]; [destruct Hk|].
    exists (k0 :: keys). auto.
  - exfalso. destruct Hr as [Hr|Hr]; [congruence | exact (Hr k cb g Hin)].
Qed.

(** X5. The deferred listing is drawn from the per-call props alone: a
    Deferred entry that only the shared data holds is left out of the
    props of a first load and is in no group of the listing. *)
Theorem shared_deferred_prop_is_not_listed
  (i : Inertia.t) (res : Response) (component : string) (pageProps : option PageProps)
  (k : string) (cb : Callback) (g : string) :
  getHeader (Inertia.adapter i) InertiaHeaders.PartialComponent <> Some component ->
  let merged := spread (Inertia.sharedData i) (Inertia.or_empty pageProps) in
  obj_get k merged = Some (VProp (DeferProp cb g)) ->
  obj_get k (Inertia.or_empty pageProps) = None ->
  forall po,
    Inertia.buildPageObject i res component pageProps = Returns po ->
    obj_has k (props po) = false
    /\ forall groups g' keys,
        deferredProps po = Some groups -> obj_get g' groups = Some keys -> ~ In k keys.
Proof.
  intros Hh merged Hk Hnone po Hpo. apply isPartial_false in Hh. split.
  - exact (first_load_props i res component pageProps Hh Hpo k Hk).
  - intros groups g' keys Hd Hg Hin.
    apply buildPageObject_Returns in Hpo. destruct Hpo as [N [_ [_ [_ Hdef]]]].
    rewrite Hd in Hdef. destruct (deferred_listing_keys _ _ _ _ Hdef Hg) as [_ ->].
    apply in_map_iff in Hin. destruct Hin as [[k' v] [Hk' Hin]]. simpl in Hk'. subst k'.
    apply filter_In in Hin. destruct Hin as [Hin _].
    apply obj_get_None in Hnone. apply Hnone. apply (in_map fst) in Hin. exact Hin.
Qed.

Lemma promise_all_one_throws {A B : Type} (f : A -> outcome B) (l : list A) (x : A)
      (e : string) :
  In x l -> f x = Throws e -> exists e', promise_all f l = Throws e'.
Proof.
  induction l as [|y l IH]; intros Hin Hx; [destruct Hin|]. simpl.
  destruct Hin as [->|Hin].
  - rewrite Hx. eauto.
  - destruct (f y); [|eauto]. destruct (IH Hin Hx) as [e' ->]. eauto.
Qed.

(** X6. The failure of one callback is the failure of the render: when
    the resolution of an entry that the filter keeps throws, [render]
    throws, through any adapter, and the response is left as it was. *)
Theorem callback_failure_fails_the_render
  (i : Inertia.t) (res : Response) (component : string) (pageProps : option PageProps)
  (N : PageProps) (k : string) (v : value) (e : string) :
  Inertia.pickPropsToResolve i component
    (spread (Inertia.sharedData i) (Inertia.or_empty pageProps)) = Returns N ->
  In (k, v) N ->
  Inertia.resolveEntry i res (k, v) = Throws e ->
  exists e', Inertia.render i component pageProps res = (Throws e', res).
Proof.
  intros HN Hin Hx.
  destruct (promise_all_one_throws (Inertia.resolveEntry i res) N (k, v) Hin Hx) as [e' He'].
  exists e'. unfold Inertia.render, bindM, lift, Inertia.buildPageObject.
  rewrite HN. simpl. unfold Inertia.resolvePageProps. rewrite He'. reflexivity.
Qed.

Lemma set_has_app (l1 l2 : list string) (k : string) :
  set_has (l1 ++ l2) k = set_has l1 k || set_has l2 k.
Proof. unfold set_has. apply existsb_app. Qed.

Lemma obj_has_set_has {V : Type} (k : string) (o : object V) :
  obj_has k o = set_has (obj_keys o) k.
Proof.
  destruct (obj_has k o) eqn:Hh; symmetry.
  - apply set_has_In. now apply obj_has_In.
  - apply set_has_not_In. now apply obj_has_false.
Qed.

(** A property that is created changes the order of the keys that are
    not array indices only when it is one of them: it is then the
    last. *)
Lemma obj_insert_named_keys {V : Type} (k : string) (v : V) (o : object V) :
  filter named (obj_keys (obj_insert k v o)) =
    filter named (obj_keys o) ++ (if named k then [k] else []).
Proof.
  induction o as [|[k0 v0] o IH]; cbn [obj_insert obj_keys map fst].
  - cbn [filter]. now destruct (named k).
  - destruct (key_before k k0) eqn:Hb; cbn [obj_keys map fst filter].
    + assert (Hk : named k = false).
      { unfold key_before in Hb. unfold named. destruct (array_index k); [reflexivity|].
        discriminate Hb. }
      rewrite Hk, app_nil_r. reflexivity.
    + fold (obj_keys (obj_insert k v o)). fold (obj_keys o). rewrite IH.
      now destruct (named k0).
Qed.

Lemma obj_set_named_keys {V : Type} (k : string) (v : V) (o : object V) :
  filter named (obj_keys (obj_set k v o)) =
    filter named (obj_keys o) ++ (if named k && negb (obj_has k o) then [k] else []).
Proof.
  unfold obj_set. destruct (obj_has k o).
  - now rewrite obj_keys_replace, andb_false_r, app_nil_r.
  - now rewrite obj_insert_named_keys, andb_true_r.
Qed.

(** Assigning entries keeps the keys that are not array indices in
    their order and adds the new ones after them, in the order of the
    entries. *)
Lemma fold_assign_named_keys {V : Type} (es o : object V) :
  NoDup (obj_keys es) ->
  filter named (obj_keys (fold_left assign es o)) =
    filter named (obj_keys o)
    ++ filter (fun k => named k && negb (set_has (obj_keys o) k)) (obj_keys es).
Proof.
  revert o. induction es as [|[k v] es IH]; intros o Hnd.
  - simpl. now rewrite app_nil_r.
  - inversion Hnd as [|? ? Hnotin Hnd']; subst.
    cbn [fold_left]. rewrite IH by exact Hnd'.
    change (assign o (k, v)) with (obj_set k v o).
    change (obj_keys ((k, v) :: es)) with (k :: obj_keys es).
    cbn [filter]. rewrite obj_set_named_keys, <- obj_has_set_has, <- app_assoc.
    f_equal.
    assert (Hrest : filter (fun k0 => named k0 && negb (set_has (obj_keys (obj_set k v o)) k0))
                      (obj_keys es)
                    = filter (fun k0 => named k0 && negb (set_has (obj_keys o) k0))
                        (obj_keys es)).
    { apply filter_ext_in. intros x Hx. f_equal. f_equal.
      rewrite <- !obj_has_set_has. unfold obj_has.
      rewrite obj_get_set_neq; [reflexivity|]. intros ->. contradiction. }
    rewrite Hrest. now destruct (named k && negb (obj_has k o)).
Qed.

Lemma fold_assign_In {V : Type} (es o : object V) (k : string) :
  In k (obj_keys (fold_left assign es o)) <-> In k (obj_keys es) \/ In k (obj_keys o).
Proof.
  revert o. induction es as [|[k0 v0] es IH]; intros o; cbn [fold_left].
  - simpl. tauto.
  - rewrite IH. change (assign o (k0, v0)) with (obj_set k0 v0 o).
    rewrite obj_keys_set. simpl. intuition.
Qed.

(** X7. The resolved props of a first load list the entries that are
    kept in the order of the merged props. That order is the one of an
    object: no key precedes a key that is listed before it, so that the
    keys that are array indices come first, in ascending order; the
    other keys are those of the shared data followed by those that only
    the per-call props have, each in the order of its object. *)
Theorem first_load_props_keep_their_order
  (i : Inertia.t) (res : Response) (component : string) (pageProps : option PageProps)
  (po : PageObject) :
  NoDup (obj_keys (Inertia.sharedData i)) ->
  NoDup (obj_keys (Inertia.or_empty pageProps)) ->
  getHeader (Inertia.adapter i) InertiaHeaders.PartialComponent <> Some component ->
  Inertia.buildPageObject i res component pageProps = Returns po ->
  let merged := spread (Inertia.sharedData i) (Inertia.or_empty pageProps) in
  obj_keys (props po) =
    obj_keys (filter (fun e => negb (Props.ignoreFirstLoad (snd e))) merged)
  /\ ordered merged
  /\ filter named (obj_keys merged) =
       filter named (obj_keys (Inertia.sharedData i))
       ++ filter (fun k => named k && negb (set_has (obj_keys (Inertia.sharedData i)) k))
                 (obj_keys (Inertia.or_empty pageProps)).
Proof.
  intros Hs Hp Hh Hpo merged. apply isPartial_false in Hh.
  pose proof (spread_NoDup (Inertia.sharedData i) (Inertia.or_empty pageProps)) as Hnd.
  pose proof (spread_ordered (Inertia.sharedData i) (Inertia.or_empty pageProps)) as Hord.
  fold merged in Hnd, Hord. split; [|split; [exact Hord|]].
  - apply buildPageObject_Returns in Hpo. destruct Hpo as [N [HN [Hr _]]].
    fold merged in HN. rewrite (@pick_first_load i component merged Hnd Hord Hh) in HN.
    injection HN as <-.
    apply resolvePageProps_keys in Hr;
      [exact Hr | now apply filter_NoDup_keys | now apply filter_ordered].
  - unfold merged, spread. rewrite fold_assign_named_keys by exact Hp.
    rewrite fold_assign_named_keys by exact Hs. cbn [obj_keys map filter app].
    assert (Hfirst : filter (fun k => named k && negb (set_has [] k))
                       (obj_keys (Inertia.sharedData i))
                     = filter named (obj_keys (Inertia.sharedData i))).
    { apply filter_ext. intros k. cbn [set_has existsb negb]. apply andb_true_r. }
    fold (obj_keys (Inertia.sharedData i)). rewrite Hfirst. f_equal.
    apply filter_ext. intros k. f_equal. f_equal.
    destruct (set_has (obj_keys (Inertia.sharedData i)) k) eqn:Hk.
    + apply set_has_In. apply fold_assign_In. left. now apply set_has_In.
    + apply set_has_not_In. rewrite fold_assign_In. apply set_has_not_In in Hk.
      simpl. tauto.
Qed.

(** X8. A Deferred entry of the per-call props makes the round trip the
    listing is for: the first load leaves it out of the props and lists
    its key under its group; a partial reload of the component whose
    "only" header names the key (and that has no "except" header) has no
    listing and binds the key to what the callback returns. The key
    [__proto__] is set apart: the reload assigns to it, which creates
    no property. *)
Theorem deferred_prop_round_trip
  (first later : Inertia.t) (res : Response) (component : string) (pageProps : PageProps)
  (k : string) (cb : Callback) (g h : string) :
  NoDup (obj_keys pageProps) ->
  obj_get k pageProps = Some (VProp (DeferProp cb g)) ->
  k <> "__proto__" ->
  getHeader (Inertia.adapter first) InertiaHeaders.PartialComponent <> Some component ->
  getHeader (Inertia.adapter later) InertiaHeaders.PartialComponent = Some component ->
  getHeader (Inertia.adapter later) InertiaHeaders.PartialOnly = Some h ->
  In k (split_filter h) ->
  getHeader (Inertia.adapter later) InertiaHeaders.PartialExcept = None ->
  (forall po,
     Inertia.buildPageObject first res component (Some pageProps) = Returns po ->
     obj_has k (props po) = false
     /\ exists groups keys,
         deferredProps po = Some groups /\ obj_get g groups = Some keys /\ In k keys)
  /\ forall po,
      Inertia.buildPageObject later res component (Some pageProps) = Returns po ->
      deferredProps po = None
      /\ exists d, cb tt = Returns d /\ obj_get k (props po) = Some d.
Proof.
  intros Hnd Hk Hproto Hfirst Hlater Ho Hin He. apply String.eqb_neq in Hproto.
  assert (Hm : forall i, obj_get k (spread (Inertia.sharedData i) pageProps)
                         = Some (VProp (DeferProp cb g))).
  { intros i. unfold spread. rewrite fold_assign_get by exact Hnd. now rewrite Hk. }
  apply isPartial_false in Hfirst. split.
  - intros po Hpo. split.
    + exact (first_load_props first res component (Some pageProps) Hfirst Hpo k (Hm first)).
    + apply buildPageObject_Returns in Hpo. destruct Hpo as [N [_ [_ [_ Hdef]]]].
      apply (deferred_listing_has first component (Some pageProps) k cb g Hfirst);
        [now apply obj_get_In | exact Hdef].
  - intros po Hpo. split.
    + pose proof Hpo as Hpo'. apply buildPageObject_Returns in Hpo'.
      destruct Hpo' as [N [_ [_ [_ Hdef]]]].
      rewrite (resolveDeferredProps_partial later component (Some pageProps)
                 (proj2 (isPartial_true later component) Hlater)) in Hdef.
      now injection Hdef as <-.
    + assert (Ht : truthy_string h = true).
      { apply truthy_string_true. intros ->. destruct Hin. }
      destruct (@pick_partial_only later component
                  (spread (Inertia.sharedData later) pageProps) (spread_NoDup _ _) h
                  (proj2 (isPartial_true later component) Hlater) Ho Ht)
        as [N [HN [HNnd Hget]]].
      pose proof (build_props later res component (Some pageProps) HN HNnd Hpo k) as H.
      rewrite Hget, He in H. apply set_has_In in Hin. rewrite Hin in H.
      rewrite orb_true_r, Hproto, (read_Some _ _ (Hm later)) in H.
      destruct H as [d [Hd Hr]]. exists d. split; [|exact Hr].
      now apply resolveEntry_prop in Hd.
Qed.

(** X9. [share] overlays the shared data: in the candidates of a later
    render a key is bound by the per-call props if they have it, else by
    the data that was shared last, else by what was shared before; the
    shared data keep one entry per key, and the adapter, the
    configuration and the history flags are not touched. *)
Theorem share_overlays_shared_data
  (i : Inertia.t) (shared : SharedData) (pageProps : PageProps) (k : string) :
  NoDup (obj_keys (Inertia.sharedData i)) ->
  NoDup (obj_keys shared) ->
  NoDup (obj_keys pageProps) ->
  let i' := Inertia.share i shared in
  obj_get k (spread (Inertia.sharedData i') pageProps) =
    match obj_get k pageProps with
    | Some v => Some v
    | None =>
        match obj_get k shared with
        | Some v => Some v
        | None => obj_get k (Inertia.sharedData i)
        end
    end
  /\ NoDup (obj_keys (Inertia.sharedData i'))
  /\ Inertia.adapter i' = Inertia.adapter i
  /\ Inertia.config i' = Inertia.config i
  /\ Inertia.shouldClearHistory i' = Inertia.shouldClearHistory i
  /\ Inertia.shouldEncryptHistory i' = Inertia.shouldEncryptHistory i.
Proof.
  intros Hi Hs Hp i'.
  assert (Hnd : NoDup (obj_keys (Inertia.sharedData i'))) by apply spread_NoDup.
  split; [|repeat split; exact Hnd].
  rewrite spread_get by assumption.
  destruct (obj_get k pageProps); [reflexivity|].
  unfold i', Inertia.share. cbn [Inertia.sharedData]. now apply spread_get.
Qed.

(** X10. [clearHistory()] and [encryptHistory(b)] change the flag they
    are named after and nothing else of the page object that is built:
    the page object carries the two flags of the instance, and after
    either call it is the same page object with that field set. *)
Theorem history_flags_change_only_their_field
  (i : Inertia.t) (res : Response) (name : string) (pageProps : option PageProps)
  (po : PageObject) (encrypt : bool) :
  Inertia.buildPageObject i res name pageProps = Returns po ->
  clearHistory po = Inertia.shouldClearHistory i
  /\ encryptHistory po = Inertia.shouldEncryptHistory i
  /\ Inertia.buildPageObject (Inertia.clearHistory i) res name pageProps =
       Returns (mkPageObject (ssrHead po) (ssrBody po) (component po) (url po) (version po)
                             (props po) true (encryptHistory po)
                             (mergeProps po) (deferredProps po))
  /\ Inertia.buildPageObject (Inertia.encryptHistory i encrypt) res name pageProps =
       Returns (mkPageObject (ssrHead po) (ssrBody po) (component po) (url po) (version po)
                             (props po) (clearHistory po) encrypt
                             (mergeProps po) (deferredProps po)).
Proof.
  destruct i as [a cfg rt shared clear enc]. unfold Inertia.buildPageObject.
  change (Inertia.pickPropsToResolve (Inertia.clearHistory (Inertia.mk a cfg rt shared clear enc)))
    with (Inertia.pickPropsToResolve (Inertia.mk a cfg rt shared clear enc)).
  change (Inertia.pickPropsToResolve
            (Inertia.encryptHistory (Inertia.mk a cfg rt shared clear enc) encrypt))
    with (Inertia.pickPropsToResolve (Inertia.mk a cfg rt shared clear enc)).
  cbn [Inertia.sharedData Inertia.clearHistory Inertia.encryptHistory Inertia.adapter
       Inertia.config Inertia.runtime Inertia.shouldClearHistory
       Inertia.shouldEncryptHistory].
  destruct (Inertia.pickPropsToResolve _ _ _) as [N|e]; simpl; [|discriminate].
  change (Inertia.resolvePageProps (Inertia.mk a cfg rt shared true enc))
    with (Inertia.resolvePageProps (Inertia.mk a cfg rt shared clear enc)).
  change (Inertia.resolvePageProps (Inertia.mk a cfg rt shared clear encrypt))
    with (Inertia.resolvePageProps (Inertia.mk a cfg rt shared clear enc)).
  destruct (Inertia.resolvePageProps _ res N) as [r|e]; simpl; [|discriminate].
  change (Inertia.resolveDeferredProps (Inertia.mk a cfg rt shared true enc))
    with (Inertia.resolveDeferredProps (Inertia.mk a cfg rt shared clear enc)).
  change (Inertia.resolveDeferredProps (Inertia.mk a cfg rt shared clear encrypt))
    with (Inertia.resolveDeferredProps (Inertia.mk a cfg rt shared clear enc)).
  destruct (Inertia.resolveDeferredProps _ name pageProps) as [g|e]; simpl; [|discriminate].
  intros [= <-]. repeat split.
Qed.

(* ================================================================== *)
(** * Further properties of the dispatcher and the adapters              *)
(* ================================================================== *)

(** An object always has a JSON text, unless encoding it throws. *)
Lemma stringify_object (fields : list (string * data)) :
  (exists text, stringify (DObject fields) = Returns (Some text))
  \/ exists e, stringify (DObject fields) = Throws e.
Proof.
  cbn [stringify].
  match goal with |- context [bind ?m _] => destruct m as [parts|e] end; simpl; eauto.
Qed.

Lemma stringify_page_object (po : PageObject) :
  (exists text, stringify (PageObject_data po) = Returns (Some text))
  \/ exists e, stringify (PageObject_data po) = Throws e.
Proof. unfold PageObject_data. apply stringify_object. Qed.

(** A string that does not hold the pattern is left as it is. *)
Lemma replace_absent (pat rep s : string) :
  includes pat s = false -> replace pat rep s = s.
Proof.
  induction s as [|c s IH]; cbn [includes replace].
  - destruct (prefix pat ""); [discriminate | reflexivity].
  - destruct (prefix pat (String c s)); [discriminate|].
    intros H. now rewrite IH.
Qed.

Lemma valid_status_spec (code : Z) :
  ServerResponse.valid_status code = true <-> (100 <= code <= 999)%Z.
Proof.
  unfold ServerResponse.valid_status. rewrite andb_true_iff, !Z.leb_le. tauto.
Qed.


(** [html] sets the content type and ends the response, or throws when
    the status code is not one that can be sent. *)
Lemma http_html (content : string) (res : Response) :
  HttpAdapter.html content res =
    if ServerResponse.valid_status (statusCode res)
    then (Returns tt,
          mkResponse (statusCode res) (obj_set "content-type" "text/html" (res_headers res))
                     (Some content) true)
    else (Throws (ServerResponse.invalid_status_code (statusCode res)),
          mkResponse (statusCode res) (obj_set "content-type" "text/html" (res_headers res))
                     (res_body res) (res_ended res)).
Proof.
  unfold HttpAdapter.html, bindM, ServerResponse.setHeader, ServerResponse.end_. simpl.
  now destruct (ServerResponse.valid_status (statusCode res)).
Qed.

Lemma http_json_returns (d : data) (text : option string) (res : Response) :
  stringify d = Returns text ->
  HttpAdapter.json d res =
    if ServerResponse.valid_status (statusCode res)
    then (Returns tt,
          mkResponse (statusCode res)
                     (obj_set "content-type" "application/json" (res_headers res))
                     text true)
    else (Throws (ServerResponse.invalid_status_code (statusCode res)),
          mkResponse (statusCode res)
                     (obj_set "content-type" "application/json" (res_headers res))
                     (res_body res) (res_ended res)).
Proof.
  intros H. unfold HttpAdapter.json, bindM, lift, ServerResponse.setHeader,
    ServerResponse.end_. simpl. rewrite H.
  now destruct (ServerResponse.valid_status (statusCode res)).
Qed.

Section HttpDispatch.
Variable request : Request.
Variable config : ResolvedConfig.
Variable runtime : Runtime.
Variable shared : SharedData.
Variables clear encrypt : bool.

Local Abbreviation instance :=
  (Inertia.mk (HttpAdapter.new request) config runtime shared clear encrypt).

(** [renderView] either sends the page or writes no body. *)
Lemma renderView_completes (po : PageObject) (res : Response) :
  statusCode (snd (Inertia.renderView instance po res)) = statusCode res
  /\ match fst (Inertia.renderView instance po res) with
     | Returns _ =>
         res_ended (snd (Inertia.renderView instance po res)) = true
         /\ exists b, res_body (snd (Inertia.renderView instance po res)) = Some b
     | Throws _ =>
         res_body (snd (Inertia.renderView instance po res)) = res_body res
         /\ res_ended (snd (Inertia.renderView instance po res)) = res_ended res
     end.
Proof.
  unfold Inertia.renderView, bindM, lift.
  destruct (Inertia.resolveLayout instance res) as [template|e]; [|simpl; auto].
  destruct (Inertia.truthy_option (ssrBody po)).
  - cbn [Inertia.adapter HttpAdapter.new html]. rewrite http_html.
    destruct (ServerResponse.valid_status (statusCode res)); simpl; eauto.
  - destruct (stringify (PageObject_data po)) as [text|e]; [|simpl; auto].
    cbn [Inertia.adapter HttpAdapter.new html]. rewrite http_html.
    destruct (ServerResponse.valid_status (statusCode res)); simpl; eauto.
Qed.

(** X11. Through [HttpAdapter], [render] never changes the status code,
    and it either completes the response (the response is ended with a
    body) or throws with no body written and the response not ended
    (the callbacks and the entrypoint function read the response and do
    not write to it). *)
Theorem render_completes_or_writes_no_body
  (name : string) (pageProps : option PageProps) (res : Response) :
  statusCode (snd (Inertia.render instance name pageProps res)) = statusCode res
  /\ match fst (Inertia.render instance name pageProps res) with
     | Returns _ =>
         res_ended (snd (Inertia.render instance name pageProps res)) = true
         /\ exists b, res_body (snd (Inertia.render instance name pageProps res)) = Some b
     | Throws _ =>
         res_body (snd (Inertia.render instance name pageProps res)) = res_body res
         /\ res_ended (snd (Inertia.render instance name pageProps res)) = res_ended res
     end.
Proof.
  unfold Inertia.render, bindM, lift.
  destruct (Inertia.buildPageObject instance res name pageProps) as [po|e]; [|simpl; auto].
  destruct (truthy_header (getHeader (Inertia.adapter instance) InertiaHeaders.Inertia));
    cbn [negb].
  - cbn [Inertia.adapter HttpAdapter.new setHeader json].
    unfold HttpAdapter.setHeader, ServerResponse.setHeader.
    destruct (stringify_page_object po) as [[text Ht]|[e Ht]].
    + rewrite !(http_json_returns _ _ Ht). cbn [statusCode].
      destruct (ServerResponse.valid_status (statusCode res)); simpl; eauto.
    + rewrite !(http_json_throws _ _ Ht). simpl. auto.
  - destruct (Inertia.shouldRenderOnServer instance name);
      [|apply renderView_completes].
    unfold Inertia.renderOnServer, bindM, lift.
    destruct (serverRender (Inertia.runtime instance) po) as [[head body]|e]; [|simpl; auto].
    apply renderView_completes.
Qed.

(** X12. On a protocol request served through [HttpAdapter], when the
    page object is built, its encoding does not throw and the status
    code of the response is one that can be sent, the response is the
    one it was with the marker header set to [true], the content type
    set to JSON, the JSON text of the page object as its body, and
    ended; the status code is not touched. *)
Theorem protocol_request_is_answered_in_json
  (name : string) (pageProps : option PageProps) (res : Response) (po : PageObject) :
  (exists h, HttpAdapter.getHeader request InertiaHeaders.Inertia = Some h /\ h <> "") ->
  (100 <= statusCode res <= 999)%Z ->
  Inertia.buildPageObject instance res name pageProps = Returns po ->
  (forall e, stringify (PageObject_data po) <> Throws e) ->
  exists text,
    stringify (PageObject_data po) = Returns (Some text)
    /\ Inertia.render instance name pageProps res =
         (Returns tt,
          mkResponse (statusCode res)
                     (obj_set "content-type" "application/json"
                        (obj_set "x-inertia" "true" (res_headers res)))
                     (Some text) true).
Proof.
  intros [h [Hh Hne]] Hv Hpo Hok. apply valid_status_spec in Hv.
  destruct (stringify_page_object po) as [[text Ht]|[e Ht]]; [|now apply Hok in Ht].
  exists text. split; [exact Ht|].
  unfold Inertia.render, bindM, lift. rewrite Hpo.
  cbn [Inertia.adapter HttpAdapter.new getHeader]. rewrite Hh.
  cbn [truthy_header]. rewrite (proj2 (truthy_string_true h) Hne). cbn [negb].
  cbn [HttpAdapter.new setHeader json].
  unfold HttpAdapter.setHeader, ServerResponse.setHeader. cbv beta iota.
  rewrite (http_json_returns _ _ Ht). cbn [statusCode]. now rewrite Hv.
Qed.

(** X13. On a browser request without server rendering, a layout that
    holds neither marker is sent as it is: the page object is built and
    encoded, and then dropped. *)
Theorem layout_without_markers_is_sent_unchanged
  (name : string) (pageProps : option PageProps) (res : Response) (po : PageObject)
  (template : string) :
  (HttpAdapter.getHeader request InertiaHeaders.Inertia = None
   \/ HttpAdapter.getHeader request InertiaHeaders.Inertia = Some "") ->
  ssrEnabled config = false ->
  (100 <= statusCode res <= 999)%Z ->
  Inertia.buildPageObject instance res name pageProps = Returns po ->
  (forall e, stringify (PageObject_data po) <> Throws e) ->
  Inertia.resolveLayout instance res = Returns template ->
  includes Inertia.inertiaHeadTag template = false ->
  includes Inertia.inertiaBodyTag template = false ->
  Inertia.render instance name pageProps res =
    (Returns tt,
     mkResponse (statusCode res) (obj_set "content-type" "text/html" (res_headers res))
                (Some template) true).
Proof.
  intros Hh Hssr Hv Hpo Hok Hl Hhead Hbody. apply valid_status_spec in Hv.
  destruct (stringify_page_object po) as [[text Ht]|[e Ht]]; [|now apply Hok in Ht].
  unfold Inertia.render, bindM, lift. rewrite Hpo.
  cbn [Inertia.adapter HttpAdapter.new getHeader]. rewrite (falsy_header Hh). cbn [negb].
  unfold Inertia.shouldRenderOnServer. cbn [Inertia.config]. rewrite Hssr.
  unfold Inertia.renderView, bindM, lift. rewrite Hl.
  assert (Hb : ssrBody po = None).
  { unfold Inertia.buildPageObject in Hpo.
    destruct (Inertia.pickPropsToResolve _ _ _); simpl in Hpo; [|discriminate].
    destruct (Inertia.resolvePageProps _ _ _); simpl in Hpo; [|discriminate].
    destruct (Inertia.resolveDeferredProps _ _ _); simpl in Hpo; [|discriminate].
    now injection Hpo as <-. }
  rewrite Hb. cbn [Inertia.truthy_option]. rewrite Ht.
  rewrite (replace_absent _ _ _ Hhead), (replace_absent _ _ _ Hbody).
  cbn [Inertia.adapter HttpAdapter.new html]. rewrite http_html. now rewrite Hv.
Qed.

(** X14. With server rendering enabled, a renderer that returns an empty
    body makes [render] fall back to the client-side page: the head
    fragments are not spliced into the layout, the head marker is
    removed, and the body marker becomes the root element whose
    [data-page] is the encoded page object, which then carries the
    fragments as [ssrHead] and the empty [ssrBody]. *)
Theorem empty_ssr_body_falls_back_to_client_rendering
  (name : string) (pageProps : option PageProps) (res : Response) (po : PageObject)
  (head : list string) (template text : string) :
  (HttpAdapter.getHeader request InertiaHeaders.Inertia = None
   \/ HttpAdapter.getHeader request InertiaHeaders.Inertia = Some "") ->
  ssrEnabled config = true ->
  (100 <= statusCode res <= 999)%Z ->
  Inertia.buildPageObject instance res name pageProps = Returns po ->
  serverRender runtime po = Returns (head, "") ->
  Inertia.resolveLayout instance res = Returns template ->
  stringify (PageObject_data
               (mkPageObject (Some head) (Some "") (component po) (url po) (version po)
                             (props po) (clearHistory po) (encryptHistory po)
                             (mergeProps po) (deferredProps po))) = Returns (Some text) ->
  Inertia.render instance name pageProps res =
    (Returns tt,
     mkResponse (statusCode res) (obj_set "content-type" "text/html" (res_headers res))
       (Some (replace Inertia.inertiaBodyTag
                ("<div id=" ++ String dquote "" ++ or_else (rootElementId config) "app"
                   ++ String dquote "" ++ " data-page=" ++ String dquote ""
                   ++ encode runtime text ++ String dquote "" ++ "></div>")%string
                (replace Inertia.inertiaHeadTag "" template)))
       true).
Proof.
  intros Hh Hssr Hv Hpo Hrender Hl Ht. apply valid_status_spec in Hv.
  assert (Hb : ssrHead po = None /\ ssrBody po = None).
  { unfold Inertia.buildPageObject in Hpo.
    destruct (Inertia.pickPropsToResolve _ _ _); simpl in Hpo; [|discriminate].
    destruct (Inertia.resolvePageProps _ _ _); simpl in Hpo; [|discriminate].
    destruct (Inertia.resolveDeferredProps _ _ _); simpl in Hpo; [|discriminate].
    now injection Hpo as <-. }
  destruct Hb as [Hhead Hbody].
  unfold Inertia.render, bindM, lift. rewrite Hpo.
  cbn [Inertia.adapter HttpAdapter.new getHeader]. rewrite (falsy_header Hh). cbn [negb].
  unfold Inertia.shouldRenderOnServer. cbn [Inertia.config]. rewrite Hssr.
  unfold Inertia.renderOnServer, bindM, lift. cbn [Inertia.runtime]. rewrite Hrender.
  rewrite Hhead, Hbody.
  unfold Inertia.renderView, bindM, lift. rewrite Hl.
  cbn [ssrBody Inertia.truthy_option truthy_string String.eqb negb]. rewrite Ht.
  cbn [Inertia.adapter Inertia.config Inertia.runtime HttpAdapter.new html].
  rewrite http_html. now rewrite Hv.
Qed.
End HttpDispatch.

Lemma http_method_not_empty (request : Request) : HttpAdapter.getMethod request <> "".
Proof.
  unfold HttpAdapter.getMethod, or_default, or_else, truthy_string.
  destruct (req_method request) as [m|]; [|discriminate].
  destruct (String.eqb_spec m ""); simpl; [discriminate | assumption].
Qed.

Lemma or_else_left (left right : string) : left <> "" -> or_else left right = left.
Proof. intros H. unfold or_else. now rewrite (proj2 (truthy_string_true left) H). Qed.

(** What [HttpAdapter.redirect] does once the status and the location
    are settled. *)
Lemma http_redirect_writes (request : Request) (statusOrUrl : StatusOrUrl)
      (url : option string) (res : Response) :
  let status := match statusOrUrl, url with
                | Status n, Some _ => n
                | _, _ => 302%Z
                end in
  let location := match statusOrUrl, url with
                  | Status _, Some u => u
                  | Status _, None => ""
                  | Url u, _ => u
                  end in
  let body := HttpAdapter.redirect_body request status (encodeURI location) in
  let headers :=
    obj_set "content-length" (Z_to_string (Z.of_nat (String.length body)))
      (obj_set "location" (encodeURI location) (res_headers res)) in
  HttpAdapter.redirect request statusOrUrl url res =
    if ServerResponse.valid_status status
    then (Returns tt,
          mkResponse status headers
            (if HttpAdapter.getMethod request =? "HEAD" then None else Some body) true)
    else (Throws (ServerResponse.invalid_status_code status),
          mkResponse status headers (res_body res) (res_ended res)).
Proof.
  unfold HttpAdapter.redirect, bindM, ServerResponse.setHeader,
    ServerResponse.setStatusCode, ServerResponse.end_.
  change (toLowerCase "Content-Length") with "content-length".
  change (toLowerCase "Location") with "location".
  destruct statusOrUrl as [n|u]; [destruct url as [u|]|]; cbv beta iota zeta;
    cbn [statusCode res_headers res_body res_ended];
    destruct (HttpAdapter.getMethod request =? "HEAD");
    cbn [statusCode res_headers res_body res_ended];
    match goal with |- context [ServerResponse.valid_status ?c] =>
      destruct (ServerResponse.valid_status c) end; reflexivity.
Qed.

(** X16. Through [HttpAdapter], [redirect(url)] with a non-empty URL
    completes the response: the status is 303 when the method the
    adapter reports is PUT, PATCH or DELETE and 302 otherwise, the
    [Location] header is the encoded URL, the [Vary] header names the
    protocol header, and the body is omitted exactly on a HEAD
    request. *)
Theorem redirect_completes_the_response
  (request : Request) (config : ResolvedConfig) (runtime : Runtime)
  (shared : SharedData) (clear encrypt : bool)
  (url : string) (unused : option string) (res : Response) :
  url <> "" ->
  let i := Inertia.mk (HttpAdapter.new request) config runtime shared clear encrypt in
  let method := HttpAdapter.getMethod request in
  let status := if set_has ["PUT"; "PATCH"; "DELETE"] method then 303%Z else 302%Z in
  let res' := snd (Inertia.redirect i (Url url) unused res) in
  fst (Inertia.redirect i (Url url) unused res) = Returns tt
  /\ statusCode res' = status
  /\ obj_get "location" (res_headers res') = Some (encodeURI url)
  /\ obj_get "vary" (res_headers res') = Some "x-inertia"
  /\ res_ended res' = true
  /\ res_body res' =
       if method =? "HEAD" then None
       else Some (HttpAdapter.redirect_body request status (encodeURI url)).
Proof.
  intros Hurl i method status res'.
  assert (Hv : ServerResponse.valid_status status = true).
  { unfold status. now destruct (set_has _ method). }
  assert (Hcall :
            Inertia.redirect i (Url url) unused res =
              (Returns tt,
               mkResponse status
                 (obj_set "content-length"
                    (Z_to_string
                       (Z.of_nat (String.length
                                    (HttpAdapter.redirect_body request status (encodeURI url)))))
                    (obj_set "location" (encodeURI url)
                       (obj_set "vary" "x-inertia" (res_headers res))))
                 (if method =? "HEAD" then None
                  else Some (HttpAdapter.redirect_body request status (encodeURI url)))
                 true)).
  { unfold i, Inertia.redirect.
    rewrite (proj2 (truthy_string_true url) Hurl). cbn [negb].
    cbn [Inertia.adapter HttpAdapter.new getMethod setHeader redirect].
    rewrite (or_else_left "HEAD" (http_method_not_empty request)).
    fold method. cbn [Z.eqb Pos.eqb andb].
    change (existsb (String.eqb method) ["PUT"; "PATCH"; "DELETE"])
      with (set_has ["PUT"; "PATCH"; "DELETE"] method).
    fold status.
    unfold bindM, HttpAdapter.setHeader, ServerResponse.setHeader.
    change (toLowerCase "Vary") with "vary".
    rewrite http_redirect_writes. cbv zeta. fold method. rewrite Hv. reflexivity. }
  unfold res'. rewrite Hcall. cbn [fst snd statusCode res_headers res_body res_ended].
  repeat split; try reflexivity.
  - rewrite obj_get_set_neq by discriminate. apply obj_get_set_eq.
  - rewrite !obj_get_set_neq by discriminate. apply obj_get_set_eq.
Qed.



(* ================================================================== *)
(** * Flash messages                                                     *)
(* ================================================================== *)

Lemma obj_delete_absent {V : Type} (k : string) (o : object V) :
  obj_get k o = None -> obj_delete k o = o.
Proof.
  induction o as [|[k0 v0] o IH]; [reflexivity|]. simpl.
  destruct (String.eqb_spec k0 k) as [->|Hne]; [discriminate|].
  intros H. simpl. now rewrite IH.
Qed.

Lemma lookup_absent (key : string) (store : FlashStore) :
  obj_get key store = None ->
  Flash.lookup key store = if inherited key then Member key else Plain DUndefined.
Proof. unfold Flash.lookup, obj_read. intros ->. now destruct (inherited key). Qed.

(** X19. A message that is set is read once: after [set(key, value)] on
    a request that has a session, for a key other than [__proto__],
    [has(key)] holds and [peek(key)] and [get(key)] give the value;
    [get] removes the message, so that afterwards [has(key)] fails and a
    second [get(key)] gives [undefined], or, when the key is the name of
    a member of [Object.prototype], that member. The other keys are held
    or not as they were, and read as they did when the request had a
    store. *)
Theorem flash_message_is_read_once
  (req : FlashRequest) (s : FlashSession) (key : string) (value : data) :
  session req = Some s ->
  key <> "__proto__" ->
  exists req1,
    Flash.set key value req = Returns req1
    /\ Flash.has key req1 = true
    /\ Flash.peek key req1 = Plain value
    /\ fst (Flash.get key req1) = Plain value
    /\ Flash.has key (snd (Flash.get key req1)) = false
    /\ fst (Flash.get key (snd (Flash.get key req1))) =
         (if inherited key then Member key else Plain DUndefined)
    /\ forall other,
        other <> key ->
        Flash.has other (snd (Flash.get key req1)) = Flash.has other req
        /\ (flash s <> None ->
            Flash.peek other (snd (Flash.get key req1)) = Flash.peek other req).
Proof.
  intros Hs Hk. apply String.eqb_neq in Hk. unfold Flash.set. rewrite Hs.
  set (store := match flash s with Some store => store | None => [] end).
  assert (He : flash (Flash.ensureStore s) = Some store).
  { unfold Flash.ensureStore, store. destruct (flash s) eqn:E; [exact E | reflexivity]. }
  rewrite He. eexists. split; [reflexivity|].
  assert (Ha : obj_assign key value store = obj_set key value store).
  { unfold obj_assign. now rewrite Hk. }
  rewrite Ha.
  unfold Flash.has, Flash.peek, Flash.get, Flash.setStore. rewrite Hs.
  cbn [session flash fst snd].
  assert (Hgone : forall o : FlashStore, obj_get key (obj_delete key o) = None).
  { intros o. now rewrite obj_get_delete, String.eqb_refl. }
  repeat split.
  - unfold obj_has. now rewrite obj_get_set_eq.
  - unfold Flash.lookup, obj_read. now rewrite obj_get_set_eq.
  - unfold Flash.lookup, obj_read. now rewrite obj_get_set_eq.
  - unfold obj_has. now rewrite Hgone.
  - now apply lookup_absent.
  - unfold obj_has. rewrite obj_get_delete.
    destruct (String.eqb_spec key other) as [->|_]; [congruence|].
    rewrite obj_get_set_neq by congruence.
    unfold store. destruct (flash s); reflexivity.
  - intros Hf. unfold Flash.lookup, obj_read. rewrite obj_get_delete.
    destruct (String.eqb_spec key other) as [->|_]; [congruence|].
    rewrite obj_get_set_neq by congruence.
    unfold store. destruct (flash s); [reflexivity | congruence].
Qed.

(** X20. [all()] hands over the messages and leaves none: on a session
    whose store lists its entries as an object does, with one entry per
    key, it returns the store as it is, and afterwards no key is held,
    [peek] gives [undefined] (or, for the name of a member of
    [Object.prototype], that member), a second [all()] gives the empty
    object, and the other keys of the session are what they were.
    [clear()] leaves the same request. *)
Theorem flash_all_drains_the_store
  (req : FlashRequest) (s : FlashSession) (store : FlashStore) :
  session req = Some s ->
  flash s = Some store ->
  NoDup (obj_keys store) ->
  ordered store ->
  fst (Flash.all req) = store
  /\ (forall key, Flash.has key (snd (Flash.all req)) = false
                  /\ Flash.peek key (snd (Flash.all req)) =
                       if inherited key then Member key else Plain DUndefined)
  /\ fst (Flash.all (snd (Flash.all req))) = []
  /\ session (snd (Flash.all req)) = Some (mkFlashSession (Some []) (session_keys s))
  /\ Flash.clear req = snd (Flash.all req).
Proof.
  intros Hs Hf Hnd Ho. unfold Flash.all, Flash.clear, Flash.has, Flash.peek, Flash.setStore.
  rewrite Hs, Hf. cbn [fst snd session flash].
  rewrite fromEntries_NoDup by assumption. repeat split.
  now apply lookup_absent.
Qed.

(** X21. Without a session on the request the constructor, the
    middleware and [set] throw, and the middleware does not call
    [next]; the other operations do not throw: [get] and [peek] give
    [undefined], [has] fails, [all] gives the empty object, and none of
    them changes the request. *)
Theorem flash_without_session (req : FlashRequest) :
  session req = None ->
  Flash.new req = Throws Flash.requires_session
  /\ (forall (A : Type) (next : FlashRequest -> outcome A),
        Flash.middleware req next = Throws Flash.middleware_requires_session)
  /\ (forall key value, Flash.set key value req = Throws Flash.not_initialized)
  /\ (forall key, Flash.get key req = (Plain DUndefined, req)
                  /\ Flash.peek key req = Plain DUndefined
                  /\ Flash.has key req = false)
  /\ Flash.all req = ([], req)
  /\ Flash.clear req = req.
Proof.
  intros Hs.
  unfold Flash.new, Flash.middleware, Flash.set, Flash.get, Flash.peek, Flash.has,
    Flash.all, Flash.clear, Flash.setStore.
  rewrite Hs. repeat split.
Qed.

(** X22. On a request that has a session the middleware calls [next]
    once, with the request marked as carrying a [Flash], a store in its
    session (the one that was there, or a new empty one), and the
    messages and the other session keys as they were: every key is held
    or not as before, and reads as before, but for a name of a member of
    [Object.prototype], which reads that member once the store is
    created. *)
Theorem flash_middleware_prepares_the_store
  (A : Type) (req : FlashRequest) (s : FlashSession)
  (next : FlashRequest -> outcome A) :
  session req = Some s ->
  exists req',
    Flash.middleware req next = next req'
    /\ flash_attached req' = true
    /\ session req' =
         Some (mkFlashSession
                 (Some (match flash s with Some store => store | None => [] end))
                 (session_keys s))
    /\ forall key,
        Flash.has key req' = Flash.has key req
        /\ (flash s <> None \/ inherited key = false ->
            Flash.peek key req' = Flash.peek key req)
        /\ (flash s = None -> inherited key = true -> Flash.peek key req' = Member key).
Proof.
  intros Hs. unfold Flash.middleware, Flash.new. rewrite Hs.
  cbn [session bind flash_attached]. eexists. split; [reflexivity|].
  unfold Flash.peek, Flash.has, Flash.ensureStore. rewrite Hs.
  destruct s as [[store|] others]; cbn [session flash session_keys flash_attached];
    repeat split; try discriminate.
  - intros [H|H]; [congruence|]. unfold Flash.lookup, obj_read. cbn [obj_get]. now rewrite H.
  - intros _ H. unfold Flash.lookup, obj_read. cbn [obj_get]. now rewrite H.
Qed.

(* ================================================================== *)
(** * The further properties at sample requests                          *)
(* ================================================================== *)

Lemma except_header_witness :
  let i := Samples.partial_reload None (Some "user") in
  getHeader (Inertia.adapter i) InertiaHeaders.PartialComponent = Some "Home"
  /\ getHeader (Inertia.adapter i) InertiaHeaders.PartialOnly = None
  /\ getHeader (Inertia.adapter i) InertiaHeaders.PartialExcept = Some "user"
  /\ "user" <> ""
  /\ exists po,
      Inertia.buildPageObject i Samples.response "Home" (Some Samples.ab) = Returns po
      /\ obj_has "user" (props po) = false
      /\ obj_get "a" (props po) = Some (DNumber 1).
Proof.
  intros i.
  assert (Hc : getHeader (Inertia.adapter i) InertiaHeaders.PartialComponent = Some "Home")
    by reflexivity.
  assert (Ho : getHeader (Inertia.adapter i) InertiaHeaders.PartialOnly = None)
    by reflexivity.
  assert (He : getHeader (Inertia.adapter i) InertiaHeaders.PartialExcept = Some "user")
    by reflexivity.
  assert (Hne : "user" <> "") by discriminate.
  repeat (split; [assumption|]).
  destruct (except_header_drops_named_keys i Samples.response (Some Samples.ab)
              Hc (or_introl Ho) He Hne) as [_ Hk].
  destruct (Inertia.buildPageObject i Samples.response "Home" (Some Samples.ab))
    as [po|e] eqn:Hpo; [|vm_compute in Hpo; discriminate Hpo].
  exists po. split; [reflexivity|]. split.
  - apply (proj1 (Hk po eq_refl "user")). vm_compute. auto.
  - destruct (Hk po eq_refl "a") as [_ [_ Ha]].
    destruct (Ha (fun H => match H with
                           | or_introl E => ltac:(discriminate E)
                           | or_intror F => F
                           end) (VData (DNumber 1)) eq_refl) as [d [Hd Hr]].
    simpl in Hd. congruence.
Defined.

Lemma always_props_witness :
  getHeader (Inertia.adapter Samples.first_visit) InertiaHeaders.PartialComponent
    <> Some "Home"
  /\ "now" <> "__proto__"
  /\ exists po,
      Inertia.buildPageObject Samples.first_visit Samples.response "Home"
        (Some Samples.home) = Returns po
      /\ obj_get "now" (props po) = Some (DNumber 0).
Proof.
  assert (H : getHeader (Inertia.adapter Samples.first_visit)
                InertiaHeaders.PartialComponent <> Some "Home")
    by (vm_compute; discriminate).
  assert (Hk : "now" <> "__proto__") by discriminate.
  split; [exact H|]. split; [exact Hk|].
  destruct (Inertia.buildPageObject Samples.first_visit Samples.response "Home"
              (Some Samples.home)) as [po|e] eqn:Hpo;
    [|vm_compute in Hpo; discriminate Hpo].
  exists po. split; [reflexivity|].
  destruct (@always_props_are_kept Samples.first_visit Samples.response "Home"
              (Some Samples.home) (or_introl H) po Hpo "now"
              (Samples.returns (DNumber 0)) Hk eq_refl) as [d [Hd Hr]].
  unfold Samples.returns in Hd. congruence.
Defined.

Lemma empty_headers_witness :
  let i := Samples.partial_reload (Some "") (Some "") in
  getHeader (Inertia.adapter i) InertiaHeaders.PartialComponent = Some "Home"
  /\ getHeader (Inertia.adapter i) InertiaHeaders.PartialOnly = Some ""
  /\ getHeader (Inertia.adapter i) InertiaHeaders.PartialExcept = Some ""
  /\ Inertia.pickPropsToResolve i "Home" (spread (Inertia.sharedData i) Samples.home)
     = Returns (spread (Inertia.sharedData i) Samples.home).
Proof.
  intros i. split; [reflexivity|]. split; [reflexivity|]. split; [reflexivity|].
  exact (empty_headers_are_no_constraint i (Some Samples.home) eq_refl
           (or_intror eq_refl) (or_intror eq_refl)).
Defined.

Lemma function_prop_witness :
  getHeader (Inertia.adapter Samples.first_visit) InertiaHeaders.PartialComponent
    <> Some "Home"
  /\ exists po,
      Inertia.buildPageObject Samples.first_visit Samples.response "Home"
        (Some MoreSamples.wrapped_optional) = Returns po
      /\ obj_get "late" (props po) = Some (DNumber 7).
Proof.
  assert (H : getHeader (Inertia.adapter Samples.first_visit)
                InertiaHeaders.PartialComponent <> Some "Home")
    by (vm_compute; discriminate).
  split; [exact H|].
  destruct (Inertia.buildPageObject Samples.first_visit Samples.response "Home"
              (Some MoreSamples.wrapped_optional)) as [po|e] eqn:Hpo;
    [|vm_compute in Hpo; discriminate Hpo].
  exists po. split; [reflexivity|].
  destruct (@function_prop_is_resolved_on_first_load
              Samples.first_visit Samples.response "Home"
              (Some MoreSamples.wrapped_optional) "late" _
              (OptionalProp (Samples.returns (DNumber 7))) H eq_refl eq_refl po Hpo)
    as [d [Hd Hr]].
  unfold Props.callback, Samples.returns in Hd. congruence.
Defined.

Lemma shared_deferred_witness :
  let i := Inertia.share (Samples.inertia "GET" []) MoreSamples.shared_deferred in
  getHeader (Inertia.adapter i) InertiaHeaders.PartialComponent <> Some "Home"
  /\ obj_get "counts" (Inertia.or_empty (Some Samples.deferred)) = None
  /\ exists po,
      Inertia.buildPageObject i Samples.response "Home" (Some Samples.deferred)
        = Returns po
      /\ obj_has "counts" (props po) = false
      /\ deferredProps po = Some [("g1", ["x"; "y"]); ("g2", ["z"])].
Proof.
  intros i.
  assert (H : getHeader (Inertia.adapter i) InertiaHeaders.PartialComponent <> Some "Home")
    by (vm_compute; discriminate).
  split; [exact H|]. split; [reflexivity|].
  destruct (Inertia.buildPageObject i Samples.response "Home" (Some Samples.deferred))
    as [po|e] eqn:Hpo; [|vm_compute in Hpo; discriminate Hpo].
  exists po. split; [reflexivity|]. split.
  - exact (proj1 (@shared_deferred_prop_is_not_listed
                    i Samples.response "Home" (Some Samples.deferred) "counts"
                    (Samples.returns (DNumber 9)) "default" H eq_refl eq_refl po Hpo)).
  - vm_compute in Hpo. injection Hpo as <-. reflexivity.
Defined.

Lemma callback_failure_witness :
  exists e,
    Inertia.render Samples.first_visit "Home" (Some MoreSamples.broken) Samples.response
    = (Throws e, Samples.response).
Proof.
  eapply (@callback_failure_fails_the_render
            Samples.first_visit Samples.response "Home" (Some MoreSamples.broken)
            _ "rows" (Inertia.always MoreSamples.failing) "Error: database is down").
  - vm_compute. reflexivity.
  - right. right. right. left. reflexivity.
  - reflexivity.
Defined.

Lemma first_load_order_witness :
  NoDup (obj_keys (Inertia.sharedData Samples.first_visit))
  /\ NoDup (obj_keys (Inertia.or_empty (Some MoreSamples.numbered)))
  /\ getHeader (Inertia.adapter Samples.first_visit) InertiaHeaders.PartialComponent
       <> Some "Home"
  /\ exists po,
      Inertia.buildPageObject Samples.first_visit Samples.response "Home"
        (Some MoreSamples.numbered) = Returns po
      /\ obj_keys (props po) = ["9"; "10"; "theme"; "user"; "title"].
Proof.
  assert (Hs : NoDup (obj_keys (Inertia.sharedData Samples.first_visit))).
  { vm_compute. repeat constructor; simpl; intuition discriminate. }
  assert (Hp : NoDup (obj_keys (Inertia.or_empty (Some MoreSamples.numbered)))).
  { vm_compute. repeat constructor; simpl; intuition discriminate. }
  assert (H : getHeader (Inertia.adapter Samples.first_visit)
                InertiaHeaders.PartialComponent <> Some "Home")
    by (vm_compute; discriminate).
  repeat (split; [assumption|]).
  destruct (Inertia.buildPageObject Samples.first_visit Samples.response "Home"
              (Some MoreSamples.numbered)) as [po|e] eqn:Hpo;
    [|vm_compute in Hpo; discriminate Hpo].
  exists po. split; [reflexivity|].
  destruct (@first_load_props_keep_their_order
              Samples.first_visit Samples.response "Home" (Some MoreSamples.numbered) po
              Hs Hp H Hpo) as [Hk _].
  rewrite Hk. reflexivity.
Defined.

Lemma deferred_round_trip_witness :
  let later := Samples.partial_reload (Some "stats") None in
  NoDup (obj_keys Samples.home)
  /\ "stats" <> "__proto__"
  /\ getHeader (Inertia.adapter Samples.first_visit) InertiaHeaders.PartialComponent
       <> Some "Home"
  /\ getHeader (Inertia.adapter later) InertiaHeaders.PartialComponent = Some "Home"
  /\ getHeader (Inertia.adapter later) InertiaHeaders.PartialOnly = Some "stats"
  /\ In "stats" (split_filter "stats")
  /\ getHeader (Inertia.adapter later) InertiaHeaders.PartialExcept = None
  /\ (exists po,
        Inertia.buildPageObject Samples.first_visit Samples.response "Home"
          (Some Samples.home) = Returns po
        /\ obj_has "stats" (props po) = false)
  /\ exists po,
      Inertia.buildPageObject later Samples.response "Home" (Some Samples.home)
        = Returns po
      /\ deferredProps po = None
      /\ obj_get "stats" (props po) = Some (DNumber 2).
Proof.
  intros later.
  assert (Hnd : NoDup (obj_keys Samples.home)).
  { vm_compute. repeat constructor; simpl; intuition discriminate. }
  assert (Hf : getHeader (Inertia.adapter Samples.first_visit)
                 InertiaHeaders.PartialComponent <> Some "Home")
    by (vm_compute; discriminate).
  assert (Hin : In "stats" (split_filter "stats")) by (vm_compute; auto).
  assert (Hk : "stats" <> "__proto__") by discriminate.
  destruct (@deferred_prop_round_trip
              Samples.first_visit later Samples.response "Home" Samples.home "stats"
              (Samples.returns (DNumber 2)) "default" "stats"
              Hnd eq_refl Hk Hf eq_refl eq_refl Hin eq_refl) as [H1 H2].
  split; [exact Hnd|]. split; [exact Hk|]. split; [exact Hf|]. split; [reflexivity|]. split; [reflexivity|].
  split; [exact Hin|]. split; [reflexivity|]. split.
  - destruct (Inertia.buildPageObject Samples.first_visit Samples.response "Home"
                (Some Samples.home)) as [po|e] eqn:Hpo;
      [|vm_compute in Hpo; discriminate Hpo].
    exists po. split; [reflexivity|]. exact (proj1 (H1 po eq_refl)).
  - destruct (Inertia.buildPageObject later Samples.response "Home" (Some Samples.home))
      as [po|e] eqn:Hpo; [|vm_compute in Hpo; discriminate Hpo].
    exists po. split; [reflexivity|].
    destruct (H2 po eq_refl) as [Hd [d [Hcb Hr]]].
    split; [exact Hd|]. unfold Samples.returns in Hcb. congruence.
Defined.

Lemma share_witness :
  let later := [("theme", VData (DString "sepia")); ("locale", VData (DString "en"))] in
  NoDup (obj_keys (Inertia.sharedData Samples.first_visit))
  /\ NoDup (obj_keys later)
  /\ NoDup (obj_keys Samples.ab)
  /\ obj_get "theme"
       (spread (Inertia.sharedData (Inertia.share Samples.first_visit later)) Samples.ab)
     = Some (VData (DString "sepia")).
Proof.
  intros later.
  assert (Hs : NoDup (obj_keys (Inertia.sharedData Samples.first_visit))).
  { vm_compute. repeat constructor; simpl; intuition discriminate. }
  assert (Hl : NoDup (obj_keys later)).
  { vm_compute. repeat constructor; simpl; intuition discriminate. }
  assert (Hp : NoDup (obj_keys Samples.ab)).
  { vm_compute. repeat constructor; simpl; intuition discriminate. }
  repeat (split; [assumption|]).
  rewrite (proj1 (@share_overlays_shared_data Samples.first_visit later Samples.ab
                    "theme" Hs Hl Hp)).
  reflexivity.
Defined.

Lemma history_flags_witness :
  exists po,
    Inertia.buildPageObject Samples.first_visit Samples.response "Home"
      (Some Samples.ab) = Returns po
    /\ clearHistory po = false
    /\ exists po',
        Inertia.buildPageObject (Inertia.clearHistory Samples.first_visit)
          Samples.response "Home" (Some Samples.ab) = Returns po'
        /\ clearHistory po' = true /\ props po' = props po.
Proof.
  destruct (Inertia.buildPageObject Samples.first_visit Samples.response "Home"
              (Some Samples.ab)) as [po|e] eqn:Hpo;
    [|vm_compute in Hpo; discriminate Hpo].
  exists po. split; [reflexivity|].
  destruct (@history_flags_change_only_their_field
              Samples.first_visit Samples.response "Home" (Some Samples.ab) po true Hpo)
    as [Hc [_ [Hclear _]]].
  split; [rewrite Hc; reflexivity|].
  eexists. split; [exact Hclear|]. split; reflexivity.
Defined.

Lemma protocol_request_witness :
  (exists h, HttpAdapter.getHeader (Samples.request "GET" [("x-inertia", "true")])
               InertiaHeaders.Inertia = Some h /\ h <> "")
  /\ (100 <= statusCode Samples.response <= 999)%Z
  /\ exists po text,
      Inertia.buildPageObject Samples.protocol_visit Samples.response "Home"
        (Some Samples.ab) = Returns po
      /\ stringify (PageObject_data po) = Returns (Some text)
      /\ Inertia.render Samples.protocol_visit "Home" (Some Samples.ab) Samples.response
         = (Returns tt,
            mkResponse 200 [("x-inertia", "true"); ("content-type", "application/json")]
                       (Some text) true).
Proof.
  assert (Hh : exists h, HttpAdapter.getHeader (Samples.request "GET" [("x-inertia", "true")])
                           InertiaHeaders.Inertia = Some h /\ h <> "").
  { exists "true". split; [reflexivity | discriminate]. }
  assert (Hv : (100 <= statusCode Samples.response <= 999)%Z) by (simpl; lia).
  split; [exact Hh|]. split; [exact Hv|].
  destruct (Inertia.buildPageObject Samples.protocol_visit Samples.response "Home"
              (Some Samples.ab)) as [po|e] eqn:Hpo;
    [|vm_compute in Hpo; discriminate Hpo].
  assert (Hok : forall e, stringify (PageObject_data po) <> Throws e).
  { vm_compute in Hpo. injection Hpo as <-. intros e. vm_compute. discriminate. }
  destruct (@protocol_request_is_answered_in_json
              (Samples.request "GET" [("x-inertia", "true")]) Samples.config Samples.runtime
              [] false false "Home" (Some Samples.ab) Samples.response po Hh Hv Hpo Hok)
    as [text [Ht Hr]].
  exists po, text. split; [reflexivity|]. split; [exact Ht|]. exact Hr.
Defined.

Lemma bare_layout_witness :
  let i := MoreSamples.visit [] false MoreSamples.bare_layout ([], "") in
  HttpAdapter.getHeader (Samples.request "GET" []) InertiaHeaders.Inertia = None
  /\ ssrEnabled (MoreSamples.config_ssr false) = false
  /\ (100 <= statusCode Samples.response <= 999)%Z
  /\ Inertia.resolveLayout i Samples.response = Returns MoreSamples.bare_layout
  /\ includes Inertia.inertiaHeadTag MoreSamples.bare_layout = false
  /\ includes Inertia.inertiaBodyTag MoreSamples.bare_layout = false
  /\ Inertia.render i "Home" (Some Samples.ab) Samples.response
     = (Returns tt,
        mkResponse 200 [("content-type", "text/html")] (Some MoreSamples.bare_layout) true).
Proof.
  intros i.
  assert (Hv : (100 <= statusCode Samples.response <= 999)%Z) by (simpl; lia).
  split; [reflexivity|]. split; [reflexivity|]. split; [exact Hv|].
  repeat (split; [reflexivity|]).
  destruct (Inertia.buildPageObject i Samples.response "Home" (Some Samples.ab))
    as [po|e] eqn:Hpo; [|vm_compute in Hpo; discriminate Hpo].
  assert (Hok : forall e, stringify (PageObject_data po) <> Throws e).
  { vm_compute in Hpo. injection Hpo as <-. intros e. vm_compute. discriminate. }
  exact (@layout_without_markers_is_sent_unchanged
           (Samples.request "GET" []) (MoreSamples.config_ssr false)
           (MoreSamples.runtime_with MoreSamples.bare_layout ([], "")) [] false false
           "Home" (Some Samples.ab) Samples.response po MoreSamples.bare_layout
           (or_introl eq_refl) eq_refl Hv Hpo Hok eq_refl eq_refl eq_refl).
Defined.

Lemma empty_ssr_body_witness :
  let i := MoreSamples.visit [] true Samples.layout (["<title>Home</title>"], "") in
  HttpAdapter.getHeader (Samples.request "GET" []) InertiaHeaders.Inertia = None
  /\ ssrEnabled (MoreSamples.config_ssr true) = true
  /\ (100 <= statusCode Samples.response <= 999)%Z
  /\ Inertia.resolveLayout i Samples.response = Returns Samples.layout
  /\ exists body,
      Inertia.render i "Home" (Some Samples.ab) Samples.response
      = (Returns tt, mkResponse 200 [("content-type", "text/html")] (Some body) true)
      /\ includes "<title>Home</title></html>" body = false
      /\ includes "<html><div id=" body = true.
Proof.
  intros i.
  assert (Hv : (100 <= statusCode Samples.response <= 999)%Z) by (simpl; lia).
  split; [reflexivity|]. split; [reflexivity|]. split; [exact Hv|].
  split; [reflexivity|].
  destruct (Inertia.buildPageObject i Samples.response "Home" (Some Samples.ab))
    as [po|e] eqn:Hpo; [|vm_compute in Hpo; discriminate Hpo].
  destruct (stringify_page_object
              (mkPageObject (Some ["<title>Home</title>"]) (Some "") (component po) (url po)
                            (version po) (props po) (clearHistory po) (encryptHistory po)
                            (mergeProps po) (deferredProps po)))
    as [[text Ht]|[e Ht]].
  - eexists. split.
    + exact (@empty_ssr_body_falls_back_to_client_rendering
               (Samples.request "GET" []) (MoreSamples.config_ssr true)
               (MoreSamples.runtime_with Samples.layout (["<title>Home</title>"], ""))
               [] false false "Home" (Some Samples.ab) Samples.response po
               ["<title>Home</title>"] Samples.layout text
               (or_introl eq_refl) eq_refl Hv Hpo eq_refl eq_refl Ht).
    + vm_compute in Hpo. injection Hpo as <-. vm_compute in Ht. injection Ht as <-.
      split; vm_compute; reflexivity.
  - vm_compute in Hpo. injection Hpo as <-. vm_compute in Ht. discriminate Ht.
Defined.

Lemma redirect_response_witness :
  "/next page" <> ""
  /\ statusCode (snd (Inertia.redirect (Samples.inertia "PATCH" []) (Url "/next page") None
                        Samples.response)) = 303%Z
  /\ obj_get "location"
       (res_headers (snd (Inertia.redirect (Samples.inertia "PATCH" []) (Url "/next page")
                            None Samples.response))) = Some "/next%20page".
Proof.
  assert (Hurl : "/next page" <> "") by discriminate.
  split; [exact Hurl|].
  destruct (@redirect_completes_the_response
              (Samples.request "PATCH" []) Samples.config Samples.runtime [] false false
              "/next page" None Samples.response Hurl) as [_ [Hs [Hl _]]].
  split; [exact Hs | exact Hl].
Defined.

Lemma flash_read_once_witness :
  let req := MoreSamples.session_with [("notice", DString "old")] in
  session req = Some (mkFlashSession (Some [("notice", DString "old")])
                                     [("user", DString "ada")])
  /\ "error" <> "__proto__"
  /\ exists req1,
      Flash.set "error" (DString "no") req = Returns req1
      /\ fst (Flash.get "error" req1) = Plain (DString "no")
      /\ Flash.has "error" (snd (Flash.get "error" req1)) = false
      /\ fst (Flash.get "error" (snd (Flash.get "error" req1))) = Plain DUndefined
      /\ Flash.peek "notice" (snd (Flash.get "error" req1)) = Plain (DString "old").
Proof.
  intros req. split; [reflexivity|].
  assert (Hk : "error" <> "__proto__") by discriminate. split; [exact Hk|].
  destruct (@flash_message_is_read_once req _ "error" (DString "no") eq_refl Hk)
    as [req1 [Hset [_ [_ [Hget [Hhas [Hagain Hother]]]]]]].
  exists req1. split; [exact Hset|]. split; [exact Hget|]. split; [exact Hhas|].
  split; [exact Hagain|].
  destruct (Hother "notice") as [_ Hpeek]; [discriminate|].
  rewrite Hpeek by discriminate. reflexivity.
Defined.

Lemma flash_all_witness :
  let store := [("7", DString "seven"); ("notice", DString "saved"); ("error", DString "no")] in
  let req := MoreSamples.session_with store in
  session req = Some (mkFlashSession (Some store) [("user", DString "ada")])
  /\ NoDup (obj_keys store)
  /\ ordered store
  /\ fst (Flash.all req) = store
  /\ Flash.has "notice" (snd (Flash.all req)) = false
  /\ Flash.peek "notice" (snd (Flash.all req)) = Plain DUndefined
  /\ Flash.peek "toString" (snd (Flash.all req)) = Member "toString".
Proof.
  intros store req.
  assert (Hnd : NoDup (obj_keys store)).
  { vm_compute. repeat constructor; simpl; intuition discriminate. }
  assert (Ho : ordered store).
  { unfold ordered, store. cbn [obj_keys map fst].
    repeat constructor. }
  split; [reflexivity|]. split; [exact Hnd|]. split; [exact Ho|].
  destruct (@flash_all_drains_the_store req _ store eq_refl eq_refl Hnd Ho)
    as [Hall [Hnone _]].
  split; [exact Hall|]. split; [exact (proj1 (Hnone "notice"))|].
  split; [exact (proj2 (Hnone "notice")) | exact (proj2 (Hnone "toString"))].
Defined.

Lemma flash_without_session_witness :
  session MoreSamples.no_session = None
  /\ Flash.set "notice" (DString "saved") MoreSamples.no_session
     = Throws Flash.not_initialized
  /\ Flash.get "notice" MoreSamples.no_session = (Plain DUndefined, MoreSamples.no_session).
Proof.
  split; [reflexivity|].
  destruct (flash_without_session MoreSamples.no_session eq_refl)
    as [_ [_ [Hset [Hget _]]]].
  split; [apply Hset | apply Hget].
Defined.

Lemma flash_middleware_witness :
  let req := mkFlashRequest (Some (mkFlashSession None [("user", DString "ada")])) false in
  session req = Some (mkFlashSession None [("user", DString "ada")])
  /\ exists req',
      Flash.middleware req (fun r => Returns r) = Returns req'
      /\ flash_attached req' = true
      /\ session req' = Some (mkFlashSession (Some []) [("user", DString "ada")]).
Proof.
  intros req. split; [reflexivity|].
  destruct (@flash_middleware_prepares_the_store
              FlashRequest req _ (fun r => Returns r) eq_refl)
    as [req' [Hm [Ha [Hs _]]]].
  exists req'. split; [exact Hm|]. split; [exact Ha | exact Hs].
Defined.
